(** * Sniperbot: the session-accumulation and signal-derivation core of bot.py

    A shallow embedding of [src/bot.py].  Python values are modelled as
    follows.

    - [str] is the list of its characters, each character its Unicode
      code point.  The character classes the code relies on ([\d] of
      [re], the white space of [str.strip], the case mapping of
      [str.upper], the digits and spaces [float] accepts) are the tables
      of CPython 3.11, that is Unicode 14.0.
    - [float] is the kernel's binary64 [float] ([PrimFloat]), the same
      IEEE 754 format CPython uses; [float(str)], [round(x, n)] and [max]
      are written out from their documented behaviour on top of exact
      integer arithmetic, and [np.mean] and [np.std] from numpy's
      definition and summation order.
    - a [dict] read from and written to JSON is an association list in
      insertion order with unique keys ([json.dumps]/[json.loads] keep the
      order, and [for d in parsed.values()] follows it).
    - the directory [uploads/] with one file [parsed_<uid>.json] per user
      is a finite map from user ids to sessions.
    - a raised exception that [analyze_screenshots] catches is a value of
      type [error].

    The transport (Telegram), the OCR service and the image files are
    outside the embedding: a handler takes what they deliver (user id,
    caption, recognised text) and returns its reply with the new store. *)

From Stdlib Require Import ZArith NArith QArith Floats Uint63.
From Stdlib Require Import Strings.Byte.
From stdpp Require Import base option list gmap.

Set Warnings "-inexact-float,-via-type-remapping,-via-type-mismatch".

#[local] Open Scope Z_scope.

(** ** Text *)

(** A Python [str]: the code points of its characters. *)
Definition str : Type := list N.

(** Text literals are written between double quotes and read as UTF-8,
    one code point for each character. *)

Module Utf8.

Inductive codes : Set :=
| cnil
| ccons (c : N) (l : codes).

(** The payload of a continuation byte. *)
Definition cont (b : byte) : option N :=
  let n := Byte.to_N b in
  if ((128 <=? n) && (n <=? 191))%N then Some (n - 128)%N else None.

(** The code point [c], given that it lies between [lo] and [hi]. *)
Definition within (lo hi c : N) : option N :=
  if ((lo <=? c) && (c <=? hi))%N then Some c else None.

Fixpoint decode (bs : list byte) : option codes :=
  match bs with
  | [] => Some cnil
  | b0 :: bs1 =>
      let n0 := Byte.to_N b0 in
      if (n0 <? 128)%N then ccons n0 <$> decode bs1
      else
        match bs1 with
        | [] => None
        | b1 :: bs2 =>
            if (n0 <? 224)%N then
              x1 ← cont b1;
              c ← within 128 2047 ((n0 - 192) * 64 + x1)%N;
              ccons c <$> decode bs2
            else
              match bs2 with
              | [] => None
              | b2 :: bs3 =>
                  if (n0 <? 240)%N then
                    x1 ← cont b1; x2 ← cont b2;
                    c ← within 2048 65535
                          ((n0 - 224) * 4096 + x1 * 64 + x2)%N;
                    ccons c <$> decode bs3
                  else
                    match bs3 with
                    | [] => None
                    | b3 :: bs4 =>
                        x1 ← cont b1; x2 ← cont b2; x3 ← cont b3;
                        c ← within 65536 1114111
                              ((n0 - 240) * 262144 + x1 * 4096 + x2 * 64
                               + x3)%N;
                        ccons c <$> decode bs4
                    end
              end
        end
  end.

Definition bytes_of (ns : list N) : option (list byte) :=
  mapM Byte.of_N ns.

Definition encode_char (c : N) : option (list byte) :=
  if (c <? 128)%N then bytes_of [c]
  else if (c <? 2048)%N then bytes_of [192 + c / 64; 128 + c mod 64]%N
  else if (c <? 65536)%N then
    bytes_of [224 + c / 4096; 128 + (c / 64) mod 64; 128 + c mod 64]%N
  else if (c <? 1114112)%N then
    bytes_of [240 + c / 262144; 128 + (c / 4096) mod 64;
              128 + (c / 64) mod 64; 128 + c mod 64]%N
  else None.

Fixpoint encode (l : codes) : option (list byte) :=
  match l with
  | cnil => Some []
  | ccons c l' => bs ← encode_char c; bs' ← encode l'; Some (bs ++ bs')
  end.

End Utf8.

Declare Scope str_scope.
Delimit Scope str_scope with str.
Bind Scope str_scope with str.
String Notation str Utf8.decode Utf8.encode
  (via Utf8.codes mapping [[nil] => Utf8.cnil, [cons] => Utf8.ccons])
  : str_scope.
#[local] Open Scope str_scope.

(** The point and the underscore. *)
Abbreviation POINT := (46%N).
Abbreviation UNDERSCORE := (95%N).

(** ** Characters and the [str] methods used by the bot *)

Module Text.

Definition in_range (lo hi c : N) : bool := ((lo <=? c) && (c <=? hi))%N.

(** The digit zero of every decimal digit system (the characters of
    category Nd come in runs of ten, zero to nine). *)
Definition ZEROS : list N :=
  [48; 1632; 1776; 1984; 2406; 2534; 2662; 2790; 2918; 3046; 3174; 3302;
   3430; 3558; 3664; 3792; 3872; 4160; 4240; 6112; 6160; 6470; 6608; 6784;
   6800; 6992; 7088; 7232; 7248; 42528; 43216; 43264; 43472; 43504; 43600;
   44016; 65296; 66720; 68912; 69734; 69872; 69942; 70096; 70384; 70736;
   70864; 71248; 71360; 71472; 71904; 72016; 72784; 73040; 73120; 92768;
   92864; 93008; 120782; 120792; 120802; 120812; 120822; 123200; 123632;
   125264; 130032]%N.

(** [Py_UNICODE_TODECIMAL]: the value of a decimal digit. *)
Definition decimal (c : N) : option N :=
  (fun z => c - z)%N <$> find (fun z => in_range z (z + 9) c) ZEROS.

(** The characters [\d] matches in a [str] pattern: the decimal digits of
    every script. *)
Definition is_digit (c : N) : bool :=
  match decimal c with Some _ => true | None => false end.

Definition digit_value (c : N) : Z :=
  match decimal c with Some d => Z.of_N d | None => -1 end.

(** The ASCII digits, the only ones the C parser behind [float] reads. *)
Definition is_ascii_digit (c : N) : bool := in_range 48 57 c.

(** [Py_UNICODE_ISSPACE], the white space [str.strip] removes: TAB to CR,
    FS to US and the space, NEL, NBSP, the Ogham space mark, the spaces
    U+2000 to U+200A, the line and paragraph separators, the narrow
    no-break space, the medium mathematical space and the ideographic
    space. *)
Definition SPACES : list (N * N) :=
  [(9, 13); (28, 32); (133, 133); (160, 160); (5760, 5760); (8192, 8202);
   (8232, 8233); (8239, 8239); (8287, 8287); (12288, 12288)]%N.

Definition is_space (c : N) : bool :=
  existsb (fun r => in_range r.1 r.2 c) SPACES.

(** [Py_ISSPACE], the white space the C parser behind [float] skips: TAB
    to CR and the space. *)
Definition is_c_space (c : N) : bool := in_range 9 13 c || (c =? 32)%N.

(** The upper case of the characters whose upper case is more than one
    character. *)
Definition UPPER_SPECIAL : list (N * list N) :=
  [(223, [83; 83]); (329, [700; 78]); (496, [74; 780]);
   (912, [921; 776; 769]); (944, [933; 776; 769]); (1415, [1333; 1362]);
   (7830, [72; 817]); (7831, [84; 776]); (7832, [87; 778]);
   (7833, [89; 778]); (7834, [65; 702]); (8016, [933; 787]);
   (8018, [933; 787; 768]); (8020, [933; 787; 769]);
   (8022, [933; 787; 834]); (8064, [7944; 921]); (8065, [7945; 921]);
   (8066, [7946; 921]); (8067, [7947; 921]); (8068, [7948; 921]);
   (8069, [7949; 921]); (8070, [7950; 921]); (8071, [7951; 921]);
   (8072, [7944; 921]); (8073, [7945; 921]); (8074, [7946; 921]);
   (8075, [7947; 921]); (8076, [7948; 921]); (8077, [7949; 921]);
   (8078, [7950; 921]); (8079, [7951; 921]); (8080, [7976; 921]);
   (8081, [7977; 921]); (8082, [7978; 921]); (8083, [7979; 921]);
   (8084, [7980; 921]); (8085, [7981; 921]); (8086, [7982; 921]);
   (8087, [7983; 921]); (8088, [7976; 921]); (8089, [7977; 921]);
   (8090, [7978; 921]); (8091, [7979; 921]); (8092, [7980; 921]);
   (8093, [7981; 921]); (8094, [7982; 921]); (8095, [7983; 921]);
   (8096, [8040; 921]); (8097, [8041; 921]); (8098, [8042; 921]);
   (8099, [8043; 921]); (8100, [8044; 921]); (8101, [8045; 921]);
   (8102, [8046; 921]); (8103, [8047; 921]); (8104, [8040; 921]);
   (8105, [8041; 921]); (8106, [8042; 921]); (8107, [8043; 921]);
   (8108, [8044; 921]); (8109, [8045; 921]); (8110, [8046; 921]);
   (8111, [8047; 921]); (8114, [8122; 921]); (8115, [913; 921]);
   (8116, [902; 921]); (8118, [913; 834]); (8119, [913; 834; 921]);
   (8124, [913; 921]); (8130, [8138; 921]); (8131, [919; 921]);
   (8132, [905; 921]); (8134, [919; 834]); (8135, [919; 834; 921]);
   (8140, [919; 921]); (8146, [921; 776; 768]); (8147, [921; 776; 769]);
   (8150, [921; 834]); (8151, [921; 776; 834]); (8162, [933; 776; 768]);
   (8163, [933; 776; 769]); (8164, [929; 787]); (8166, [933; 834]);
   (8167, [933; 776; 834]); (8178, [8186; 921]); (8179, [937; 921]);
   (8180, [911; 921]); (8182, [937; 834]); (8183, [937; 834; 921]);
   (8188, [937; 921]); (64256, [70; 70]); (64257, [70; 73]);
   (64258, [70; 76]); (64259, [70; 70; 73]); (64260, [70; 70; 76]);
   (64261, [83; 84]); (64262, [83; 84]); (64275, [1348; 1350]);
   (64276, [1348; 1333]); (64277, [1348; 1339]); (64278, [1358; 1350]);
   (64279, [1348; 1341])]%N.

(** The upper case of the other cased characters: [(lo, hi, step, to)]
    sends [lo], [lo + step], ..., [hi] to [to], [to + step], ... *)
Definition UPPER_RULES : list (N * N * N * N) :=
  [(97, 122, 1, 65); (181, 181, 1, 924); (224, 246, 1, 192);
   (248, 254, 1, 216); (255, 255, 1, 376); (257, 303, 2, 256);
   (305, 305, 1, 73); (307, 311, 2, 306); (314, 328, 2, 313);
   (331, 375, 2, 330); (378, 382, 2, 377); (383, 383, 1, 83);
   (384, 384, 1, 579); (387, 389, 2, 386); (392, 392, 1, 391);
   (396, 396, 1, 395); (402, 402, 1, 401); (405, 405, 1, 502);
   (409, 409, 1, 408); (410, 410, 1, 573); (414, 414, 1, 544);
   (417, 421, 2, 416); (424, 424, 1, 423); (429, 429, 1, 428);
   (432, 432, 1, 431); (436, 438, 2, 435); (441, 441, 1, 440);
   (445, 445, 1, 444); (447, 447, 1, 503); (453, 453, 1, 452);
   (454, 454, 1, 452); (456, 456, 1, 455); (457, 457, 1, 455);
   (459, 459, 1, 458); (460, 460, 1, 458); (462, 476, 2, 461);
   (477, 477, 1, 398); (479, 495, 2, 478); (498, 498, 1, 497);
   (499, 499, 1, 497); (501, 501, 1, 500); (505, 543, 2, 504);
   (547, 563, 2, 546); (572, 572, 1, 571); (575, 576, 1, 11390);
   (578, 578, 1, 577); (583, 591, 2, 582); (592, 592, 1, 11375);
   (593, 593, 1, 11373); (594, 594, 1, 11376); (595, 595, 1, 385);
   (596, 596, 1, 390); (598, 599, 1, 393); (601, 601, 1, 399);
   (603, 603, 1, 400); (604, 604, 1, 42923); (608, 608, 1, 403);
   (609, 609, 1, 42924); (611, 611, 1, 404); (613, 613, 1, 42893);
   (614, 614, 1, 42922); (616, 616, 1, 407); (617, 617, 1, 406);
   (618, 618, 1, 42926); (619, 619, 1, 11362); (620, 620, 1, 42925);
   (623, 623, 1, 412); (625, 625, 1, 11374); (626, 626, 1, 413);
   (629, 629, 1, 415); (637, 637, 1, 11364); (640, 640, 1, 422);
   (642, 642, 1, 42949); (643, 643, 1, 425); (647, 647, 1, 42929);
   (648, 648, 1, 430); (649, 649, 1, 580); (650, 651, 1, 433);
   (652, 652, 1, 581); (658, 658, 1, 439); (669, 669, 1, 42930);
   (670, 670, 1, 42928); (837, 837, 1, 921); (881, 883, 2, 880);
   (887, 887, 1, 886); (891, 893, 1, 1021); (940, 940, 1, 902);
   (941, 943, 1, 904); (945, 961, 1, 913); (962, 962, 1, 931);
   (963, 971, 1, 931); (972, 972, 1, 908); (973, 974, 1, 910);
   (976, 976, 1, 914); (977, 977, 1, 920); (981, 981, 1, 934);
   (982, 982, 1, 928); (983, 983, 1, 975); (985, 1007, 2, 984);
   (1008, 1008, 1, 922); (1009, 1009, 1, 929); (1010, 1010, 1, 1017);
   (1011, 1011, 1, 895); (1013, 1013, 1, 917); (1016, 1016, 1, 1015);
   (1019, 1019, 1, 1018); (1072, 1103, 1, 1040); (1104, 1119, 1, 1024);
   (1121, 1153, 2, 1120); (1163, 1215, 2, 1162); (1218, 1230, 2, 1217);
   (1231, 1231, 1, 1216); (1233, 1327, 2, 1232); (1377, 1414, 1, 1329);
   (4304, 4346, 1, 7312); (4349, 4351, 1, 7357); (5112, 5117, 1, 5104);
   (7296, 7296, 1, 1042); (7297, 7297, 1, 1044); (7298, 7298, 1, 1054);
   (7299, 7300, 1, 1057); (7301, 7301, 1, 1058); (7302, 7302, 1, 1066);
   (7303, 7303, 1, 1122); (7304, 7304, 1, 42570); (7545, 7545, 1, 42877);
   (7549, 7549, 1, 11363); (7566, 7566, 1, 42950); (7681, 7829, 2, 7680);
   (7835, 7835, 1, 7776); (7841, 7935, 2, 7840); (7936, 7943, 1, 7944);
   (7952, 7957, 1, 7960); (7968, 7975, 1, 7976); (7984, 7991, 1, 7992);
   (8000, 8005, 1, 8008); (8017, 8023, 2, 8025); (8032, 8039, 1, 8040);
   (8048, 8049, 1, 8122); (8050, 8053, 1, 8136); (8054, 8055, 1, 8154);
   (8056, 8057, 1, 8184); (8058, 8059, 1, 8170); (8060, 8061, 1, 8186);
   (8112, 8113, 1, 8120); (8126, 8126, 1, 921); (8144, 8145, 1, 8152);
   (8160, 8161, 1, 8168); (8165, 8165, 1, 8172); (8526, 8526, 1, 8498);
   (8560, 8575, 1, 8544); (8580, 8580, 1, 8579); (9424, 9449, 1, 9398);
   (11312, 11359, 1, 11264); (11361, 11361, 1, 11360);
   (11365, 11365, 1, 570); (11366, 11366, 1, 574); (11368, 11372, 2, 11367);
   (11379, 11379, 1, 11378); (11382, 11382, 1, 11381);
   (11393, 11491, 2, 11392); (11500, 11502, 2, 11499);
   (11507, 11507, 1, 11506); (11520, 11557, 1, 4256);
   (11559, 11559, 1, 4295); (11565, 11565, 1, 4301);
   (42561, 42605, 2, 42560); (42625, 42651, 2, 42624);
   (42787, 42799, 2, 42786); (42803, 42863, 2, 42802);
   (42874, 42876, 2, 42873); (42879, 42887, 2, 42878);
   (42892, 42892, 1, 42891); (42897, 42899, 2, 42896);
   (42900, 42900, 1, 42948); (42903, 42921, 2, 42902);
   (42933, 42947, 2, 42932); (42952, 42954, 2, 42951);
   (42961, 42961, 1, 42960); (42967, 42969, 2, 42966);
   (42998, 42998, 1, 42997); (43859, 43859, 1, 42931);
   (43888, 43967, 1, 5024); (65345, 65370, 1, 65313);
   (66600, 66639, 1, 66560); (66776, 66811, 1, 66736);
   (66967, 66977, 1, 66928); (66979, 66993, 1, 66940);
   (66995, 67001, 1, 66956); (67003, 67004, 1, 66964);
   (68800, 68850, 1, 68736); (71872, 71903, 1, 71840);
   (93792, 93823, 1, 93760); (125218, 125251, 1, 125184)]%N.

(** [_PyUnicode_ToUpperFull] *)
Definition upper_char (c : N) : list N :=
  match find (fun e => (e.1 =? c)%N) UPPER_SPECIAL with
  | Some e => e.2
  | None =>
      match find (fun r => let '(lo, hi, step, _) := r in
                           in_range lo hi c && ((c - lo) mod step =? 0)%N)
                 UPPER_RULES with
      | Some (lo, _, _, to) => [(to + (c - lo))%N]
      | None => [c]
      end
  end.

(** [s.upper()] *)
Definition upper (s : str) : str := s ≫= upper_char.

(** [s == t] *)
Definition eqb (s t : str) : bool := bool_decide (s = t).

(** Drop the leading, the trailing characters of the class [space]. *)
Fixpoint lstrip (space : N -> bool) (l : str) : str :=
  match l with
  | c :: l' => if space c then lstrip space l' else l
  | [] => []
  end.

Definition rstrip (space : N -> bool) (l : str) : str :=
  rev (lstrip space (rev l)).

(** [s.strip()] *)
Definition strip (s : str) : str := rstrip is_space (lstrip is_space s).

End Text.

(** ** The regular expression of [extract_prices_from_text]

    [re.findall(r"\d{3,5}\.\d{1,4}", text)]: the pattern is a sequence of
    greedy bounded repetitions of a one-character atom, matched by
    backtracking from the largest repetition count downwards. *)

Module Re.
Import Text.

Inductive atom : Type :=
| Digit                (* \d *)
| Lit (c : N).         (* an escaped literal such as \. *)

(** [a{lo,hi}], greedy. *)
Record item : Type := Rep { rep_atom : atom; rep_lo : nat; rep_hi : nat }.

Definition regex : Type := list item.

Definition atom_matches (a : atom) (c : N) : bool :=
  match a with
  | Digit => is_digit c
  | Lit c' => (c' =? c)%N
  end.

(** How many leading characters of [s] match [a], counting at most [hi]. *)
Fixpoint run (a : atom) (hi : nat) (s : str) : nat :=
  match hi, s with
  | S hi', c :: s' => if atom_matches a c then S (run a hi' s') else O
  | _, _ => O
  end.

(** Try [lo + extra], [lo + extra - 1], ..., [lo] repetitions in turn and
    continue with the rest of the pattern after each; the result is the
    length of the whole match. *)
Fixpoint backtrack (rest : str -> option nat) (s : str)
    (lo extra : nat) : option nat :=
  match rest (drop (lo + extra) s) with
  | Some len => Some (lo + extra + len)%nat
  | None =>
      match extra with
      | O => None
      | S extra' => backtrack rest s lo extra'
      end
  end.

(** The length of the match of [r] that starts at the head of [s]. *)
Fixpoint match_here (r : regex) (s : str) : option nat :=
  match r with
  | [] => Some O
  | it :: r' =>
      let n := run (rep_atom it) (rep_hi it) s in
      if (n <? rep_lo it)%nat then None
      else backtrack (match_here r') s (rep_lo it) (n - rep_lo it)
  end.

(** The scan of [findall]: at each position try a match; after a match
    resume right behind it, otherwise move one character on.  [fuel]
    bounds the number of positions visited.  (A pattern that can match
    the empty text needs more care; the price pattern cannot.) *)
Fixpoint findall_from (fuel : nat) (r : regex) (s : str) : list str :=
  match fuel, s with
  | S fuel', _ :: s' =>
      match match_here r s with
      | Some (S n) => take (S n) s :: findall_from fuel' r (drop n s')
      | _ => findall_from fuel' r s'
      end
  | _, _ => []
  end.

Definition findall (r : regex) (s : str) : list str :=
  findall_from (length s) r s.

(** [r"\d{3,5}\.\d{1,4}"], with names for its two tails. *)
Definition FRAC : regex := [Rep Digit 1 4].
Definition DOT_FRAC : regex := Rep (Lit POINT) 1 1 :: FRAC.
Definition PRICE : regex := Rep Digit 3 5 :: DOT_FRAC.

End Re.

(** ** [extract_prices_from_text] *)

(** The dict [{"numbers": nums, "raw": text}]. *)
Record observation : Type := Obs { numbers : list str; raw : str }.

Definition extract_prices_from_text (text : str) : observation :=
  let nums := Re.findall Re.PRICE text in
  {| numbers := nums; raw := text |}.

(** ** Python's [float]

    Binary64 arithmetic is the kernel's; the conversions between decimal
    text and binary64 are computed exactly over [Z] and rounded once, to
    nearest with ties to even, as CPython's correctly rounded [strtod] and
    [dtoa] do. *)

Module Py.
Import Text.

(** [n / d] rounded to the nearest integer, ties to the even one
    ([0 <= n], [0 < d]). *)
Definition nearest_even (n d : Z) : Z :=
  let q := n / d in
  match (2 * (n mod d)) ?= d with
  | Lt => q
  | Gt => q + 1
  | Eq => if Z.even q then q else q + 1
  end.

Definition float_of_Z (m : Z) : float := of_uint63 (Uint63.of_Z m).

(** The binary64 nearest to [n / d] for [0 < n] and [0 < d]: a 53-bit
    significand [m] and an exponent [e >= -1074] with [m * 2^e] nearest
    to the quotient; quotients beyond the largest finite value give
    [infinity]. *)
Definition binary64_of_ratio (n d : Z) : float :=
  let scaled (e : Z) := (n * 2 ^ Z.max 0 (- e), d * 2 ^ Z.max 0 e) in
  let e0 := Z.log2 n - Z.log2 d - 53 in
  let '(n0, d0) := scaled e0 in
  let e1 := if n0 / d0 <? 2 ^ 53 then e0 else e0 + 1 in
  let e := Z.max e1 (-1074) in
  let '(n1, d1) := scaled e in
  Z.ldexp (float_of_Z (nearest_even n1 d1)) e.

(** The binary64 nearest to [(-1)^neg * m * 10^e10], for [0 <= m]. *)
Definition float_of_decimal (neg : bool) (m e10 : Z) : float :=
  let x := if m =? 0 then 0%float
           else binary64_of_ratio (m * 10 ^ Z.max 0 e10) (10 ^ Z.max 0 (- e10)) in
  if neg then (- x)%float else x.

(** *** [float(s)] for a string

    The text is first brought to ASCII: a character above DEL is replaced
    by a space when it is white space and by the ASCII digit of its value
    when it is a decimal digit; any other one becomes a question mark and
    ends the text.  A text of ASCII characters is taken as it is.

    The accepted ASCII texts are, after white space is stripped from both
    ends and single underscores between digits are dropped:
    [[sign] ("inf" | "infinity" | "nan")] in any letter case, or
    [[sign] (digits ["." [digits]] | "." digits) [("e"|"E") [sign] digits]].
    Anything else raises [ValueError], modelled by [None]. *)

(** [_PyUnicode_TransformDecimalAndSpaceToASCII] past its shortcut. *)
Fixpoint transform (l : str) : str :=
  match l with
  | [] => []
  | c :: l' =>
      if (c <? 127)%N then c :: transform l'
      else if is_space c then 32%N :: transform l'
      else
        match decimal c with
        | Some d => (48 + d)%N :: transform l'
        | None => [63%N]
        end
  end.

Definition to_ascii (l : str) : str :=
  if forallb (fun c => (c <? 128)%N) l then l else transform l.

Fixpoint drop_underscores (prev : option N) (l : str) : option str :=
  let is_dig (o : option N) :=
    match o with Some c => is_ascii_digit c | None => false end in
  match l with
  | [] => if bool_decide (prev = Some UNDERSCORE) then None else Some []
  | c :: l' =>
      if (c =? UNDERSCORE)%N then
        if is_dig prev then drop_underscores (Some c) l' else None
      else if bool_decide (prev = Some UNDERSCORE) && negb (is_ascii_digit c)
           then None
      else cons c <$> drop_underscores (Some c) l'
  end.

(** The leading digits of [l] as a number, how many there are, and what
    follows them. *)
Fixpoint read_digits (acc : Z) (count : Z) (l : str) : Z * Z * str :=
  match l with
  | c :: l' =>
      if is_ascii_digit c
      then read_digits (10 * acc + (Z.of_N c - 48)) (count + 1) l'
      else (acc, count, l)
  | [] => (acc, count, l)
  end.

Definition read_sign (l : str) : bool * str :=
  match l with
  | c :: l' =>
      if (c =? 45)%N then (true, l')          (* - *)
      else if (c =? 43)%N then (false, l')    (* + *)
      else (false, l)
  | [] => (false, l)
  end.

Definition lower_char (c : N) : N :=
  if in_range 65 90 c then (c + 32)%N else c.

(** The optional exponent part; a lone ["e"] or ["e+"] is not one. *)
Definition read_exponent (l : str) : Z * str :=
  match l with
  | c :: l' =>
      if ((c =? 101) || (c =? 69))%N then    (* e, E *)
        let '(neg, l'') := read_sign l' in
        let '(e, count, rest) := read_digits 0 0 l'' in
        if count =? 0 then (0, l) else ((if neg then - e else e), rest)
      else (0, l)
  | [] => (0, l)
  end.

Definition parse_number (neg : bool) (l : str) : option float :=
  let '(ip, icount, l1) := read_digits 0 0 l in
  let '(m, fcount, l2) :=
    match l1 with
    | POINT :: l1' =>
        let '(m, ftotal, l2) := read_digits ip icount l1' in
        (m, ftotal - icount, l2)
    | _ => (ip, 0, l1)
    end in
  let total := icount + fcount in
  if total =? 0 then None
  else
    let '(e, l3) := read_exponent l2 in
    match l3 with
    | [] => Some (float_of_decimal neg m (e - fcount))
    | _ => None
    end.

(** The number an ASCII text denotes. *)
Definition float_of_chars (l : str) : option float :=
  l0 ← drop_underscores None (rstrip is_c_space (lstrip is_c_space l));
  let '(neg, l1) := read_sign l0 in
  let word := map lower_char l1 in
  if bool_decide (word = "inf"%str) || bool_decide (word = "infinity"%str)
  then Some (if neg then neg_infinity else infinity)
  else if bool_decide (word = "nan"%str) then Some nan
  else parse_number neg l1.

(** [float(s)] *)
Definition float (s : str) : option PrimFloat.float :=
  float_of_chars (to_ascii s).

(** *** [round(x, ndigits)] for a float and [0 <= ndigits]

    Infinities and NaN round to themselves.  A finite [x = m * 2^e] is
    rounded, on its exact value and with ties to even, to [ndigits]
    decimals, and the decimal is converted back to binary64. *)
Definition round (x : PrimFloat.float) (ndigits : Z) : PrimFloat.float :=
  match Prim2SF x with
  | S754_finite neg m e =>
      let n := Zpos m * 2 ^ Z.max 0 e * 10 ^ ndigits in
      let d := 2 ^ Z.max 0 (- e) in
      float_of_decimal neg (nearest_even n d) (- ndigits)
  | _ => x
  end.

(** [max(a, b)]: [b] replaces [a] only when [b > a]. *)
Definition max (a b : PrimFloat.float) : PrimFloat.float :=
  if PrimFloat.ltb a b then b else a.

End Py.

(** ** The two numpy reductions

    [np.mean(a)] is [add.reduce(a) / len(a)] and [np.std(a)] is
    [sqrt(mean(abs(a - mean(a))**2))], over binary64.  [add.reduce] adds
    the way numpy's pairwise summation does: fewer than eight elements
    from left to right; up to 128 elements in eight running sums, one per
    position modulo 8, which are then combined two by two, followed by
    the elements beyond the last full group of eight; longer arrays by
    halves. *)

Module Np.

Definition add_from (init : float) (a : list float) : float :=
  fold_left PrimFloat.add a init.

(** The eight running sums [r] after [blocks] further groups of eight. *)
Fixpoint lanes (r a : list float) (blocks : nat) : list float :=
  match blocks with
  | O => r
  | S blocks' => lanes (zip_with PrimFloat.add r (take 8 a)) (drop 8 a) blocks'
  end.

(** A block of 8 to 128 elements. *)
Definition block_sum (a : list float) : float :=
  let n := length a in
  let res :=
    match lanes (take 8 a) (drop 8 a) (n / 8 - 1) with
    | [r0; r1; r2; r3; r4; r5; r6; r7] =>
        (((r0 + r1) + (r2 + r3)) + ((r4 + r5) + (r6 + r7)))%float
    | _ => 0%float
    end in
  add_from res (drop (8 * (n / 8)) a).

(** [fuel] bounds the depth of the halving; the length of [a] is enough. *)
Fixpoint pairwise_sum (fuel : nat) (a : list float) : float :=
  let n := length a in
  if (n <? 8)%nat then add_from (-0)%float a
  else if (n <=? 128)%nat then block_sum a
  else
    match fuel with
    | O => block_sum a
    | S fuel' =>
        let n2 := (n / 2 - (n / 2) mod 8)%nat in
        (pairwise_sum fuel' (take n2 a) + pairwise_sum fuel' (drop n2 a))%float
    end.

(** [np.add.reduce(a)], starting from the identity 0. *)
Definition sum (a : list float) : float :=
  (0 + pairwise_sum (length a) a)%float.

Definition count (a : list float) : float :=
  Py.float_of_Z (Z.of_nat (length a)).

Definition mean (a : list float) : float :=
  (sum a / count a)%float.

Definition var (a : list float) : float :=
  let arrmean := mean a in
  let x := map (fun v => (v - arrmean)%float) a in
  let x := map (fun v => (v * v)%float) x in
  (sum x / count a)%float.

Definition std (a : list float) : float := PrimFloat.sqrt (var a).

End Np.

(** ** JSON objects as insertion-ordered dictionaries *)

Section Dict.
Context {V : Type}.

Definition dict : Type := list (str * V).

(** [d.get(k)] *)
Fixpoint dict_get (k : str) (d : dict) : option V :=
  match d with
  | [] => None
  | (k', v) :: d' => if Text.eqb k' k then Some v else dict_get k d'
  end.

(** [d[k] = v]: an existing key keeps its place, a new one goes last. *)
Fixpoint dict_set (k : str) (v : V) (d : dict) : dict :=
  match d with
  | [] => [(k, v)]
  | (k', v') :: d' =>
      if Text.eqb k' k then (k', v) :: d' else (k', v') :: dict_set k v d'
  end.

(** [d.values()] *)
Definition dict_values (d : dict) : list V := map snd d.

Definition dict_keys (d : dict) : list str := map fst d.

(** The dictionary without the key [k]. *)
Fixpoint dict_remove (k : str) (d : dict) : dict :=
  match d with
  | [] => []
  | (k', v) :: d' =>
      if Text.eqb k' k then dict_remove k d' else (k', v) :: dict_remove k d'
  end.

End Dict.
Arguments dict V : clear implicits.

(** A user's session: timeframe label to observation. *)
Abbreviation session := (dict observation).

(** ** The Signal Engine *)

Inductive side : Type := LONG | SHORT.

(** What [analyze_screenshots] reports under ["error"]: its own
    ["No price found."], or the text of the exception it caught, which is
    "could not convert string to float" for a [ValueError] and "float
    division by zero" for a [ZeroDivisionError]. *)
Inductive error : Type :=
| NoPriceFound
| ValueError (token : str)
| ZeroDivisionError.

Inductive result (A : Type) : Type :=
| Ok (a : A)
| Raised (e : error).
Arguments Ok {A} a.
Arguments Raised {A} e.

#[export] Instance result_ret : MRet result := @Ok.
#[export] Instance result_bind : MBind result := fun A B f r =>
  match r with
  | Ok a => f a
  | Raised e => Raised e
  end.

(** [float(s)], raising [ValueError] when [s] is not a number. *)
Definition to_float (s : str) : result float :=
  match Py.float s with
  | Some x => Ok x
  | None => Raised (ValueError s)
  end.

(** [list(map(float, l))]: the first token that fails raises. *)
Fixpoint map_float (l : list str) : result (list float) :=
  match l with
  | [] => Ok []
  | s :: l' => x ← to_float s; xs ← map_float l'; Ok (x :: xs)
  end.

(** The dict [compute_sl_tp_size] returns. *)
Record risk : Type := Risk {
  risk_SL : float;
  risk_TP : float;
  risk_lots : float;
  risk_RR : float
}.

Definition ATR_SL_K : float := 1.5%float.

Definition compute_sl_tp_size (entry_price atr : float) (s : side)
    (balance : float) : result risk :=
  let sl_distance := (ATR_SL_K * atr)%float in
  let tp_distance := (4.0 * sl_distance)%float in
  let sl := match s with
            | LONG => (entry_price - sl_distance)%float
            | SHORT => (entry_price + sl_distance)%float
            end in
  let tp := match s with
            | LONG => (entry_price + tp_distance)%float
            | SHORT => (entry_price - tp_distance)%float
            end in
  let risk_usd := (balance * 0.01)%float in
  let divisor := (sl_distance * 100)%float in
  if PrimFloat.eqb divisor 0%float then Raised ZeroDivisionError
  else
    let position_size := Py.max 0.01%float (Py.round (risk_usd / divisor)%float 2) in
    Ok {| risk_SL := Py.round sl 3; risk_TP := Py.round tp 3;
          risk_lots := position_size; risk_RR := 4.0%float |}.

(** The dict [{"side": side, "entry": price, **trade}]. *)
Record recommendation : Type := Recommend {
  rec_side : side;
  rec_entry : float;
  rec_SL : float;
  rec_TP : float;
  rec_lots : float;
  rec_RR : float
}.

Definition TIMEFRAMES : list str := ["5M"; "15M"; "30M"; "1H"; "4H"]%str.

(** [parsed.get(tf, {}).get("numbers", [])] *)
Definition get_numbers (tf : str) (parsed : session) : list str :=
  match dict_get tf parsed with
  | Some d => numbers d
  | None => []
  end.

(** The [for tf in (...)] loop with its [break]: the numbers of the first
    timeframe whose list is not empty, or [None] when the loop runs into
    its [else]. *)
Fixpoint first_numbers (tfs : list str) (parsed : session)
    : option (list str) :=
  match tfs with
  | [] => None
  | tf :: tfs' =>
      match get_numbers tf parsed with
      | [] => first_numbers tfs' parsed
      | v => Some v
      end
  end.

(** [v[-1]] of a list known to be non-empty. *)
Definition last_token (v : list str) : str := default ""%str (last v).

(** The two nested loops that fill [all_nums], skipping what [float]
    rejects. *)
Definition all_nums (parsed : session) : list float :=
  fold_left
    (fun acc d =>
       fold_left
         (fun acc n =>
            match Py.float n with
            | Some x => acc ++ [x]
            | None => acc
            end)
         (numbers d) acc)
    (dict_values parsed) [].

(** [atr] *)
Definition volatility (parsed : session) : float :=
  let nums := all_nums parsed in
  if (2 <=? length nums)%nat then Np.std nums else 1.0%float.

(** [l[-5:]] *)
Definition last5 {A} (l : list A) : list A := drop (length l - 5) l.

(** [side] *)
Definition bias (parsed : session) : result side :=
  let m15 := get_numbers "15M" parsed in
  match m15 with
  | [] => Ok LONG
  | _ =>
      xs ← map_float (last5 m15);
      let ema_like := Np.mean xs in
      x ← to_float (last_token m15);
      Ok (if PrimFloat.ltb ema_like x then LONG else SHORT)
  end.

Definition analyze_screenshots (parsed : session) : result recommendation :=
  match first_numbers TIMEFRAMES parsed with
  | None => Raised NoPriceFound
  | Some v =>
      price ← to_float (last_token v);
      let atr := volatility parsed in
      s ← bias parsed;
      trade ← compute_sl_tp_size price atr s 10000.0%float;
      Ok {| rec_side := s; rec_entry := price;
            rec_SL := risk_SL trade; rec_TP := risk_TP trade;
            rec_lots := risk_lots trade; rec_RR := risk_RR trade |}
  end.

(** ** The Session Store and the two handlers *)

(** [uploads/parsed_<uid>.json], one per user id. *)
Abbreviation store := (gmap Z session).

Inductive reply : Type :=
| NoImageFound                      (* "No image found." *)
| ResendWithCaption                 (* "Saved. Please resend with caption ..." *)
| Parsed (tf_label : str)        (* "<tf> parsed. When done send /analyze" *)
| NoParsedScreenshots               (* "No parsed screenshots found. ..." *)
| AnalysisError (e : error)         (* "Analysis error: ..." *)
| Recommendation (r : recommendation).

(** [json.loads(store_path.read_text())] if the file exists, else [{}]. *)
Definition get (uid : Z) (st : store) : session := default [] (st !! uid).

(** Lines 87 to 93 of [handle_photo]: load, assign, write back. *)
Definition put (uid : Z) (tf_label : str) (parsed : observation)
    (st : store) : store :=
  let data := get uid st in
  <[uid := dict_set tf_label parsed data]> st.

(** [store_path.unlink(missing_ok=True)] *)
Definition clear (uid : Z) (st : store) : store := delete uid st.

(** An upload: the sender, whether the message carries a photo, its
    caption, and the text the OCR service read from the image. *)
Definition handle_photo (uid : Z) (photo : bool) (caption : option str)
    (text : str) (st : store) : reply * store :=
  if negb photo then (NoImageFound, st)
  else
    let parsed := extract_prices_from_text text in
    let tf_label := Text.upper (Text.strip (default ""%str caption)) in
    if negb (bool_decide (tf_label ∈ TIMEFRAMES)) then (ResendWithCaption, st)
    else (Parsed tf_label, put uid tf_label parsed st).

Definition analyze_cmd (uid : Z) (st : store) : reply * store :=
  match st !! uid with
  | None => (NoParsedScreenshots, st)
  | Some parsed =>
      match analyze_screenshots parsed with
      | Raised e => (AnalysisError e, st)
      | Ok r => (Recommendation r, clear uid st)
      end
  end.

(** ** Sample sessions

    Uploads replayed from an empty store; the theorems below are
    instantiated on them. *)

Definition upload (uid : Z) (caption text : str) (st : store) : store :=
  snd (handle_photo uid true (Some caption) text st).

(** One 5M screenshot showing a single price. *)
Definition store_one_price : store :=
  upload 7 "5m" "XAUUSD 2034.55" ∅.

(** The session a user has after a single screenshot. *)
Definition one_upload (caption text : str) : session :=
  get 7 (upload 7 caption text ∅).

(** The session of the specification's priority scenario. *)
Definition session_5M_1H : session :=
  [("5M", Obs ["1.23"] ""); ("1H", Obs ["9.99"] "")]%str.

(** A 1H screenshot, then a 5M screenshot. *)
Definition session_1H_5M : session :=
  get 7 (upload 7 "5M" "2034.55 2035.10" (upload 7 "1H" "2031.40" ∅)).

(** The text 123.4 written with the Arabic-Indic digits U+0661, U+0662,
    U+0663, a point, and U+0664. *)
Definition ARABIC_INDIC_PRICE : str := [1633; 1634; 1635; 46; 1636]%N.

(** [x] is what [round(y, ndigits)] returns for some [y]. *)
Definition rounded_to (ndigits : Z) (x : float) : Prop :=
  ∃ y, x = Py.round y ndigits.

(** The numbers of a list of tokens: those [float] accepts, in order. *)
Definition parsed_values (tokens : list str) : list float :=
  omap Py.float tokens.

(** ** What the extractor is specified to return

    A price-shaped text is three to five digits, a point, and one to four
    digits.  The scan of a text lists, from left to right, the longest
    price-shaped text at the first position that starts one, then goes on
    behind it.

    What counts as a digit is a parameter: the claim's words can be read
    with the digits 0 to 9 ([plain_digit]) or with the decimal digits of
    every script ([decimal_digit]). *)

Module PriceSpec.

Section Shape.
Variable digit : N → Prop.

Definition digits (l : str) : Prop := Forall digit l.

Definition price_shaped (m : str) : Prop :=
  ∃ ip fp, m = ip ++ POINT :: fp
           ∧ digits ip ∧ (3 ≤ length ip ≤ 5)%nat
           ∧ digits fp ∧ (1 ≤ length fp ≤ 4)%nat.

(** [m] is the longest price-shaped text that [s] starts with. *)
Definition match_at (s m : str) : Prop :=
  m `prefix_of` s
  ∧ price_shaped m
  ∧ ∀ m', m' `prefix_of` s → price_shaped m' → (length m' ≤ length m)%nat.

(** [s] starts with no price-shaped text. *)
Definition no_match_at (s : str) : Prop :=
  ∀ m, m `prefix_of` s → ¬ price_shaped m.

Inductive scan : str → list str → Prop :=
| scan_end s :
    (∀ i, no_match_at (drop i s)) → scan s []
| scan_match pre m rest ms :
    (∀ i, (i < length pre)%nat → no_match_at (drop i (pre ++ m ++ rest))) →
    match_at (m ++ rest) m →
    scan rest ms →
    scan (pre ++ m ++ rest) (m :: ms).

End Shape.
Arguments scan_end {digit} s _.
Arguments scan_match {digit} pre m rest ms _ _ _.

(** The digits 0 to 9. *)
Definition plain_digit (c : N) : Prop := (48 ≤ c ≤ 57)%N.

(** The decimal digits of every script: the characters with a decimal
    digit value. *)
Definition decimal_digit (c : N) : Prop := Text.is_digit c = true.

End PriceSpec.

(** ** Sessions as the handlers leave them *)

(** The number a text of decimal digits denotes, continuing from
    [acc]. *)
Definition digits_value (acc : Z) (ds : str) : Z :=
  fold_left (fun a c => 10 * a + Text.digit_value c) ds acc.

(** The same for a text of ASCII digits, as [float]'s parser reads it. *)
Definition ascii_value (acc : Z) (ds : str) : Z :=
  fold_left (fun a c => 10 * a + (Z.of_N c - 48)) ds acc.

(** The ASCII digit with the value of the decimal digit [c]. *)
Definition ascii_digit (c : N) : N := (48 + default 0 (Text.decimal c))%N.

(** The characters from [lo] to [hi]; all the decimal digits; all the
    white space. *)
Definition range (lo hi : N) : list N :=
  N.of_nat <$> seq (N.to_nat lo) (S (N.to_nat hi) - N.to_nat lo).

Definition DIGITS : list N := z ← Text.ZEROS; range z (z + 9).

Definition WHITE : list N := r ← Text.SPACES; range r.1 r.2.

(** One observation per label, every label one of the five timeframes,
    every observation the extraction of some text. *)
Definition session_ok (d : session) : Prop :=
  NoDup (dict_keys d)
  ∧ ∀ k o, (k, o) ∈ d →
      k ∈ TIMEFRAMES ∧ ∃ text, o = extract_prices_from_text text.

Definition store_ok (st : store) : Prop :=
  ∀ uid d, st !! uid = Some d → session_ok d.

(** What the transport delivers: an upload or an analyze trigger. *)
Inductive event : Type :=
| Photo (uid : Z) (photo : bool) (caption : option str) (text : str)
| Analyze (uid : Z).

Definition step (ev : event) (st : store) : reply * store :=
  match ev with
  | Photo uid photo caption text => handle_photo uid photo caption text st
  | Analyze uid => analyze_cmd uid st
  end.

(** The store after a sequence of events, starting from [st]. *)
Definition run_events (evs : list event) (st : store) : store :=
  fold_left (fun st ev => snd (step ev st)) evs st.

(** The user an event comes from: [msg.from_user.id] in both handlers. *)
Definition sender (ev : event) : Z :=
  match ev with
  | Photo uid _ _ _ => uid
  | Analyze uid => uid
  end.

(** Every stored session has at least one entry: a session file is only
    written by an accepted upload. *)
Definition no_empty_session (st : store) : Prop :=
  ∀ uid d, st !! uid = Some d → d ≠ [].

(** Texts of white space only, and texts without white space, as
    [str.strip] sees them. *)
Definition spaces (l : str) : Prop :=
  Forall (fun c => Text.is_space c = true) l.

Definition no_space (l : str) : Prop :=
  Forall (fun c => Text.is_space c = false) l.

(** All the tokens of a session, in the order [analyze_screenshots]
    visits them. *)
Definition tokens (d : session) : list str :=
  dict_values d ≫= numbers.

(** Two sessions with the same labels and the same numbers, whatever
    their raw texts. *)
Definition same_numbers (d d' : session) : Prop :=
  Forall2 (fun a b => a.1 = b.1 ∧ numbers a.2 = numbers b.2) d d'.

(** ** Sums, means and standard deviations in binary64

    In binary64 the result of adding several values depends on the order
    and the grouping of the additions, each of which rounds.
    [float_sum a s]: [s] is obtained from the values [a], each taken
    once, by binary64 additions in some order and grouping; zeros may be
    added.  A mean is such a sum divided by the number of values, and the
    population standard deviation is the square root of the mean of the
    squared deviations from the mean.

    [straight_sum] adds from left to right, starting from zero. *)

Module Stat.

Inductive float_sum : list float → float → Prop :=
| sum_zero : float_sum [] 0%float
| sum_neg_zero : float_sum [] (-0)%float
| sum_one x : float_sum [x] x
| sum_add a b s t :
    float_sum a s → float_sum b t → float_sum (a ++ b) (s + t)%float
| sum_perm a b s : a ≡ₚ b → float_sum a s → float_sum b s.

Definition size (a : list float) : float :=
  of_uint63 (Uint63.of_Z (Z.of_nat (length a))).

Definition is_mean (a : list float) (m : float) : Prop :=
  ∃ s, float_sum a s ∧ m = (s / size a)%float.

Definition is_population_std (a : list float) (v : float) : Prop :=
  ∃ m q, is_mean a m
         ∧ is_mean (map (fun x => (x - m) * (x - m))%float a) q
         ∧ v = PrimFloat.sqrt q.

Definition straight_sum (a : list float) : float :=
  (0 + fold_left PrimFloat.add a (-0))%float.

Definition straight_mean (a : list float) : float :=
  (straight_sum a / size a)%float.

Definition straight_std (a : list float) : float :=
  let m := straight_mean a in
  PrimFloat.sqrt (straight_mean (map (fun x => (x - m) * (x - m))%float a)).

(** The running sums of a block: each is a sum of its own values. *)
Definition lane_sums (ls : list (list float)) (r : list float) : Prop :=
  Forall2 float_sum ls r.

End Stat.

(** ** Binary64 values as the kernel specifies them *)

Module B64.

(** The significand [m] and the exponent [e] are in canonical form: [m]
    has 53 bits, or fewer at the least exponent. *)
Definition canonical (m : positive) (e : Z) : Prop :=
  fexp prec emax (Zpos (digits2_pos m) + e) = e.

(** The value 2.0. *)
Definition TWO : spec_float := S754_finite false 4503599627370496 (-51).

(** The rational number a finite binary64 value stands for. *)
Definition exact (x : float) : Q :=
  match Prim2SF x with
  | S754_finite s m e =>
      (if s then -1 else 1) * inject_Z (Zpos m) * Qpower 2 e
  | _ => 0
  end%Q.

(** The arithmetic mean of the values [xs], computed exactly. *)
Definition exact_mean (xs : list float) : Q :=
  (foldr (fun x acc => exact x + acc) 0 xs
   / inject_Z (Z.of_nat (length xs)))%Q.

End B64.

(** * Properties *)

(** ** Equality of texts *)

Lemma str_eqb_eq (s t : str) : Text.eqb s t = true ↔ s = t.
Proof. unfold Text.eqb. apply bool_decide_eq_true. Qed.

Lemma str_eqb_neq (s t : str) : Text.eqb s t = false ↔ s ≠ t.
Proof. unfold Text.eqb. apply bool_decide_eq_false. Qed.

Lemma str_eqb_refl (s : str) : Text.eqb s s = true.
Proof. by apply str_eqb_eq. Qed.

Lemma str_eqb_spec (s t : str) : reflect (s = t) (Text.eqb s t).
Proof. unfold Text.eqb. apply bool_decide_reflect. Qed.

(** ** Dictionaries *)

Section DictFacts.
Context {V : Type}.
Implicit Types (d : dict V) (k : str) (v : V).

Lemma dict_get_set_eq k v d : dict_get k (dict_set k v d) = Some v.
Proof.
  induction d as [|[k' v'] d IH]; simpl.
  - by rewrite str_eqb_refl.
  - destruct (Text.eqb k' k) eqn:E; simpl; by rewrite E.
Qed.

Lemma dict_get_set_ne k k' v d :
  k' ≠ k → dict_get k' (dict_set k v d) = dict_get k' d.
Proof.
  intros Hne. induction d as [|[k0 v0] d IH]; simpl.
  - destruct (Text.eqb k k') eqn:E; [|done].
    apply str_eqb_eq in E. congruence.
  - destruct (Text.eqb k0 k) eqn:E; simpl; [|by rewrite IH].
    apply str_eqb_eq in E. subst k0.
    destruct (Text.eqb k k') eqn:E'; [|done].
    apply str_eqb_eq in E'. congruence.
Qed.

Lemma dict_get_remove_eq k d : dict_get k (dict_remove k d) = None.
Proof.
  induction d as [|[k' v'] d IH]; simpl; [done|].
  destruct (Text.eqb k' k) eqn:E; simpl; by rewrite ?E.
Qed.

Lemma dict_get_remove_ne k k' d :
  k' ≠ k → dict_get k' (dict_remove k d) = dict_get k' d.
Proof.
  intros Hne. induction d as [|[k0 v0] d IH]; simpl; [done|].
  destruct (Text.eqb k0 k) eqn:E; simpl.
  - apply str_eqb_eq in E. subst k0.
    destruct (Text.eqb k k') eqn:E'; [|done].
    apply str_eqb_eq in E'. congruence.
  - by rewrite IH.
Qed.

Lemma dict_keys_set k v d :
  dict_keys (dict_set k v d)
  = if bool_decide (k ∈ dict_keys d) then dict_keys d else dict_keys d ++ [k].
Proof.
  induction d as [|[k' v'] d IH]; simpl; [done|].
  destruct (Text.eqb k' k) eqn:E; simpl.
  - apply str_eqb_eq in E. subst k'.
    rewrite bool_decide_eq_true_2; [done | by left].
  - apply str_eqb_neq in E. rewrite IH.
    destruct (bool_decide (k ∈ dict_keys d)) eqn:B.
    + apply bool_decide_eq_true in B.
      rewrite bool_decide_eq_true_2; [done | by right].
    + apply bool_decide_eq_false in B.
      rewrite bool_decide_eq_false_2; [done|].
      intros [->|?]%elem_of_cons; done.
Qed.

Lemma dict_set_elem k v d k0 v0 :
  (k0, v0) ∈ dict_set k v d → (k0, v0) ∈ d ∨ (k0 = k ∧ v0 = v).
Proof.
  induction d as [|[k' v'] d IH]; simpl.
  - intros [= -> ->]%list_elem_of_singleton. by right.
  - destruct (Text.eqb k' k) eqn:E.
    + apply str_eqb_eq in E. subst k'.
      intros [[= -> ->]|?]%elem_of_cons; [by right|left; by right].
    + intros [->|?]%elem_of_cons; [left; by left|].
      destruct IH as [?|?]; [done|left; by right|by right].
Qed.

Lemma dict_get_None k d : dict_get k d = None ↔ k ∉ dict_keys d.
Proof.
  induction d as [|[k' v'] d IH]; simpl.
  - split; [intros _; apply not_elem_of_nil|done].
  - destruct (Text.eqb k' k) eqn:E.
    + apply str_eqb_eq in E. subst k'.
      split; [done|]. intros []. by left.
    + apply str_eqb_neq in E. rewrite IH.
      split.
      * intros ? [->|?]%elem_of_cons; done.
      * intros H ?. apply H. by right.
Qed.

End DictFacts.

(** ** The Session Store: [put], [get], [clear] *)

Section StoreFacts.
Implicit Types (st : store) (uid : Z) (L : str) (obs : observation).

Lemma get_put_eq uid L obs st :
  get uid (put uid L obs st) = dict_set L obs (get uid st).
Proof. unfold get at 1, put. by rewrite lookup_insert_eq. Qed.

Lemma get_put_ne uid uid' L obs st :
  uid' ≠ uid → get uid' (put uid L obs st) = get uid' st.
Proof. intros. unfold get, put. by rewrite lookup_insert_ne. Qed.

Lemma get_clear uid st : get uid (clear uid st) = [].
Proof. unfold get, clear. by rewrite lookup_delete_eq. Qed.

Lemma clear_clear uid st : clear uid (clear uid st) = clear uid st.
Proof. unfold clear. apply delete_delete_eq. Qed.

(** An accepted upload is a [put] of what the extractor read. *)
Lemma handle_photo_accepted uid caption text st L :
  Text.upper (Text.strip (default ""%str caption)) = L →
  L ∈ TIMEFRAMES →
  handle_photo uid true caption text st
  = (Parsed L, put uid L (extract_prices_from_text text) st).
Proof.
  intros HL Hin. unfold handle_photo. simpl. rewrite HL.
  by rewrite bool_decide_eq_true_2.
Qed.

(** A rejected caption leaves the store as it is. *)
Lemma handle_photo_rejected uid caption text st :
  Text.upper (Text.strip (default ""%str caption)) ∉ TIMEFRAMES →
  handle_photo uid true caption text st = (ResendWithCaption, st).
Proof.
  intros Hin. unfold handle_photo. simpl.
  by rewrite bool_decide_eq_false_2.
Qed.

End StoreFacts.

(** C7. Last write wins: after [put(U, L, obs1)] and [put(U, L, obs2)],
    whatever the store held before, [get(U)] has exactly [obs2] at [L]
    (numbers and raw text of the second observation, nothing of the
    first), and every other label of [get(U)] reads as before the two
    puts.  The statement holds for every label, the five timeframe
    labels among them. *)
Theorem put_put_get (U : Z) (L : str) (obs1 obs2 : observation) (st : store) :
  dict_get L (get U (put U L obs2 (put U L obs1 st))) = Some obs2
  ∧ ∀ L', L' ≠ L →
      dict_get L' (get U (put U L obs2 (put U L obs1 st))) = dict_get L' (get U st).
Proof.
  rewrite !get_put_eq. split.
  - apply dict_get_set_eq.
  - intros L' Hne. by rewrite !dict_get_set_ne.
Qed.

(** C1. An analyze trigger for a user with a stored session: when the
    Signal Engine returns a recommendation, it is the reply, the session
    is removed, and the next analyze trigger of that user answers that
    there is no data; when the Signal Engine returns an error (no price
    found, or a caught exception), the error is the reply and the store is
    unchanged. *)
Theorem analyze_cmd_lifecycle (uid : Z) (st : store) (parsed : session) :
  st !! uid = Some parsed →
  (∀ r, analyze_screenshots parsed = Ok r →
     analyze_cmd uid st = (Recommendation r, clear uid st)
     ∧ get uid (snd (analyze_cmd uid st)) = []
     ∧ analyze_cmd uid (snd (analyze_cmd uid st))
       = (NoParsedScreenshots, clear uid st))
  ∧ (∀ e, analyze_screenshots parsed = Raised e →
     analyze_cmd uid st = (AnalysisError e, st)).
Proof.
  intros Hst. split.
  - intros r Hr.
    assert (Hcmd : analyze_cmd uid st = (Recommendation r, clear uid st)).
    { unfold analyze_cmd. by rewrite Hst, Hr. }
    rewrite Hcmd. simpl. split; [done|]. split; [apply get_clear|].
    unfold analyze_cmd, clear. by rewrite lookup_delete_eq.
  - intros e He. unfold analyze_cmd. by rewrite Hst, He.
Qed.

(** ** Entry-price selection *)

Section Selection.
Implicit Types (parsed : session) (tf : str) (v : list str).

Lemma get_numbers_set_eq tf obs parsed :
  get_numbers tf (dict_set tf obs parsed) = numbers obs.
Proof. unfold get_numbers. by rewrite dict_get_set_eq. Qed.

Lemma get_numbers_remove tf tf' parsed :
  get_numbers tf' (dict_remove tf parsed)
  = if decide (tf' = tf) then [] else get_numbers tf' parsed.
Proof.
  unfold get_numbers. case_decide as E.
  - subst. by rewrite dict_get_remove_eq.
  - by rewrite dict_get_remove_ne.
Qed.

Lemma first_numbers_None tfs parsed :
  first_numbers tfs parsed = None
  ↔ ∀ tf, tf ∈ tfs → get_numbers tf parsed = [].
Proof.
  induction tfs as [|tf tfs IH]; simpl.
  - split; [|done]. intros _ tf H. by apply elem_of_nil in H.
  - destruct (get_numbers tf parsed) eqn:E.
    + rewrite IH. split.
      * intros H tf' [->|?]%elem_of_cons; auto.
      * intros H tf' ?. apply H. by right.
    + split; [done|]. intros H.
      specialize (H tf (list_elem_of_here _ _)). congruence.
Qed.

Lemma first_numbers_Some pre tf post parsed v :
  (∀ tf', tf' ∈ pre → get_numbers tf' parsed = []) →
  get_numbers tf parsed = v → v ≠ [] →
  first_numbers (pre ++ tf :: post) parsed = Some v.
Proof.
  intros Hpre Hv Hne. induction pre as [|tf0 pre IH]; simpl.
  - rewrite Hv. by destruct v.
  - rewrite (Hpre tf0) by left. apply IH.
    intros tf' ?. apply Hpre. by right.
Qed.

Lemma first_numbers_nonempty tfs parsed v :
  first_numbers tfs parsed = Some v → v ≠ [].
Proof.
  induction tfs as [|tf tfs IH]; simpl; [done|].
  destruct (get_numbers tf parsed) eqn:E; [done|]. by intros [= <-].
Qed.

(** A timeframe whose list of numbers is empty is passed over like a
    timeframe that has no entry. *)
Lemma first_numbers_remove_empty tfs tf parsed :
  get_numbers tf parsed = [] →
  first_numbers tfs (dict_remove tf parsed) = first_numbers tfs parsed.
Proof.
  intros Hempty. induction tfs as [|tf0 tfs IH]; simpl; [done|].
  rewrite get_numbers_remove. case_decide as E.
  - subst. by rewrite Hempty.
  - by rewrite IH.
Qed.

Lemma dict_remove_set {V} (k : str) (x : V) (d : dict V) :
  dict_remove k (dict_set k x d) = dict_remove k d.
Proof.
  induction d as [|[k' x'] d IH]; simpl.
  - by rewrite str_eqb_refl.
  - destruct (Text.eqb k' k) eqn:E; simpl; rewrite E; [done|].
    by rewrite IH.
Qed.

End Selection.

(** ** What the Signal Engine can raise *)

Section Raises.

Lemma to_float_raises s e :
  to_float s = Raised e → e = ValueError s ∧ Py.float s = None.
Proof. unfold to_float. destruct (Py.float s); [done|]. by intros [= <-]. Qed.

Lemma to_float_Ok s x : to_float s = Ok x ↔ Py.float s = Some x.
Proof.
  unfold to_float. destruct (Py.float s); split; intros; simplify_eq; done.
Qed.

Lemma map_float_raises l e :
  map_float l = Raised e → ∃ s, s ∈ l ∧ e = ValueError s.
Proof.
  induction l as [|s l IH]; simpl; [done|].
  destruct (to_float s) as [x|e'] eqn:E; simpl.
  - destruct (map_float l) as [xs|e'']; simpl; [done|].
    intros [= <-]. destruct IH as (s' & ? & ?); [done|].
    exists s'. split; [by right|done].
  - intros [= <-]. apply to_float_raises in E as [-> _].
    exists s. split; [by left|done].
Qed.

Lemma bias_raises parsed e :
  bias parsed = Raised e → ∃ s, e = ValueError s.
Proof.
  unfold bias. destruct (get_numbers "15M" parsed) as [|t m15]; [done|].
  destruct (map_float _) as [xs|e'] eqn:E; simpl.
  - destruct (to_float _) as [x|e''] eqn:E'; simpl; [done|].
    intros [= <-]. apply to_float_raises in E' as [-> _]. eauto.
  - intros [= <-]. apply map_float_raises in E as (s & _ & ->). eauto.
Qed.

Lemma compute_sl_tp_size_raises price atr s balance e :
  compute_sl_tp_size price atr s balance = Raised e → e = ZeroDivisionError.
Proof.
  unfold compute_sl_tp_size. destruct (PrimFloat.eqb _ _); [|done].
  by intros [= <-].
Qed.

(** The shape of a successful analysis. *)
Lemma analyze_screenshots_Ok parsed r :
  analyze_screenshots parsed = Ok r ↔
  ∃ v price s trade,
    first_numbers TIMEFRAMES parsed = Some v
    ∧ Py.float (last_token v) = Some price
    ∧ bias parsed = Ok s
    ∧ compute_sl_tp_size price (volatility parsed) s 10000.0%float = Ok trade
    ∧ r = Recommend s price (risk_SL trade) (risk_TP trade)
                    (risk_lots trade) (risk_RR trade).
Proof.
  unfold analyze_screenshots. split.
  - destruct (first_numbers _ _) as [v|]; [|done].
    destruct (to_float _) as [price|] eqn:Ep; simpl; [|done].
    destruct (bias parsed) as [s|] eqn:Eb; simpl; [|done].
    destruct (compute_sl_tp_size _ _ _ _) as [trade|] eqn:Ec; simpl; [|done].
    intros [= <-]. exists v, price, s, trade.
    apply to_float_Ok in Ep. done.
  - intros (v & price & s & trade & -> & Ep & -> & Ec & ->).
    apply to_float_Ok in Ep. rewrite Ep. simpl. by rewrite Ec.
Qed.

End Raises.

(** C2. The entry price is the number read from the last token of the
    first timeframe, in the order 5M, 15M, 30M, 1H, 4H, whose list of
    numbers is not empty; and the analysis answers "No price found."
    exactly when none of the five timeframes has a token. *)
Theorem entry_price_selection (parsed : session) :
  (analyze_screenshots parsed = Raised NoPriceFound
   ↔ ∀ tf, tf ∈ TIMEFRAMES → get_numbers tf parsed = [])
  ∧ (∀ pre tf post tok,
       TIMEFRAMES = pre ++ tf :: post →
       (∀ tf', tf' ∈ pre → get_numbers tf' parsed = []) →
       last (get_numbers tf parsed) = Some tok →
       (∀ r, analyze_screenshots parsed = Ok r →
             Py.float tok = Some (rec_entry r))
       ∧ (Py.float tok = None →
          analyze_screenshots parsed = Raised (ValueError tok))).
Proof.
  split.
  - rewrite <- first_numbers_None. unfold analyze_screenshots.
    destruct (first_numbers _ _) as [v|]; [|done].
    split; [|done].
    destruct (to_float _) as [price|] eqn:Ep; simpl.
    + destruct (bias parsed) as [s|] eqn:Eb; simpl.
      * destruct (compute_sl_tp_size _ _ _ _) eqn:Ec; simpl; [done|].
        apply compute_sl_tp_size_raises in Ec. by subst.
      * apply bias_raises in Eb as [? ->]. done.
    + apply to_float_raises in Ep as [-> _]. done.
  - intros pre tf post tok Htfs Hpre Hlast.
    assert (Hfirst : first_numbers TIMEFRAMES parsed = Some (get_numbers tf parsed)).
    { rewrite Htfs. apply first_numbers_Some; [done..|].
      intros E. by rewrite E in Hlast. }
    assert (Htok : last_token (get_numbers tf parsed) = tok).
    { unfold last_token. by rewrite Hlast. }
    split.
    + intros r (v & price & s & trade & Hv & Hp & _ & _ & ->)%analyze_screenshots_Ok.
      simpl. congruence.
    + intros Hnone. unfold analyze_screenshots, to_float.
      by rewrite Hfirst, Htok, Hnone.
Qed.

(** The scenario of the specification: with ["1.23"] at 5M and ["9.99"] at
    1H the entry is the number of "1.23". *)
Lemma entry_price_selection_witness :
  analyze_screenshots session_5M_1H
  = Ok (Recommend LONG 1.23 (-5.34) 27.51 0.15 4.0)
  ∧ Py.float "1.23" = Some 1.23%float.
Proof.
  assert (Hr : analyze_screenshots session_5M_1H
               = Ok (Recommend LONG 1.23 (-5.34) 27.51 0.15 4.0)).
  { vm_compute. reflexivity. }
  split; [exact Hr|].
  destruct (entry_price_selection session_5M_1H) as [_ Hsel].
  destruct (Hsel [] "5M"%str ["15M"; "30M"; "1H"; "4H"]%str "1.23"%str)
    as [Hentry _].
  - reflexivity.
  - intros tf' []%elem_of_nil.
  - reflexivity.
  - exact (Hentry _ Hr).
Defined.

(** C10. An accepted upload whose text has no price-shaped token stores
    an observation with an empty list of numbers at its timeframe,
    replacing whatever was stored there; and the entry-price selection
    over the resulting session is the one over the session without that
    timeframe. *)
Theorem empty_upload_occupies_slot (uid : Z) (caption : option str)
    (text : str) (st : store) (L : str) :
  Text.upper (Text.strip (default ""%str caption)) = L →
  L ∈ TIMEFRAMES →
  numbers (extract_prices_from_text text) = [] →
  let st' := snd (handle_photo uid true caption text st) in
  dict_get L (get uid st') = Some (Obs [] text)
  ∧ dict_remove L (get uid st') = dict_remove L (get uid st)
  ∧ first_numbers TIMEFRAMES (get uid st')
    = first_numbers TIMEFRAMES (dict_remove L (get uid st')).
Proof.
  intros HL Hin Hnum st'. subst st'.
  rewrite (handle_photo_accepted _ _ _ _ L) by done. cbn [snd].
  rewrite get_put_eq.
  assert (Hobs : extract_prices_from_text text = Obs [] text).
  { unfold extract_prices_from_text in *. simpl in *. by rewrite Hnum. }
  rewrite Hobs. split; [apply dict_get_set_eq|].
  split; [apply dict_remove_set|].
  symmetry. apply first_numbers_remove_empty. by rewrite get_numbers_set_eq.
Qed.

Lemma analyze_cmd_lifecycle_witness :
  store_one_price !! 7 = Some (get 7 store_one_price)
  ∧ (∀ r, analyze_screenshots (get 7 store_one_price) = Ok r →
       analyze_cmd 7 store_one_price = (Recommendation r, clear 7 store_one_price)
       ∧ get 7 (snd (analyze_cmd 7 store_one_price)) = []
       ∧ analyze_cmd 7 (snd (analyze_cmd 7 store_one_price))
         = (NoParsedScreenshots, clear 7 store_one_price))
  ∧ (∀ e, analyze_screenshots (get 7 store_one_price) = Raised e →
       analyze_cmd 7 store_one_price = (AnalysisError e, store_one_price)).
Proof.
  split; [vm_compute; reflexivity|].
  apply (analyze_cmd_lifecycle 7 store_one_price (get 7 store_one_price)).
  vm_compute; reflexivity.
Defined.

Lemma empty_upload_occupies_slot_witness :
  let st := upload 7 "1H" "2031.40 2033.05" ∅ in
  let st' := snd (handle_photo 7 true (Some "5M"%str) "chart loading" st) in
  dict_get "5M" (get 7 st') = Some (Obs [] "chart loading")
  ∧ dict_remove "5M" (get 7 st') = dict_remove "5M" (get 7 st)
  ∧ first_numbers TIMEFRAMES (get 7 st')
    = first_numbers TIMEFRAMES (dict_remove "5M" (get 7 st')).
Proof.
  apply (empty_upload_occupies_slot 7 (Some "5M"%str) "chart loading"
           (upload 7 "1H" "2031.40 2033.05" ∅) "5M").
  - vm_compute. reflexivity.
  - unfold TIMEFRAMES. set_solver.
  - vm_compute. reflexivity.
Defined.

(** ** Binary64 values *)

Section FloatFacts.

(** Two floats that the IEEE comparison tells apart are different. *)
Lemma float_neq (x y : float) :
  PrimFloat.eqb x x = true → PrimFloat.eqb x y = false → x ≠ y.
Proof. intros Hx Hy ->. congruence. Qed.

End FloatFacts.

(** ** Risk parameters *)

(** The scenario of the specification on [compute_sl_tp_size]. *)
Example risk_math_scenario :
  compute_sl_tp_size 2000.0 1.0 LONG 10000.0
  = Ok (Risk 1998.5 2006.0 0.67 4.0).
Proof. vm_compute. reflexivity. Qed.

Example risk_math_short_mirror :
  compute_sl_tp_size 2000.0 1.0 SHORT 10000.0
  = Ok (Risk 2001.5 1994.0 0.67 4.0).
Proof. vm_compute. reflexivity. Qed.

(** The same scenario as an analysis: one 5M screenshot reading 2000.0
    gives entry 2000.0, volatility proxy 1.0 and side LONG. *)
Example risk_math_analysis :
  analyze_screenshots (one_upload "5M" "2000.0")
  = Ok (Recommend LONG 2000.0 1998.5 2006.0 0.67 4.0)
  ∧ volatility (one_upload "5M" "2000.0") = 1.0%float.
Proof. split; vm_compute; reflexivity. Qed.

(** C3, as stated, fails: the reported stop-loss is [e - 1.5 * v] rounded
    to three decimals, not [e - 1.5 * v] itself.  With the prices
    2000.0000 and 2000.0002 on one 5M screenshot the entry is 2000.0002,
    the volatility proxy is 0.0001, the side is LONG, and the stop-loss
    reported is 2000.0 while [e - 1.5 * v] is 2000.00005. *)
Lemma stop_loss_is_not_exact :
  ∃ r, analyze_screenshots (one_upload "5M" "2000.0000 2000.0002") = Ok r
       ∧ rec_side r = LONG
       ∧ rec_SL r = 2000.0%float
       ∧ rec_SL r
         ≠ (rec_entry r - 1.5 * volatility (one_upload "5M" "2000.0000 2000.0002"))%float.
Proof.
  eexists. split; [vm_compute; reflexivity|].
  split; [reflexivity|]. split; [reflexivity|].
  apply float_neq; vm_compute; reflexivity.
Qed.

(** C3, amended.  For every successful analysis with entry price [e],
    volatility proxy [v] and side [s]: with stop-loss distance [1.5 * v]
    and take-profit distance [4 * (1.5 * v)], the reported stop-loss is
    [e - 1.5 * v] rounded to three decimals and the reported take-profit
    is [e + 4 * (1.5 * v)] rounded to three decimals for LONG, the signs
    inverted for SHORT; the position size is
    [max(0.01, round(10000 * 0.01 / (1.5 * v * 100), 2))]; and the
    risk-reward ratio is 4.0.  For [e = 2000.0], [v = 1.0] and LONG the
    stop-loss is 1998.5, the take-profit 2006.0 and the position size
    0.67. *)
Theorem risk_parameters :
  (∀ (parsed : session) (r : recommendation),
     analyze_screenshots parsed = Ok r →
     let e := rec_entry r in
     let v := volatility parsed in
     let sl_distance := (1.5 * v)%float in
     let tp_distance := (4.0 * sl_distance)%float in
     rec_SL r = Py.round (match rec_side r with
                          | LONG => e - sl_distance
                          | SHORT => e + sl_distance
                          end)%float 3
     ∧ rec_TP r = Py.round (match rec_side r with
                            | LONG => e + tp_distance
                            | SHORT => e - tp_distance
                            end)%float 3
     ∧ rec_lots r
       = Py.max 0.01%float
           (Py.round (10000.0 * 0.01 / (sl_distance * 100))%float 2)
     ∧ rec_RR r = 4.0%float)
  ∧ compute_sl_tp_size 2000.0 1.0 LONG 10000.0
    = Ok (Risk 1998.5 2006.0 0.67 4.0).
Proof.
  split; [|vm_compute; reflexivity].
  intros parsed r
    (v & price & s & trade & _ & _ & _ & Hc & ->)%analyze_screenshots_Ok.
  simpl. unfold compute_sl_tp_size in Hc.
  destruct (PrimFloat.eqb _ _); [done|].
  injection Hc as <-. simpl. by destruct s.
Qed.

Lemma risk_parameters_witness :
  let parsed := one_upload "5M" "2000.0" in
  let r := Recommend LONG 2000.0 1998.5 2006.0 0.67 4.0 in
  analyze_screenshots parsed = Ok r
  ∧ rec_SL r = Py.round (2000.0 - 1.5 * volatility parsed)%float 3
  ∧ rec_TP r = Py.round (2000.0 + 4.0 * (1.5 * volatility parsed))%float 3
  ∧ rec_lots r
    = Py.max 0.01%float
        (Py.round (10000.0 * 0.01 / (1.5 * volatility parsed * 100))%float 2)
  ∧ rec_RR r = 4.0%float.
Proof.
  split; [vm_compute; reflexivity|].
  apply (proj1 risk_parameters (one_upload "5M" "2000.0")
           (Recommend LONG 2000.0 1998.5 2006.0 0.67 4.0)).
  vm_compute; reflexivity.
Defined.

(** C4, as stated, fails for the entry price: it is reported as read from
    the token, and a token may carry four decimals.  A 5M screenshot
    reading 1234.5678 gives the entry 1234.5678, which rounding to three
    decimals would turn into 1234.568. *)
Lemma entry_is_not_rounded :
  ∃ r, analyze_screenshots (one_upload "5M" "1234.5678") = Ok r
       ∧ rec_entry r = 1234.5678%float
       ∧ Py.round (rec_entry r) 3 = 1234.568%float
       ∧ rec_entry r ≠ Py.round (rec_entry r) 3.
Proof.
  eexists. split; [vm_compute; reflexivity|].
  split; [reflexivity|]. split; [vm_compute; reflexivity|].
  apply float_neq; vm_compute; reflexivity.
Qed.

(** C4, amended.  In every successful recommendation the stop-loss and
    the take-profit are results of rounding to three decimals and the
    position size is a result of rounding to two decimals; the entry
    price is the number read from the selected token, not rounded. *)
Theorem recommendation_rounding (parsed : session) (r : recommendation) :
  analyze_screenshots parsed = Ok r →
  rounded_to 3 (rec_SL r)
  ∧ rounded_to 3 (rec_TP r)
  ∧ rounded_to 2 (rec_lots r)
  ∧ ∃ v, first_numbers TIMEFRAMES parsed = Some v
         ∧ Py.float (last_token v) = Some (rec_entry r).
Proof.
  intros (v & price & s & trade & Hv & Hp & _ & Hc & ->)%analyze_screenshots_Ok.
  simpl. unfold compute_sl_tp_size in Hc.
  destruct (PrimFloat.eqb _ _); [done|].
  injection Hc as <-. simpl.
  split; [by eexists|]. split; [by eexists|]. split; [|by exists v].
  unfold Py.max. destruct (PrimFloat.ltb _ _); [by eexists|].
  exists 0.01%float. vm_compute. reflexivity.
Qed.

Lemma recommendation_rounding_witness :
  let parsed := one_upload "5M" "1234.5678" in
  let r := Recommend LONG 1234.5678 1233.068 1240.568 0.67 4.0 in
  analyze_screenshots parsed = Ok r
  ∧ rounded_to 3 (rec_SL r)
  ∧ rounded_to 3 (rec_TP r)
  ∧ rounded_to 2 (rec_lots r)
  ∧ ∃ v, first_numbers TIMEFRAMES parsed = Some v
         ∧ Py.float (last_token v) = Some (rec_entry r).
Proof.
  split; [vm_compute; reflexivity|].
  apply (recommendation_rounding (one_upload "5M" "1234.5678")
           (Recommend LONG 1234.5678 1233.068 1240.568 0.67 4.0)).
  vm_compute; reflexivity.
Defined.

(** ** Pairwise summation *)

Module NpFacts.
Import Np.

Lemma pairwise_sum_eq fuel a :
  pairwise_sum fuel a
  = if (length a <? 8)%nat then add_from (-0)%float a
    else if (length a <=? 128)%nat then block_sum a
    else
      match fuel with
      | O => block_sum a
      | S fuel' =>
          let n2 := (length a / 2 - (length a / 2) mod 8)%nat in
          (pairwise_sum fuel' (take n2 a) + pairwise_sum fuel' (drop n2 a))%float
      end.
Proof. by destruct fuel. Qed.

(** Any two amounts of fuel that cover the length give the same sum. *)
Lemma pairwise_sum_fuel_irrelevant fuel1 fuel2 a :
  (length a ≤ fuel1)%nat → (length a ≤ fuel2)%nat →
  pairwise_sum fuel1 a = pairwise_sum fuel2 a.
Proof.
  revert fuel2 a. induction fuel1 as [|fuel1 IH]; intros fuel2 a H1 H2.
  - rewrite !pairwise_sum_eq.
    destruct (length a <? 8)%nat eqn:E; [done|]. apply Nat.ltb_ge in E. lia.
  - rewrite (pairwise_sum_eq (S fuel1)), (pairwise_sum_eq fuel2).
    destruct (length a <? 8)%nat eqn:E8; [done|].
    destruct (length a <=? 128)%nat eqn:E128; [done|].
    apply Nat.leb_gt in E128.
    destruct fuel2 as [|fuel2]; [lia|]. cbv zeta.
    assert (Hhalf : (64 ≤ length a / 2)%nat).
    { apply Nat.div_le_lower_bound; lia. }
    assert (Hhalf' : (length a / 2 < length a)%nat).
    { apply Nat.div_lt; lia. }
    pose proof (Nat.mod_upper_bound (length a / 2) 8 ltac:(lia)) as Hmod.
    f_equal; apply IH; rewrite ?length_take, ?length_drop; lia.
Qed.

(** The fuel [sum] supplies is enough: more changes nothing. *)
Lemma sum_fuel fuel a :
  (length a ≤ fuel)%nat → sum a = (0 + pairwise_sum fuel a)%float.
Proof.
  intros H. unfold sum. f_equal. by apply pairwise_sum_fuel_irrelevant.
Qed.

(** Fewer than eight elements are added from left to right. *)
Lemma sum_short a :
  (length a < 8)%nat → sum a = (0 + fold_left PrimFloat.add a (-0))%float.
Proof.
  intros H. unfold sum. rewrite pairwise_sum_eq.
  apply Nat.ltb_lt in H. by rewrite H.
Qed.

End NpFacts.

(** ** Sums of floats *)

Module StatFacts.
Import Np Stat.

Section Sums.
Implicit Types (a b l : list float) (s t init : float) (r : list float)
  (ls : list (list float)).

Lemma float_sum_snoc l s x : float_sum l s → float_sum (l ++ [x]) (s + x).
Proof. intros H. apply sum_add; [done|apply sum_one]. Qed.

Lemma add_from_sum l init a :
  float_sum l init → float_sum (l ++ a) (add_from init a).
Proof.
  unfold add_from. revert l init.
  induction a as [|x a IH]; intros l init H; simpl.
  - by rewrite app_nil_r.
  - rewrite (cons_middle x l a), app_assoc. apply IH.
    by apply float_sum_snoc.
Qed.

Lemma lane_sums_step ls r xs :
  lane_sums ls r → length xs = length r →
  lane_sums (zip_with (fun l x => l ++ [x]) ls xs) (zip_with PrimFloat.add r xs)
  ∧ concat (zip_with (fun l x => l ++ [x]) ls xs) ≡ₚ concat ls ++ xs.
Proof.
  intros H. revert xs.
  induction H as [|l s ls r Hl _ IH]; intros xs Hlen.
  - destruct xs; [|done]. split; [constructor|done].
  - destruct xs as [|x xs]; [done|]. simpl in Hlen.
    destruct (IH xs) as [IH1 IH2]; [lia|]. split.
    + simpl. constructor; [by apply float_sum_snoc|done].
    + simpl. rewrite IH2. rewrite <- !app_assoc.
      apply Permutation_app_head. simpl.
      rewrite (Permutation_app_comm (concat ls) (x :: xs)). simpl.
      apply perm_skip. apply Permutation_app_comm.
Qed.

Lemma lanes_sum ls r a blocks :
  lane_sums ls r → length r = 8%nat → (8 * blocks ≤ length a)%nat →
  ∃ ls', lane_sums ls' (lanes r a blocks)
         ∧ concat ls' ≡ₚ concat ls ++ take (8 * blocks) a.
Proof.
  revert ls r a. induction blocks as [|blocks IH]; intros ls r a H Hr Ha.
  - exists ls. split; [done|]. by rewrite app_nil_r.
  - simpl lanes.
    destruct (lane_sums_step ls r (take 8 a) H) as [H1 H2].
    { rewrite length_take. lia. }
    destruct (IH _ _ (drop 8 a) H1) as (ls' & H3 & H4).
    { rewrite length_zip_with, length_take. lia. }
    { rewrite length_drop. lia. }
    exists ls'. split; [done|]. rewrite H4, H2, <- app_assoc.
    apply Permutation_app_head.
    replace (8 * S blocks)%nat with (8 + 8 * blocks)%nat by lia.
    by rewrite <- take_take_drop.
Qed.

Lemma lanes_length r a blocks :
  length r = 8%nat → (8 * blocks ≤ length a)%nat →
  length (lanes r a blocks) = 8%nat.
Proof.
  revert r a. induction blocks as [|blocks IH]; intros r a Hr Ha; [done|].
  simpl. apply IH.
  - rewrite length_zip_with, length_take. lia.
  - rewrite length_drop. lia.
Qed.

Lemma block_sum_sum a : (8 ≤ length a)%nat → float_sum a (block_sum a).
Proof.
  intros Hlen. unfold block_sum.
  set (n := length a).
  assert (Hdiv : (1 ≤ n / 8)%nat).
  { apply Nat.div_le_lower_bound; lia. }
  assert (Hmul : (8 * (n / 8) ≤ n)%nat).
  { apply Nat.Div0.mul_div_le. }
  destruct (lanes_sum ((fun x => [x]) <$> take 8 a) (take 8 a) (drop 8 a)
              (n / 8 - 1)) as (ls' & H1 & H2).
  { apply Forall2_fmap_l, Forall_Forall2_diag, Forall_forall.
    intros x _. apply sum_one. }
  { rewrite length_take. lia. }
  { rewrite length_drop. fold n. lia. }
  assert (Hcat : concat ls' ≡ₚ take (8 * (n / 8)) a).
  { rewrite H2.
    replace (concat ((fun x => [x]) <$> take 8 a)) with (take 8 a).
    - replace (8 * (n / 8))%nat with (8 + 8 * (n / 8 - 1))%nat by lia.
      by rewrite <- take_take_drop.
    - generalize (take 8 a). intros l.
      induction l as [|x l IH]; [done|]. simpl. f_equal. exact IH. }
  pose proof (lanes_length (take 8 a) (drop 8 a) (n / 8 - 1)) as Hl.
  rewrite length_take, length_drop in Hl. fold n in Hl.
  specialize (Hl ltac:(lia) ltac:(lia)).
  rewrite <- (take_drop (8 * (n / 8)) a) at 1.
  apply add_from_sum.
  destruct (lanes (take 8 a) (drop 8 a) (n / 8 - 1))
    as [|r0 [|r1 [|r2 [|r3 [|r4 [|r5 [|r6 [|r7 [|r8 rs]]]]]]]]];
    try discriminate Hl.
  unfold lane_sums in H1.
  apply Forall2_cons_inv_r in H1 as (l0 & ls0 & Hs0 & H1 & ->).
  apply Forall2_cons_inv_r in H1 as (l1 & ls1 & Hs1 & H1 & ->).
  apply Forall2_cons_inv_r in H1 as (l2 & ls2 & Hs2 & H1 & ->).
  apply Forall2_cons_inv_r in H1 as (l3 & ls3 & Hs3 & H1 & ->).
  apply Forall2_cons_inv_r in H1 as (l4 & ls4 & Hs4 & H1 & ->).
  apply Forall2_cons_inv_r in H1 as (l5 & ls5 & Hs5 & H1 & ->).
  apply Forall2_cons_inv_r in H1 as (l6 & ls6 & Hs6 & H1 & ->).
  apply Forall2_cons_inv_r in H1 as (l7 & ls7 & Hs7 & H1 & ->).
  apply Forall2_nil_inv_r in H1 as ->.
  apply (sum_perm (((l0 ++ l1) ++ (l2 ++ l3)) ++ ((l4 ++ l5) ++ (l6 ++ l7)))).
  - rewrite <- Hcat. simpl. by rewrite app_nil_r, <- !app_assoc.
  - by repeat apply sum_add.
Qed.

Lemma pairwise_sum_sum fuel a : float_sum a (pairwise_sum fuel a).
Proof.
  revert a. induction fuel as [|fuel IH]; intros a;
    rewrite NpFacts.pairwise_sum_eq.
  - destruct (length a <? 8)%nat eqn:E8.
    { apply (add_from_sum [] (-0)%float a), sum_neg_zero. }
    apply Nat.ltb_ge in E8.
    destruct (length a <=? 128)%nat; by apply block_sum_sum.
  - destruct (length a <? 8)%nat eqn:E8.
    { apply (add_from_sum [] (-0)%float a), sum_neg_zero. }
    apply Nat.ltb_ge in E8.
    destruct (length a <=? 128)%nat; [by apply block_sum_sum|].
    cbv zeta. rewrite <- (take_drop (length a / 2 - (length a / 2) mod 8) a)
      at 1.
    apply sum_add; apply IH.
Qed.

(** What [np.add.reduce] returns is a floating-point sum of the values. *)
Lemma sum_float_sum a : float_sum a (Np.sum a).
Proof.
  unfold Np.sum. apply (sum_add [] a); [apply sum_zero|].
  apply pairwise_sum_sum.
Qed.

Lemma count_size a : Np.count a = size a.
Proof. reflexivity. Qed.

Lemma mean_is_mean a : is_mean a (Np.mean a).
Proof. exists (Np.sum a). split; [apply sum_float_sum|done]. Qed.

Lemma std_is_population_std a : is_population_std a (Np.std a).
Proof.
  exists (Np.mean a), (Np.var a). split; [apply mean_is_mean|]. split; [|done].
  unfold Np.var. cbv zeta. rewrite map_map.
  exists (Np.sum (map (fun x => (x - Np.mean a) * (x - Np.mean a))%float a)).
  split; [apply sum_float_sum|]. unfold size. by rewrite length_map.
Qed.

Lemma sum_straight a : (length a < 8)%nat → Np.sum a = straight_sum a.
Proof. apply NpFacts.sum_short. Qed.

Lemma mean_straight a : (length a < 8)%nat → Np.mean a = straight_mean a.
Proof. intros H. unfold Np.mean, straight_mean. by rewrite sum_straight. Qed.

Lemma std_straight a : (length a < 8)%nat → Np.std a = straight_std a.
Proof.
  intros H. unfold Np.std, Np.var, straight_std. cbv zeta.
  rewrite map_map, mean_straight by done.
  f_equal. rewrite sum_straight by (by rewrite length_map).
  unfold straight_mean at 3, Np.count, size, Py.float_of_Z.
  by rewrite length_map.
Qed.

Lemma straight_sum_sum a : float_sum a (straight_sum a).
Proof.
  unfold straight_sum. apply (sum_add [] a); [apply sum_zero|].
  apply (add_from_sum [] (-0)%float a), sum_neg_zero.
Qed.

End Sums.
End StatFacts.

(** ** The volatility proxy *)

Section Volatility.
Implicit Types (parsed : session) (acc : list float).

Lemma collect_tokens (tokens : list str) acc :
  fold_left (fun acc n => match Py.float n with
                          | Some x => acc ++ [x]
                          | None => acc
                          end) tokens acc
  = acc ++ parsed_values tokens.
Proof.
  revert acc. induction tokens as [|n tokens IH]; intros acc; simpl.
  - by rewrite app_nil_r.
  - rewrite IH. unfold parsed_values. simpl.
    destruct (Py.float n); [|done]. by rewrite <- app_assoc.
Qed.

Lemma collect_observations (ds : list observation) acc :
  fold_left (fun acc d =>
               fold_left (fun acc n => match Py.float n with
                                       | Some x => acc ++ [x]
                                       | None => acc
                                       end) (numbers d) acc) ds acc
  = acc ++ (ds ≫= fun d => parsed_values (numbers d)).
Proof.
  revert acc. induction ds as [|d ds IH]; intros acc; simpl.
  - by rewrite app_nil_r.
  - rewrite IH, collect_tokens. by rewrite <- app_assoc.
Qed.

(** The loop over [parsed.values()] gathers, observation after
    observation, the tokens that [float] accepts. *)
Lemma all_nums_values parsed :
  all_nums parsed = dict_values parsed ≫= fun d => parsed_values (numbers d).
Proof. unfold all_nums. by rewrite collect_observations. Qed.

Lemma bind_nil_fun {A B} (l : list A) (h : A → list B) :
  (∀ x, x ∈ l → h x = []) → l ≫= h = [].
Proof.
  induction l as [|x l IH]; intros Hh; [done|].
  change ((x :: l) ≫= h) with (h x ++ (l ≫= h)).
  rewrite Hh by left. rewrite IH; [done|].
  intros y ?. apply Hh. by right.
Qed.

Lemma bind_ext_in {A B} (l : list A) (h h' : A → list B) :
  (∀ x, x ∈ l → h x = h' x) → l ≫= h = l ≫= h'.
Proof.
  induction l as [|x l IH]; intros Hh; [done|].
  change ((x :: l) ≫= h = h' x ++ (l ≫= h')).
  change ((x :: l) ≫= h) with (h x ++ (l ≫= h)).
  rewrite Hh by left. rewrite IH; [done|].
  intros y ?. apply Hh. by right.
Qed.

(** Giving one key of a duplicate-free list a value of its own moves that
    value to the front, up to the order of the elements. *)
Lemma bind_override {B} (l : list str) (k : str) (a : list B)
    (h : str → list B) :
  NoDup l → k ∈ l → h k = [] →
  l ≫= (fun x => if decide (x = k) then a else h x) ≡ₚ a ++ (l ≫= h).
Proof.
  intros Hnd Hin Hk. induction l as [|x l IH]; [by apply elem_of_nil in Hin|].
  apply NoDup_cons in Hnd as [Hx Hnd].
  change ((x :: l) ≫= h) with (h x ++ (l ≫= h)).
  change ((x :: l) ≫= (fun x => if decide (x = k) then a else h x))
    with ((if decide (x = k) then a else h x)
          ++ (l ≫= (fun x => if decide (x = k) then a else h x))).
  destruct (decide (x = k)) as [->|Hne].
  - rewrite Hk. simpl. apply Permutation_app_head.
    rewrite (bind_ext_in l _ h); [done|].
    intros y Hy. case_decide; [congruence|done].
  - apply elem_of_cons in Hin as [?|Hin]; [congruence|].
    rewrite IH by done. apply Permutation_app_swap_app.
Qed.

(** With one observation per timeframe label, the values gathered are,
    up to their order, the accepted tokens of the five timeframes. *)
Lemma all_nums_timeframes parsed :
  NoDup (dict_keys parsed) →
  (∀ k, k ∈ dict_keys parsed → k ∈ TIMEFRAMES) →
  all_nums parsed
  ≡ₚ TIMEFRAMES ≫= fun tf => parsed_values (get_numbers tf parsed).
Proof.
  rewrite all_nums_values.
  assert (Htfs : NoDup TIMEFRAMES).
  { apply (bool_decide_unpack (NoDup TIMEFRAMES)). vm_compute. exact I. }
  revert Htfs. generalize TIMEFRAMES as tfs. intros tfs Htfs.
  induction parsed as [|[k o] parsed IH]; intros Hnd Hsub.
  - simpl. rewrite bind_nil_fun; done.
  - simpl in Hnd. apply NoDup_cons in Hnd as [Hk Hnd].
    change (dict_values ((k, o) :: parsed) ≫= _)
      with (parsed_values (numbers o)
            ++ (dict_values parsed ≫= fun d => parsed_values (numbers d))).
    rewrite IH; [|done|intros k' ?; apply Hsub; by right].
    rewrite <- (bind_override tfs k); [|done|apply Hsub; by left|].
    + erewrite bind_ext_in; [done|]. intros tf _. unfold get_numbers. simpl.
      case_decide as E.
      * subst. by rewrite str_eqb_refl.
      * destruct (Text.eqb k tf) eqn:E'; [|done].
        apply str_eqb_eq in E'. congruence.
    + unfold get_numbers. apply dict_get_None in Hk. by rewrite Hk.
Qed.

End Volatility.

(** C5. The volatility proxy is computed from the values gathered over
    every observation of the snapshot, tokens that [float] rejects being
    left out; with one observation per timeframe label these are, up to
    order, the accepted tokens of the timeframes present.  With at least
    two values the proxy is their population standard deviation: the
    square root of the mean of the squared deviations from the mean,
    every sum being a binary64 sum of the values concerned; with fewer
    than eight values the sums run from left to right.  With fewer than
    two values the proxy is exactly 1.0. *)
Theorem volatility_proxy (parsed : session) :
  let values := dict_values parsed ≫= fun d => parsed_values (numbers d) in
  all_nums parsed = values
  ∧ (NoDup (dict_keys parsed) →
     (∀ k, k ∈ dict_keys parsed → k ∈ TIMEFRAMES) →
     values ≡ₚ TIMEFRAMES ≫= fun tf => parsed_values (get_numbers tf parsed))
  ∧ ((2 ≤ length values)%nat →
     Stat.is_population_std values (volatility parsed))
  ∧ ((2 ≤ length values < 8)%nat →
     volatility parsed = Stat.straight_std values)
  ∧ ((length values < 2)%nat → volatility parsed = 1.0%float).
Proof.
  intros values. pose proof (all_nums_values parsed) as Hall.
  fold values in Hall. split; [done|]. split.
  - intros Hnd Hsub. rewrite <- Hall. by apply all_nums_timeframes.
  - unfold volatility. rewrite Hall. split; [|split].
    + intros Hlen. apply Nat.leb_le in Hlen. rewrite Hlen.
      apply StatFacts.std_is_population_std.
    + intros [Hlen Hlt]. apply Nat.leb_le in Hlen. rewrite Hlen.
      by apply StatFacts.std_straight.
    + intros Hlen. apply Nat.leb_gt in Hlen. by rewrite Hlen.
Qed.

(** On a session with a rejected token: the three numbers of two
    timeframes are kept, ["n/a"] is dropped. *)
Example volatility_skips_rejected :
  all_nums [("1H", Obs ["2031.40"; "n/a"] ""); ("5M", Obs ["2034.55"; "2035.10"] "")]%str
  = [2031.40; 2034.55; 2035.10]%float.
Proof. vm_compute. reflexivity. Qed.

Lemma volatility_proxy_witness :
  all_nums session_1H_5M = [2031.40; 2034.55; 2035.10]%float
  ∧ all_nums session_1H_5M
    ≡ₚ TIMEFRAMES ≫= (fun tf => parsed_values (get_numbers tf session_1H_5M))
  ∧ Stat.is_population_std (all_nums session_1H_5M)
      (volatility session_1H_5M)
  ∧ volatility session_1H_5M = Stat.straight_std (all_nums session_1H_5M)
  ∧ volatility session_1H_5M = 1.6300988381757626%float.
Proof.
  destruct (volatility_proxy session_1H_5M) as (Hall & Hperm & Hstd & Hstr & _).
  split; [vm_compute; reflexivity|]. rewrite Hall. split; [|split; [|split]].
  - apply Hperm.
    + apply (bool_decide_unpack (NoDup (dict_keys session_1H_5M))).
      vm_compute. exact I.
    + intros k Hk. apply (bool_decide_unpack (k ∈ TIMEFRAMES)).
      vm_compute in Hk.
      apply elem_of_cons in Hk as [->|Hk]; [vm_compute; exact I|].
      apply elem_of_cons in Hk as [->|Hk]; [vm_compute; exact I|].
      inversion Hk.
  - apply Hstd. rewrite <- Hall. vm_compute. lia.
  - apply Hstr. rewrite <- Hall. vm_compute. lia.
  - vm_compute. reflexivity.
Defined.

(** ** The price pattern *)

Module ReFacts.
Import Text Re PriceSpec.
#[local] Abbreviation digits := (PriceSpec.digits PriceSpec.decimal_digit).
#[local] Abbreviation price_shaped := (PriceSpec.price_shaped PriceSpec.decimal_digit).
#[local] Abbreviation match_at := (PriceSpec.match_at PriceSpec.decimal_digit).
#[local] Abbreviation no_match_at := (PriceSpec.no_match_at PriceSpec.decimal_digit).
#[local] Abbreviation scan := (PriceSpec.scan PriceSpec.decimal_digit).
#[local] Open Scope nat_scope.

Section Engine.
Implicit Types (a : atom) (s t : str) (hi lo : nat).

Lemma run_le_hi a hi s : (run a hi s ≤ hi)%nat.
Proof.
  revert s. induction hi as [|hi IH]; intros [|c s]; simpl; try lia.
  destruct (atom_matches a c); [|lia]. specialize (IH s). lia.
Qed.

Lemma run_take a hi s :
  Forall (fun c => atom_matches a c = true) (take (run a hi s) s).
Proof.
  revert s. induction hi as [|hi IH]; intros [|c s]; simpl; try constructor.
  destruct (atom_matches a c) eqn:E; simpl; [|constructor].
  constructor; [done|apply IH].
Qed.

Lemma run_le_length a hi s : (run a hi s ≤ length s)%nat.
Proof.
  revert s. induction hi as [|hi IH]; intros [|c s]; simpl; try lia.
  destruct (atom_matches a c); [|lia]. specialize (IH s). lia.
Qed.

(** A prefix of matching characters no longer than [hi] is within the run. *)
Lemma run_app a hi (p : str) s :
  Forall (fun c => atom_matches a c = true) p → (length p ≤ hi)%nat →
  (length p ≤ run a hi (p ++ s))%nat.
Proof.
  intros Hp. revert hi. induction Hp as [|c p Hc _ IH]; intros hi Hlen; simpl.
  - lia.
  - destruct hi as [|hi]; simpl in *; [lia|]. rewrite Hc.
    specialize (IH hi). lia.
Qed.

Lemma backtrack_Some (rest : str → option nat) s lo extra L :
  backtrack rest s lo extra = Some L →
  ∃ k len, (lo ≤ k ≤ lo + extra)%nat ∧ rest (drop k s) = Some len
           ∧ L = (k + len)%nat.
Proof.
  induction extra as [|extra IH]; simpl.
  - destruct (rest (drop (lo + 0) s)) as [len|] eqn:E; [|done].
    intros [= <-]. exists (lo + 0)%nat, len. split; [lia|done].
  - destruct (rest (drop (lo + S extra) s)) as [len|] eqn:E.
    + intros [= <-]. exists (lo + S extra)%nat, len. split; [lia|done].
    + intros (k & len & ? & ? & ?)%IH. exists k, len. split; [lia|done].
Qed.

Lemma backtrack_None (rest : str → option nat) s lo extra :
  backtrack rest s lo extra = None →
  ∀ k, (lo ≤ k ≤ lo + extra)%nat → rest (drop k s) = None.
Proof.
  induction extra as [|extra IH]; simpl.
  - destruct (rest (drop (lo + 0) s)) eqn:E; [done|].
    intros _ k Hk. by replace k with (lo + 0)%nat by lia.
  - destruct (rest (drop (lo + S extra) s)) eqn:E; [done|].
    intros H k Hk. destruct (decide (k = lo + S extra)%nat) as [->|]; [done|].
    apply IH; [done|lia].
Qed.

End Engine.

Section Price.
Implicit Types (s t u m : str).

Lemma match_here_cons it r s :
  match_here (it :: r) s
  = if (run (rep_atom it) (rep_hi it) s <? rep_lo it)%nat then None
    else backtrack (match_here r) s (rep_lo it)
           (run (rep_atom it) (rep_hi it) s - rep_lo it).
Proof. reflexivity. Qed.

Lemma backtrack_first (rest : str → option nat) s lo extra len :
  rest (drop (lo + extra) s) = Some len →
  backtrack rest s lo extra = Some (lo + extra + len)%nat.
Proof. intros H. destruct extra; simpl; by rewrite H. Qed.

Lemma backtrack_0 (rest : str → option nat) s lo :
  backtrack rest s lo 0 = (fun len => (lo + len)%nat) <$> rest (drop lo s).
Proof. simpl. rewrite Nat.add_0_r. by destruct (rest (drop lo s)). Qed.

Lemma match_frac u :
  match_here FRAC u
  = if (run Digit 4 u <? 1)%nat then None else Some (run Digit 4 u).
Proof.
  unfold FRAC. rewrite match_here_cons. cbn [rep_atom rep_hi rep_lo].
  destruct (run Digit 4 u <? 1)%nat eqn:E; [done|].
  apply Nat.ltb_ge in E.
  rewrite (backtrack_first _ _ _ _ 0%nat); [f_equal; lia|done].
Qed.

Lemma run_nil a hi : run a hi [] = 0%nat.
Proof. by destruct hi. Qed.

Lemma run_one a c u :
  run a 1 (c :: u) = if atom_matches a c then 1%nat else 0%nat.
Proof. simpl. destruct (atom_matches a c); [|done]. by destruct u. Qed.

Lemma match_dot_frac t :
  match_here DOT_FRAC t
  = match t with
    | c :: u =>
        if (POINT =? c)%N then
          if (run Digit 4 u <? 1)%nat then None else Some (S (run Digit 4 u))
        else None
    | [] => None
    end.
Proof.
  unfold DOT_FRAC. rewrite match_here_cons. cbn [rep_atom rep_hi rep_lo].
  destruct t as [|c u]; [by rewrite run_nil|].
  rewrite run_one. cbn [atom_matches]. destruct ((POINT =? c)%N); [|done].
  change (1 <? 1)%nat with false. cbn iota. change (1 - 1)%nat with 0%nat.
  rewrite backtrack_0. change (drop 1 (c :: u)) with u.
  rewrite match_frac. destruct (run Digit 4 u <? 1)%nat; reflexivity.
Qed.

Lemma digit_not_point c : is_digit c = true → c ≠ POINT.
Proof. intros H ->. vm_compute in H. discriminate. Qed.

(** A run of digits cannot reach beyond a point. *)
Lemma digits_before_point (ds t ip w : str) :
  digits ds → ds ++ t = ip ++ POINT :: w → length ds ≤ length ip.
Proof.
  intros Hds Heq. destruct (decide (length ds ≤ length ip)) as [|Hlt]; [done|].
  assert (Hlook : (ds ++ t) !! length ip = Some POINT).
  { rewrite Heq. by apply list_lookup_middle. }
  rewrite lookup_app_l in Hlook by lia.
  eapply Forall_lookup_1 in Hlook; [|exact Hds].
  by apply digit_not_point in Hlook.
Qed.

Lemma price_shaped_length m : price_shaped m → 5 ≤ length m.
Proof.
  intros (ip & fp & -> & _ & ? & _ & ?). rewrite length_app. simpl. lia.
Qed.

Lemma match_price_Some s L :
  match_here PRICE s = Some L → match_at s (take L s) ∧ 5 ≤ L.
Proof.
  unfold PRICE. rewrite match_here_cons. cbn [rep_atom rep_hi rep_lo].
  pose proof (run_take Digit 5 s) as Hrun.
  destruct (run Digit 5 s <? 3) eqn:E; [done|]. apply Nat.ltb_ge in E.
  intros (k & len & Hk & Hrest & ->)%backtrack_Some.
  rewrite match_dot_frac in Hrest.
  destruct (drop k s) as [|c u] eqn:Hdrop; [done|].
  destruct ((POINT =? c)%N) eqn:Hc; [|done].
  apply N.eqb_eq in Hc. subst c.
  pose proof (run_take Digit 4 u) as Hfrac.
  pose proof (run_le_hi Digit 4 u) as Hf4.
  pose proof (run_le_length Digit 4 u) as Hfu.
  destruct (run Digit 4 u <? 1) eqn:Ef; [done|]. apply Nat.ltb_ge in Ef.
  assert (len = S (run Digit 4 u)) as -> by congruence. clear Hrest.
  set (f := run Digit 4 u) in *.
  assert (Hks : k < length s).
  { destruct (decide (k < length s)); [done|].
    rewrite drop_ge in Hdrop by lia. done. }
  assert (Hs : s = take k s ++ POINT :: u).
  { by rewrite <- Hdrop, take_drop. }
  assert (Hip : digits (take k s)).
  { replace (take k s) with (take k (take (run Digit 5 s) s)).
    - by apply Forall_take.
    - rewrite take_take. f_equal. lia. }
  assert (Htake : take (k + S f) s = take k s ++ POINT :: take f u).
  { rewrite Hs at 1. rewrite take_app_add' by (rewrite length_take; lia). done. }
  pose proof (run_le_hi Digit 5 s) as H5.
  split; [|lia]. split; [apply prefix_take|]. split.
  - exists (take k s), (take f u). rewrite length_take, length_take.
    split; [done|]. split; [done|]. split; [lia|]. split; [done|lia].
  - intros m' [rest' Hm'] (ip' & fp' & -> & Hip' & Hlen' & Hfp' & Hflen').
    rewrite <- app_assoc in Hm'. simpl in Hm'.
    assert (Hlen : length ip' = k).
    { apply Nat.le_antisymm.
      - rewrite Hs in Hm'. symmetry in Hm'.
        apply digits_before_point in Hm'; [|done].
        rewrite length_take in Hm'. lia.
      - rewrite Hs in Hm'.
        apply digits_before_point in Hm'; [|done].
        rewrite length_take in Hm'. lia. }
    rewrite Hs in Hm'.
    apply app_inj_1 in Hm' as [_ [= Hu]]; [|rewrite length_take; lia].
    rewrite Htake, !length_app. simpl. rewrite !length_take.
    assert (length fp' ≤ f); [|lia].
    unfold f. rewrite Hu. apply run_app; [done|lia].
Qed.

Lemma match_price_None s : match_here PRICE s = None → no_match_at s.
Proof.
  unfold PRICE. rewrite match_here_cons. cbn [rep_atom rep_hi rep_lo].
  intros H m [rest' Hs] (ip & fp & -> & Hip & Hlen & Hfp & Hflen).
  rewrite <- app_assoc in Hs. simpl in Hs.
  pose proof (run_take Digit 5 s) as Hrun.
  pose proof (run_le_length Digit 5 s) as Hrl.
  assert (Hn : run Digit 5 s = length ip).
  { apply Nat.le_antisymm.
    - rewrite <- (take_drop (run Digit 5 s) s) in Hs at 1.
      apply digits_before_point in Hs; [|done].
      rewrite length_take in Hs. lia.
    - rewrite Hs. apply run_app; [done|lia]. }
  rewrite Hn in H.
  destruct (length ip <? 3) eqn:E; [apply Nat.ltb_lt in E; lia|].
  eapply backtrack_None in H; [|split; [|reflexivity]; lia].
  replace (3 + (length ip - 3)) with (length ip) in H by lia.
  rewrite Hs, drop_app_length, match_dot_frac in H.
  change ((POINT =? POINT)%N) with true in H. cbn iota in H.
  pose proof (run_app Digit 4 fp rest' Hfp) as Hr.
  destruct (run Digit 4 (fp ++ rest') <? 1) eqn:E'; [|done].
  apply Nat.ltb_lt in E'. lia.
Qed.

End Price.

Section Scan.
Implicit Types (s pre m rest : str) (ms : list str).

Lemma findall_from_cons fuel r c s :
  findall_from (S fuel) r (c :: s)
  = match match_here r (c :: s) with
    | Some (S n) => take (S n) (c :: s) :: findall_from fuel r (drop n s)
    | _ => findall_from fuel r s
    end.
Proof. reflexivity. Qed.

Lemma no_match_at_short s : length s < 5 → no_match_at s.
Proof.
  intros Hlen m Hm%prefix_length Hshape%price_shaped_length. lia.
Qed.

Lemma scan_nil : scan [] [].
Proof.
  apply scan_end. intros i. rewrite drop_nil.
  apply no_match_at_short. simpl. lia.
Qed.

(** A position that starts no match can be put in front of a scan. *)
Lemma scan_skip c s ms : no_match_at (c :: s) → scan s ms → scan (c :: s) ms.
Proof.
  intros Hc Hscan. destruct Hscan as [s Hno | pre m rest ms Hpre Hm Hscan].
  - apply scan_end. intros [|i]; [done|apply Hno].
  - apply (scan_match (c :: pre)); [|done..].
    intros [|i] Hi; [done|]. apply Hpre. simpl in Hi. lia.
Qed.

(** The scan of [findall] meets the specification; [fuel] as long as the
    text is enough for it. *)
Lemma findall_from_scan fuel s :
  length s ≤ fuel → scan s (findall_from fuel PRICE s).
Proof.
  revert s. induction fuel as [|fuel IH]; intros [|c s] Hlen;
    try apply scan_nil; simpl in Hlen; [lia|].
  rewrite findall_from_cons.
  destruct (match_here PRICE (c :: s)) as [[|n]|] eqn:E.
  - apply match_price_Some in E as [_ ?]. lia.
  - apply match_price_Some in E as [Hm _].
    assert (Hsplit : c :: s = take (S n) (c :: s) ++ drop n s).
    { by rewrite <- (take_drop (S n) (c :: s)) at 1. }
    assert (Hscan : scan ([] ++ take (S n) (c :: s) ++ drop n s)
                      (take (S n) (c :: s)
                       :: findall_from fuel PRICE (drop n s))).
    { apply scan_match.
      - intros i Hi. simpl in Hi. lia.
      - by rewrite <- Hsplit.
      - apply IH. rewrite length_drop. lia. }
    cbn [app] in Hscan. by rewrite <- Hsplit in Hscan.
  - apply scan_skip; [by apply match_price_None|]. apply IH. lia.
Qed.

Lemma findall_scan s : scan s (findall PRICE s).
Proof. by apply findall_from_scan. Qed.

Lemma match_at_no_match s m : match_at s m → ¬ no_match_at s.
Proof. intros (Hpre & Hshape & _) Hno. by apply (Hno m). Qed.

(** The specification determines the list of matches. *)
Lemma scan_functional s ms1 ms2 : scan s ms1 → scan s ms2 → ms1 = ms2.
Proof.
  intros H1. revert ms2.
  induction H1 as [s Hno | pre m rest ms Hpre Hm Hscan IH]; intros ms2 H2.
  - inversion H2 as [|pre' m' rest' ms' Hpre' Hm' Hscan' Heq]; [done|]. subst.
    specialize (Hno (length pre')). rewrite drop_app_length in Hno.
    by apply match_at_no_match in Hm'.
  - inversion H2 as [s' Hno Heq|pre' m' rest' ms' Hpre' Hm' Hscan' Heq]; subst.
    + specialize (Hno (length pre)). rewrite drop_app_length in Hno.
      by apply match_at_no_match in Hm.
    + assert (Hlen : length pre' = length pre).
      { destruct (Nat.lt_trichotomy (length pre') (length pre)) as [Hlt|[?|Hlt]];
          [|done|].
        - specialize (Hpre _ Hlt). rewrite <- Heq, drop_app_length in Hpre.
          by apply match_at_no_match in Hm'.
        - specialize (Hpre' _ Hlt). rewrite Heq, drop_app_length in Hpre'.
          by apply match_at_no_match in Hm. }
      apply app_inj_1 in Heq as [-> Heq]; [|done].
      destruct Hm as (Hp & Hs & Hmax), Hm' as (Hp' & Hs' & Hmax').
      assert (Hlen' : length m' = length m).
      { apply Nat.le_antisymm.
        - apply Hmax; [|done]. rewrite <- Heq. by apply prefix_app_r.
        - apply Hmax'; [|done]. rewrite Heq. by apply prefix_app_r. }
      apply app_inj_1 in Heq as [-> ->]; [|done].
      f_equal. by apply IH.
Qed.

(** The matches are price-shaped and lie in the text one after the other,
    separated by the texts in [gaps]. *)
Lemma scan_layout s ms :
  scan s ms →
  Forall price_shaped ms
  ∧ ∃ gaps tail, length gaps = length ms
                 ∧ s = mjoin (zip_with app gaps ms) ++ tail.
Proof.
  induction 1 as [s Hno | pre m rest ms Hpre Hm Hscan [IH1 (gaps & tail & Hlen & ->)]].
  - split; [done|]. by exists [], s.
  - split; [constructor; [apply Hm|done]|].
    exists (pre :: gaps), tail. split; [simpl; by rewrite Hlen|].
    simpl. by rewrite <- !app_assoc.
Qed.

End Scan.

(** From one class of digits to another that agrees with it on the
    characters of the text. *)
Section Classes.
Implicit Types (D E : N → Prop) (s m : str) (ms : list str).

Lemma digits_class D E s :
  Forall (fun c => D c → E c) s → PriceSpec.digits D s → PriceSpec.digits E s.
Proof.
  unfold PriceSpec.digits. rewrite !Forall_forall. intros H Hd c Hc.
  by apply H, Hd.
Qed.

Lemma price_shaped_class D E m :
  Forall (fun c => D c → E c) m →
  PriceSpec.price_shaped D m → PriceSpec.price_shaped E m.
Proof.
  intros H (ip & fp & -> & Hip & Hlen & Hfp & Hflen).
  apply Forall_app in H as [Hi H]. apply Forall_cons in H as [_ Hf].
  exists ip, fp. split; [done|].
  split; [by apply (digits_class D)|]. split; [done|].
  split; [by apply (digits_class D)|done].
Qed.

Lemma no_match_class D E s :
  Forall (fun c => E c → D c) s →
  PriceSpec.no_match_at D s → PriceSpec.no_match_at E s.
Proof.
  intros H Hno m [k ->] Hm. apply (Hno m); [by exists k|].
  apply Forall_app in H as [H _]. by apply (price_shaped_class E).
Qed.

Lemma match_class D E s m :
  Forall (fun c => D c ↔ E c) s →
  PriceSpec.match_at D s m → PriceSpec.match_at E s m.
Proof.
  intros H (Hpre & Hm & Hmax).
  assert (Hsub : ∀ m', m' `prefix_of` s → Forall (fun c => D c ↔ E c) m').
  { intros m' [k ->]. by apply Forall_app in H as [? _]. }
  split; [done|]. split.
  - apply (price_shaped_class D); [|done].
    eapply Forall_impl; [by apply Hsub|]. by intros c [? _].
  - intros m' Hpre' Hm'. apply Hmax; [done|].
    apply (price_shaped_class E); [|done].
    eapply Forall_impl; [by apply Hsub|]. by intros c [_ ?].
Qed.

Lemma scan_class D E s ms :
  Forall (fun c => D c ↔ E c) s →
  PriceSpec.scan D s ms → PriceSpec.scan E s ms.
Proof.
  intros H Hscan. induction Hscan as [s Hno|pre m rest ms Hpre Hm Hscan IH].
  - apply scan_end. intros i. apply (no_match_class D); [|done].
    apply Forall_drop. eapply Forall_impl; [exact H|]. by intros c [_ ?].
  - assert (H' := H). apply Forall_app in H' as [_ H'].
    apply scan_match.
    + intros i Hi. apply (no_match_class D); [|by apply Hpre].
      apply Forall_drop. eapply Forall_impl; [exact H|]. by intros c [_ ?].
    + by apply (match_class D).
    + apply IH. by apply Forall_app in H' as [_ ?].
Qed.

Lemma scan_shaped D s ms :
  PriceSpec.scan D s ms → Forall (PriceSpec.price_shaped D) ms.
Proof.
  induction 1 as [s Hno|pre m rest ms Hpre Hm Hscan IH]; [done|].
  constructor; [apply Hm|done].
Qed.

Lemma plain_decimal c : PriceSpec.plain_digit c → PriceSpec.decimal_digit c.
Proof.
  unfold PriceSpec.plain_digit, PriceSpec.decimal_digit. intros H.
  assert (Hc : (c = 48 ∨ c = 49 ∨ c = 50 ∨ c = 51 ∨ c = 52 ∨ c = 53
                ∨ c = 54 ∨ c = 55 ∨ c = 56 ∨ c = 57)%N) by lia.
  by destruct Hc as [->|[->|[->|[->|[->|[->|[->|[->|[->| ->]]]]]]]]].
Qed.

(** On a text whose decimal digits are all among 0 to 9, the scans for
    the two classes of digits are the same. *)
Lemma scan_plain s ms :
  Forall (fun c => PriceSpec.decimal_digit c → PriceSpec.plain_digit c) s →
  PriceSpec.scan PriceSpec.plain_digit s ms ↔ scan s ms.
Proof.
  intros H. split; apply scan_class.
  - eapply Forall_impl; [exact H|]. intros c Hc. split; [apply plain_decimal|done].
  - eapply Forall_impl; [exact H|]. intros c Hc. split; [done|apply plain_decimal].
Qed.

End Classes.

End ReFacts.

(** C8, as stated with the digits 0 to 9, fails: [\d] in a [str] pattern
    matches the decimal digits of every script.  The text 123.4 written
    in Arabic-Indic digits holds no digit 0 to 9, so that its scan for
    three to five digits 0 to 9, a point and one to four digits 0 to 9
    is empty; the extractor returns the whole text as a token. *)
Lemma arabic_indic_price_extracted :
  numbers (extract_prices_from_text ARABIC_INDIC_PRICE) = [ARABIC_INDIC_PRICE]
  ∧ PriceSpec.scan PriceSpec.plain_digit ARABIC_INDIC_PRICE []
  ∧ ¬ PriceSpec.scan PriceSpec.plain_digit ARABIC_INDIC_PRICE
        (numbers (extract_prices_from_text ARABIC_INDIC_PRICE)).
Proof.
  assert (Hnone : ∀ m, PriceSpec.price_shaped PriceSpec.plain_digit m →
                       ∀ c, head m = Some c → c ∉ ARABIC_INDIC_PRICE).
  { intros m (ip & fp & -> & Hip & Hlen & _) c Hc.
    destruct ip as [|c' ip]; [simpl in Hlen; lia|].
    simpl in Hc. injection Hc as ->. apply Forall_cons in Hip as [Hc _].
    unfold PriceSpec.plain_digit in Hc. unfold ARABIC_INDIC_PRICE.
    rewrite !elem_of_cons, elem_of_nil. lia. }
  split; [vm_compute; reflexivity|]. split.
  - apply PriceSpec.scan_end. intros i m [k Hk] Hm.
    destruct m as [|c m].
    { destruct Hm as (ip & fp & Heq & _). by destruct ip. }
    apply (Hnone (c :: m) Hm c); [done|].
    apply (subseteq_drop i ARABIC_INDIC_PRICE). rewrite Hk. left.
  - change (numbers (extract_prices_from_text ARABIC_INDIC_PRICE))
      with [ARABIC_INDIC_PRICE].
    intros Hscan%ReFacts.scan_shaped. apply Forall_cons in Hscan as [Hm _].
    apply (Hnone ARABIC_INDIC_PRICE Hm 1633%N); [done|]. left.
Qed.

(** C8, amended.  For every text, the extractor returns the text itself
    as [raw] and, as [numbers], the scan of the text for the price
    pattern, a digit being a decimal digit of any script: the longest
    price-shaped text (three to five digits, a point, one to four digits)
    at the leftmost position that starts one, then the same for what
    follows it.  The matches are price-shaped and lie in the text in the
    order returned, without overlap; the list is the only one that meets
    this description; the function is total; and the empty text has no
    match.  On a text whose decimal digits are all among 0 to 9 this is
    the scan for the pattern read with the digits 0 to 9. *)
Theorem extract_prices_spec (text : str) :
  let obs := extract_prices_from_text text in
  let matches := numbers obs in
  raw obs = text
  ∧ PriceSpec.scan PriceSpec.decimal_digit text matches
  ∧ (∀ ms, PriceSpec.scan PriceSpec.decimal_digit text ms → ms = matches)
  ∧ Forall (PriceSpec.price_shaped PriceSpec.decimal_digit) matches
  ∧ (∃ gaps tail, length gaps = length matches
                  ∧ text = mjoin (zip_with app gaps matches) ++ tail)
  ∧ (Forall (fun c => PriceSpec.decimal_digit c → PriceSpec.plain_digit c)
       text →
     PriceSpec.scan PriceSpec.plain_digit text matches
     ∧ (∀ ms, PriceSpec.scan PriceSpec.plain_digit text ms → ms = matches)
     ∧ Forall (PriceSpec.price_shaped PriceSpec.plain_digit) matches)
  ∧ extract_prices_from_text "" = Obs [] "".
Proof.
  intros obs matches.
  pose proof (ReFacts.findall_scan text) as Hscan.
  change (Re.findall Re.PRICE text) with matches in Hscan.
  split; [done|]. split; [done|]. split.
  { intros ms Hms. by apply (ReFacts.scan_functional text). }
  split; [by apply ReFacts.scan_layout in Hscan as [? _]|].
  split; [by apply ReFacts.scan_layout in Hscan as [_ ?]|].
  split; [|reflexivity].
  intros Hplain.
  assert (Hp : PriceSpec.scan PriceSpec.plain_digit text matches).
  { by apply ReFacts.scan_plain. }
  split; [done|]. split.
  - intros ms Hms%ReFacts.scan_plain; [|done].
    by apply (ReFacts.scan_functional text).
  - by apply ReFacts.scan_shaped in Hp.
Qed.

Lemma extract_prices_spec_witness :
  Forall (fun c => PriceSpec.decimal_digit c → PriceSpec.plain_digit c)
    "XAUUSD 2034.55 hi 1234567.89"
  ∧ numbers (extract_prices_from_text "XAUUSD 2034.55 hi 1234567.89")
    = ["2034.55"; "34567.89"]
  ∧ PriceSpec.scan PriceSpec.plain_digit "XAUUSD 2034.55 hi 1234567.89"
      (numbers (extract_prices_from_text "XAUUSD 2034.55 hi 1234567.89"))
  ∧ (∀ ms, PriceSpec.scan PriceSpec.plain_digit
             "XAUUSD 2034.55 hi 1234567.89" ms →
           ms = numbers (extract_prices_from_text
                           "XAUUSD 2034.55 hi 1234567.89"))
  ∧ Forall (PriceSpec.price_shaped PriceSpec.plain_digit)
      (numbers (extract_prices_from_text "XAUUSD 2034.55 hi 1234567.89")).
Proof.
  assert (H : Forall (fun c => PriceSpec.decimal_digit c
                               → PriceSpec.plain_digit c)
                "XAUUSD 2034.55 hi 1234567.89").
  { apply Forall_forall. intros c Hc Hd.
    unfold PriceSpec.plain_digit. unfold PriceSpec.decimal_digit in Hd.
    repeat (apply elem_of_cons in Hc as [->|Hc];
            [first [lia|by vm_compute in Hd]|]).
    by apply elem_of_nil in Hc. }
  split; [exact H|]. split; [vm_compute; reflexivity|].
  apply (extract_prices_spec "XAUUSD 2034.55 hi 1234567.89"). exact H.
Defined.

(** A text with a price, a number with too many digits before the point,
    one with too few, and one with too many after the point. *)
Example extract_prices_example :
  extract_prices_from_text "XAUUSD 2034.55 hi 1234567.89 lo 12.5 x 123.45678"
  = Obs ["2034.55"; "34567.89"; "123.4567"]
        "XAUUSD 2034.55 hi 1234567.89 lo 12.5 x 123.45678".
Proof. reflexivity. Qed.

(** ** Price-shaped tokens are numbers *)

Module FloatFacts.
Import Text Py PriceSpec.
#[local] Abbreviation digits := (PriceSpec.digits PriceSpec.decimal_digit).
#[local] Abbreviation price_shaped := (PriceSpec.price_shaped PriceSpec.decimal_digit).
#[local] Abbreviation match_at := (PriceSpec.match_at PriceSpec.decimal_digit).
#[local] Abbreviation no_match_at := (PriceSpec.no_match_at PriceSpec.decimal_digit).
#[local] Abbreviation scan := (PriceSpec.scan PriceSpec.decimal_digit).

Section Classes.
Implicit Types (c lo hi : N).

Lemma in_range_elem lo hi c : in_range lo hi c = true → c ∈ range lo hi.
Proof.
  unfold in_range. rewrite andb_true_iff, !N.leb_le. intros [Hlo Hhi].
  apply list_elem_of_fmap. exists (N.to_nat c). split; [by rewrite N2Nat.id|].
  apply elem_of_seq. lia.
Qed.

Lemma is_digit_elem c : is_digit c = true → c ∈ DIGITS.
Proof.
  unfold is_digit, decimal.
  destruct (find _ ZEROS) as [z|] eqn:E; [|done]. intros _.
  apply find_some in E as [Hz Hc].
  apply list_elem_of_bind. exists z. split; [by apply in_range_elem|].
  by apply list_elem_of_In.
Qed.

Lemma is_space_elem c : is_space c = true → c ∈ WHITE.
Proof.
  unfold is_space. intros ([lo hi] & Hr & Hc)%existsb_exists.
  apply list_elem_of_bind. exists (lo, hi). split; [by apply in_range_elem|].
  by apply list_elem_of_In.
Qed.

(** What holds of every listed digit holds of every digit. *)
Lemma digits_all (P : N → Prop) :
  Forall P DIGITS → ∀ c, is_digit c = true → P c.
Proof.
  intros H c Hc%is_digit_elem. by eapply Forall_forall in H.
Qed.

Lemma spaces_all (P : N → Prop) :
  Forall P WHITE → ∀ c, is_space c = true → P c.
Proof.
  intros H c Hc%is_space_elem. by eapply Forall_forall in H.
Qed.

Lemma digit_no_space c : is_digit c = true → is_space c = false.
Proof.
  revert c. apply (digits_all (fun c => is_space c = false)).
  apply (bool_decide_unpack (Forall (fun c => is_space c = false) DIGITS)).
  vm_compute. exact I.
Qed.

Lemma digit_decimal c :
  is_digit c = true → decimal c = Some (ascii_digit c - 48)%N.
Proof.
  unfold is_digit, ascii_digit. destruct (decimal c) as [d|]; [|done].
  intros _. simpl. f_equal. lia.
Qed.

(** An ASCII digit is the ASCII digit of its own value. *)
Lemma digit_below_128 c :
  is_digit c = true → (c <? 128)%N = true →
  (c <? 127)%N = true ∧ ascii_digit c = c.
Proof.
  revert c. apply (digits_all (fun c => (c <? 128)%N = true →
                                 (c <? 127)%N = true ∧ ascii_digit c = c)).
  apply (bool_decide_unpack (Forall _ DIGITS)). vm_compute. exact I.
Qed.

Lemma ascii_digit_digit c :
  is_digit c = true →
  is_ascii_digit (ascii_digit c) = true
  ∧ Z.of_N (ascii_digit c) - 48 = digit_value c.
Proof.
  revert c. apply (digits_all (fun c =>
    is_ascii_digit (ascii_digit c) = true
    ∧ Z.of_N (ascii_digit c) - 48 = digit_value c)).
  apply (bool_decide_unpack (Forall _ DIGITS)). vm_compute. exact I.
Qed.

Lemma ascii_digit_class c :
  is_ascii_digit c = true →
  is_c_space c = false ∧ lower_char c = c
  ∧ c ≠ UNDERSCORE ∧ c ≠ 45%N ∧ c ≠ 43%N ∧ c ≠ POINT
  ∧ c ≠ 105%N ∧ c ≠ 110%N.
Proof.
  intros H%in_range_elem. revert c H. apply Forall_forall.
  apply (bool_decide_unpack (Forall _ (range 48 57))). vm_compute. exact I.
Qed.

End Classes.

Section Parse.
Implicit Types (l ip fp ds : str) (c : N).

(** What [float] makes of a text of digits and what follows it. *)
Lemma transform_digits ds l :
  digits ds → transform (ds ++ l) = map ascii_digit ds ++ transform l.
Proof.
  induction 1 as [|c ds Hc _ IH]; [done|]. simpl. rewrite IH.
  destruct (c <? 127)%N eqn:E.
  - f_equal. symmetry. apply digit_below_128; [done|].
    apply N.ltb_lt in E. apply N.ltb_lt. lia.
  - rewrite (digit_no_space c Hc), (digit_decimal c Hc). f_equal.
    destruct (ascii_digit_digit c Hc) as [Ha _].
    unfold is_ascii_digit, in_range in Ha.
    apply andb_true_iff in Ha as [Ha _]. apply N.leb_le in Ha. lia.
Qed.

Lemma to_ascii_price ip fp :
  digits ip → digits fp →
  to_ascii (ip ++ POINT :: fp)
  = map ascii_digit ip ++ POINT :: map ascii_digit fp.
Proof.
  intros Hip Hfp. unfold to_ascii.
  destruct (forallb _ (ip ++ POINT :: fp)) eqn:E.
  - rewrite forallb_app in E. apply andb_true_iff in E as [Ei Ef].
    simpl in Ef. rewrite forallb_forall in Ei, Ef.
    assert (Hid : ∀ ds, digits ds → (∀ c, In c ds → (c <? 128)%N = true) →
                        map ascii_digit ds = ds).
    { intros ds Hds Hlt. rewrite <- (map_id ds) at 2. apply map_ext_in.
      intros c Hin. apply digit_below_128; [|by apply Hlt].
      eapply Forall_forall in Hds; [done|]. by apply list_elem_of_In. }
    by rewrite !Hid.
  - rewrite transform_digits by done. simpl.
    rewrite <- (app_nil_r fp) at 1. rewrite transform_digits by done.
    simpl. by rewrite app_nil_r.
Qed.

Lemma ascii_value_digits acc ds :
  digits ds → ascii_value acc (map ascii_digit ds) = digits_value acc ds.
Proof.
  intros H. revert acc. induction H as [|c ds Hc _ IH]; intros acc; [done|].
  unfold ascii_value, digits_value in *. simpl.
  destruct (ascii_digit_digit c Hc) as [_ ->]. apply IH.
Qed.

Lemma ascii_digits_map ds :
  digits ds → Forall (fun c => is_ascii_digit c = true) (map ascii_digit ds).
Proof.
  intros H. apply Forall_map. eapply Forall_impl; [exact H|].
  intros c Hc. simpl. by apply ascii_digit_digit.
Qed.

Lemma lstrip_digit c l :
  is_ascii_digit c = true → lstrip is_c_space (c :: l) = c :: l.
Proof. intros (Hs & _)%ascii_digit_class. simpl. by rewrite Hs. Qed.

Lemma rstrip_digit l c :
  is_ascii_digit c = true → rstrip is_c_space (l ++ [c]) = l ++ [c].
Proof.
  intros Hc. unfold rstrip. rewrite rev_unit, lstrip_digit by done.
  simpl. by rewrite rev_involutive.
Qed.

Lemma drop_underscores_none prev l :
  prev ≠ Some UNDERSCORE → Forall (fun c => c ≠ UNDERSCORE) l →
  drop_underscores prev l = Some l.
Proof.
  intros Hprev Hl. revert prev Hprev.
  induction Hl as [|c l Hc _ IH]; intros prev Hprev; simpl.
  - by rewrite bool_decide_eq_false_2.
  - destruct (c =? UNDERSCORE)%N eqn:E; [by apply N.eqb_eq in E|].
    rewrite (bool_decide_eq_false_2 _ Hprev). simpl.
    rewrite IH; [done|]. by intros [= ->].
Qed.

Lemma read_digits_app acc count ds l :
  Forall (fun c => is_ascii_digit c = true) ds →
  match l with c :: _ => is_ascii_digit c = false | [] => True end →
  read_digits acc count (ds ++ l)
  = (ascii_value acc ds, count + Z.of_nat (length ds), l).
Proof.
  intros Hds Hl. revert acc count.
  induction Hds as [|c ds Hc _ IH]; intros acc count; simpl.
  - rewrite Z.add_0_r. destruct l as [|c l]; simpl; [done|by rewrite Hl].
  - rewrite Hc, IH. unfold ascii_value. simpl. do 2 f_equal. lia.
Qed.

Lemma read_digits_all acc count ds :
  Forall (fun c => is_ascii_digit c = true) ds →
  read_digits acc count ds
  = (ascii_value acc ds, count + Z.of_nat (length ds), []).
Proof.
  intros Hds. rewrite <- (app_nil_r ds) at 1. by apply read_digits_app.
Qed.

(** An ASCII price-shaped text is read as its digits, scaled by the
    number of digits behind the point. *)
Lemma float_of_ascii_price ip fp :
  Forall (fun c => is_ascii_digit c = true) ip → ip ≠ [] →
  Forall (fun c => is_ascii_digit c = true) fp → fp ≠ [] →
  float_of_chars (ip ++ POINT :: fp)
  = Some (float_of_decimal false (ascii_value (ascii_value 0 ip) fp)
                           (- Z.of_nat (length fp))).
Proof.
  intros Hip Hipne Hfp Hfpne. unfold float_of_chars.
  destruct ip as [|c ip]; [done|]. apply Forall_cons in Hip as [Hc Hip].
  destruct (ascii_digit_class c Hc)
    as (_ & Hlow & _ & Hminus & Hplus & _ & Hi & Hn).
  assert (Hlast : ∃ l' c', (c :: ip) ++ POINT :: fp = l' ++ [c']
                           ∧ is_ascii_digit c' = true).
  { destruct (exists_last Hfpne) as (fp' & c' & ->).
    exists ((c :: ip) ++ POINT :: fp'), c'. split.
    - by rewrite <- app_assoc.
    - apply Forall_app in Hfp as [_ Hc']. exact (Forall_inv Hc'). }
  destruct Hlast as (l' & c' & Hl' & Hc').
  assert (Hstrip : rstrip is_c_space
                     (lstrip is_c_space ((c :: ip) ++ POINT :: fp))
                   = (c :: ip) ++ POINT :: fp).
  { change ((c :: ip) ++ POINT :: fp) with (c :: (ip ++ POINT :: fp)) at 1.
    rewrite lstrip_digit by done.
    change (c :: ip ++ POINT :: fp) with ((c :: ip) ++ POINT :: fp).
    by rewrite Hl', rstrip_digit. }
  rewrite Hstrip.
  rewrite drop_underscores_none; [|done|].
  2:{ apply Forall_app. split; [|apply Forall_cons; split; [done|]].
      - apply Forall_cons. split; [by apply ascii_digit_class|].
        eapply Forall_impl; [exact Hip|]. intros ? ?.
        by apply ascii_digit_class.
      - eapply Forall_impl; [exact Hfp|]. intros ? ?.
        by apply ascii_digit_class. }
  cbn [mbind option_bind].
  assert (Hsign : read_sign ((c :: ip) ++ POINT :: fp)
                  = (false, (c :: ip) ++ POINT :: fp)).
  { simpl. apply N.eqb_neq in Hminus, Hplus. by rewrite Hminus, Hplus. }
  rewrite Hsign.
  assert (Hword : ∀ w : str, w = "inf" ∨ w = "infinity" ∨ w = "nan" →
            map lower_char ((c :: ip) ++ POINT :: fp) ≠ w).
  { intros w Hw. simpl. rewrite Hlow.
    destruct Hw as [->|[->| ->]]; intros [= ?]; done. }
  rewrite !bool_decide_eq_false_2 by (apply Hword; auto). simpl orb. cbn iota.
  unfold parse_number.
  rewrite (read_digits_app 0 0 (c :: ip)); [|by apply Forall_cons|done].
  rewrite (read_digits_all _ _ fp) by done.
  assert (Hcount : (0 + Z.of_nat (length (c :: ip))
                    + (0 + Z.of_nat (length (c :: ip)) + Z.of_nat (length fp)
                       - (0 + Z.of_nat (length (c :: ip)))) =? 0) = false).
  { apply Z.eqb_neq. simpl length. lia. }
  rewrite Hcount. simpl read_exponent. cbn iota. do 2 f_equal. lia.
Qed.

(** A price-shaped text, in the digits of any script, is read as its
    digits, scaled by the number of digits behind the point. *)
Lemma float_of_price ip fp :
  digits ip → ip ≠ [] → digits fp → fp ≠ [] →
  Py.float (ip ++ POINT :: fp)
  = Some (float_of_decimal false (digits_value (digits_value 0 ip) fp)
                           (- Z.of_nat (length fp))).
Proof.
  intros Hip Hipne Hfp Hfpne. unfold Py.float.
  rewrite to_ascii_price by done.
  rewrite float_of_ascii_price.
  - by rewrite !ascii_value_digits, length_map.
  - by apply ascii_digits_map.
  - by destruct ip.
  - by apply ascii_digits_map.
  - by destruct fp.
Qed.

Lemma float_price_shaped (tok : str) :
  price_shaped tok → is_Some (Py.float tok).
Proof.
  intros (ip & fp & -> & Hip & Hlen & Hfp & Hflen).
  rewrite float_of_price; [done|done| |done|].
  - intros ->. simpl in Hlen. lia.
  - intros ->. simpl in Hflen. lia.
Qed.

End Parse.

End FloatFacts.

(** ** Reading lists of tokens *)

Section Bias.
Implicit Types (l : list str) (xs : list float).

Lemma map_float_Ok_cons s l xs :
  map_float (s :: l) = Ok xs ↔
  ∃ x xs', Py.float s = Some x ∧ map_float l = Ok xs' ∧ xs = x :: xs'.
Proof.
  simpl. unfold to_float. split.
  - destruct (Py.float s) as [x|]; simpl; [|done].
    destruct (map_float l) as [xs'|]; simpl; [|done].
    intros [= <-]. by exists x, xs'.
  - intros (x & xs' & -> & -> & ->). done.
Qed.

Lemma map_float_Ok_length l xs : map_float l = Ok xs → length xs = length l.
Proof.
  revert xs. induction l as [|s l IH]; intros xs.
  - by intros [= <-].
  - intros (x & xs' & _ & H & ->)%map_float_Ok_cons. simpl. by rewrite (IH xs').
Qed.

Lemma map_float_Ok_last l xs tok :
  map_float l = Ok xs → last l = Some tok →
  ∃ x, last xs = Some x ∧ Py.float tok = Some x.
Proof.
  revert xs. induction l as [|s l IH]; intros xs; [done|].
  intros (x & xs' & Hx & H & ->)%map_float_Ok_cons Hlast.
  destruct l as [|s' l].
  - injection H as <-. simpl in Hlast. injection Hlast as <-. by exists x.
  - destruct (IH xs' H Hlast) as (y & Hy & ?).
    apply map_float_Ok_cons in H as (x' & xs'' & _ & _ & ->).
    exists y. done.
Qed.

(** Every token accepted: the list maps to its values. *)
Lemma map_float_all_Ok l :
  Forall (fun s => is_Some (Py.float s)) l → ∃ xs, map_float l = Ok xs.
Proof.
  induction 1 as [|s l [x Hx] _ [xs IH]]; [by exists []|].
  exists (x :: xs). apply map_float_Ok_cons. by exists x, xs.
Qed.

Lemma length_last5 {A} (l : list A) : length (last5 l) = Nat.min 5 (length l).
Proof. unfold last5. rewrite length_drop. lia. Qed.

Lemma last_drop_lt {A} (l : list A) (k : nat) :
  (k < length l)%nat → last (drop k l) = last l.
Proof.
  revert l. induction k as [|k IH]; intros l Hk; [by rewrite drop_0|].
  destruct l as [|a l]; simpl in *; [lia|].
  rewrite IH by lia. destruct l; [simpl in *; lia|done].
Qed.

Lemma last_last5 {A} (l : list A) : last (last5 l) = last l.
Proof.
  unfold last5. destruct l as [|a l]; [done|].
  apply last_drop_lt. simpl. lia.
Qed.

Lemma last5_subseteq {A} (l : list A) : last5 l ⊆ l.
Proof. apply subseteq_drop. Qed.

End Bias.

(** ** Sessions the handlers produce *)

Section Invariant.
Implicit Types (parsed d : session) (st : store) (tok tf : str).

Lemma dict_get_elem {V} (k : str) (v : V) (d : dict V) :
  dict_get k d = Some v → (k, v) ∈ d.
Proof.
  induction d as [|[k' v'] d IH]; simpl; [done|].
  destruct (Text.eqb k' k) eqn:E.
  - apply str_eqb_eq in E. intros [= ->]. subst. by left.
  - intros ?. right. by apply IH.
Qed.

Lemma extract_tokens_shaped text tok :
  tok ∈ numbers (extract_prices_from_text text) →
  PriceSpec.price_shaped PriceSpec.decimal_digit tok.
Proof.
  unfold extract_prices_from_text. simpl. intros Hm.
  pose proof (ReFacts.findall_scan text) as Hscan.
  apply ReFacts.scan_layout in Hscan as [Hshaped _].
  by eapply Forall_forall in Hshaped.
Qed.

Lemma extract_tokens_float text tok :
  tok ∈ numbers (extract_prices_from_text text) → is_Some (Py.float tok).
Proof. intros ?. by eapply FloatFacts.float_price_shaped, extract_tokens_shaped. Qed.

Lemma session_ok_nil : session_ok [].
Proof.
  split; [apply NoDup_nil_2|]. intros k o H. by apply elem_of_nil in H.
Qed.

Lemma session_ok_set L text d :
  L ∈ TIMEFRAMES → session_ok d →
  session_ok (dict_set L (extract_prices_from_text text) d).
Proof.
  intros HL [Hnd Hd]. split.
  - rewrite dict_keys_set. case_bool_decide as Hin; [done|].
    apply NoDup_app. split; [done|]. split; [|apply NoDup_singleton].
    intros k Hk ->%list_elem_of_singleton. done.
  - intros k o [?|[-> ->]]%dict_set_elem; [by apply Hd|].
    split; [done|by exists text].
Qed.

Lemma store_ok_empty : store_ok ∅.
Proof. intros uid d H. by rewrite lookup_empty in H. Qed.

Lemma store_ok_get uid st : store_ok st → session_ok (get uid st).
Proof.
  intros Hst. unfold get. destruct (st !! uid) as [d|] eqn:E; simpl.
  - by apply (Hst uid).
  - apply session_ok_nil.
Qed.

Lemma store_ok_step ev st : store_ok st → store_ok (snd (step ev st)).
Proof.
  intros Hst. destruct ev as [uid photo caption text|uid]; simpl.
  - unfold handle_photo. destruct photo; simpl; [|done].
    case_bool_decide as HL; simpl; [|done].
    intros uid' d. unfold put. rewrite lookup_insert.
    case_decide; [|by apply Hst].
    intros [= <-]. apply session_ok_set; [done|]. by apply store_ok_get.
  - unfold analyze_cmd. destruct (st !! uid) as [parsed|]; [|done].
    destruct (analyze_screenshots parsed); simpl; [|done].
    intros uid' d. unfold clear. rewrite lookup_delete.
    case_decide; [done|]. by apply Hst.
Qed.

(** Whatever is uploaded and analyzed, every stored session is well
    formed. *)
Lemma store_ok_run evs : store_ok (run_events evs ∅).
Proof.
  unfold run_events. generalize store_ok_empty. generalize (∅ : store).
  induction evs as [|ev evs IH]; intros st Hst; simpl; [done|].
  apply IH. by apply store_ok_step.
Qed.

Lemma session_ok_tokens parsed tf tok :
  session_ok parsed → tok ∈ get_numbers tf parsed → is_Some (Py.float tok).
Proof.
  intros [_ Hd]. unfold get_numbers.
  destruct (dict_get tf parsed) as [o|] eqn:E; [|by intros ?%elem_of_nil].
  apply dict_get_elem, Hd in E as [_ [text ->]].
  apply extract_tokens_float.
Qed.

Lemma session_ok_map_float parsed tf l :
  session_ok parsed → l ⊆ get_numbers tf parsed → ∃ xs, map_float l = Ok xs.
Proof.
  intros Hok Hsub. apply map_float_all_Ok, Forall_forall.
  intros tok Htok. eapply session_ok_tokens; [done|]. by apply Hsub.
Qed.

(** On a well-formed session the bias is always computed. *)
Lemma session_ok_bias parsed : session_ok parsed → ∃ s, bias parsed = Ok s.
Proof.
  intros Hok. unfold bias.
  destruct (get_numbers "15M" parsed) as [|t m15] eqn:E; [by exists LONG|].
  destruct (session_ok_map_float parsed "15M" (last5 (t :: m15)) Hok) as [xs Hxs].
  { rewrite E. apply last5_subseteq. }
  rewrite Hxs. simpl.
  destruct (session_ok_tokens parsed "15M" (last_token (t :: m15)) Hok)
    as [x Hx].
  { rewrite E. unfold last_token.
    destruct (last (t :: m15)) as [tok|] eqn:Hl; simpl.
    - by apply last_Some_elem_of.
    - by apply last_None in Hl. }
  unfold to_float. rewrite Hx. simpl. by eexists.
Qed.

(** On a well-formed session that has a price, the price is a number. *)
Lemma session_ok_price parsed v :
  session_ok parsed → first_numbers TIMEFRAMES parsed = Some v →
  is_Some (Py.float (last_token v)).
Proof.
  intros Hok. generalize TIMEFRAMES. intros tfs.
  induction tfs as [|tf tfs IH]; simpl; [done|].
  destruct (get_numbers tf parsed) as [|t l] eqn:E; [done|].
  intros [= <-]. apply (session_ok_tokens parsed tf); [done|].
  rewrite E. unfold last_token.
  destruct (last (t :: l)) as [tok|] eqn:Hl; simpl.
  - by apply last_Some_elem_of.
  - by apply last_None in Hl.
Qed.

(** A well-formed session with at least one gathered value has a price. *)
Lemma session_ok_has_price parsed :
  session_ok parsed → all_nums parsed ≠ [] →
  is_Some (first_numbers TIMEFRAMES parsed).
Proof.
  intros [Hnd Hd] Hne.
  destruct (first_numbers TIMEFRAMES parsed) eqn:E; [done|]. exfalso.
  apply Hne. eapply Permutation_nil_r.
  rewrite all_nums_timeframes; [|done|].
  - rewrite bind_nil_fun; [done|]. intros tf Htf.
    apply first_numbers_None with (tf := tf) in E; [|done]. by rewrite E.
  - intros k (ko & -> & Hin)%list_elem_of_fmap. destruct ko as [k o].
    by apply Hd in Hin as [? _].
Qed.

End Invariant.

(** ** Directional bias *)

(** C6, as stated, fails: the mean the code compares with is computed
    in binary64 and need not be the arithmetic mean.  For three 15M
    tokens 2000.02 the sum of the three values is rounded down, the mean
    computed from it is 2000.0199999999998, and the bias is LONG although
    the last token equals the arithmetic mean of the three and so does
    not exceed it. *)
Lemma equal_tokens_go_long :
  ∃ x, map_float (last5 (get_numbers "15M"
                    (one_upload "15M" "2000.02 2000.02 2000.02")))
       = Ok [x; x; x]
       ∧ Py.float (last_token (get_numbers "15M"
                     (one_upload "15M" "2000.02 2000.02 2000.02")))
         = Some x
       ∧ (B64.exact_mean [x; x; x] == B64.exact x)%Q
       ∧ ¬ (B64.exact_mean [x; x; x] < B64.exact x)%Q
       ∧ bias (one_upload "15M" "2000.02 2000.02 2000.02") = Ok LONG.
Proof.
  exists 2000.02%float.
  split; [vm_compute; reflexivity|]. split; [vm_compute; reflexivity|].
  split; [vm_compute; reflexivity|]. split; [|vm_compute; reflexivity].
  vm_compute. discriminate.
Qed.

(** C6, amended.  When the 15M timeframe has tokens and its last up-to-5
    tokens read as the numbers [xs], the bias is LONG if the last of them
    (the number of the last 15M token) is strictly greater than the mean
    of [xs] computed in binary64, the values added from left to right
    and the sum divided by their number, and SHORT otherwise; in a
    session the handlers produced every token reads as a number, so this
    covers every stored session with 15M tokens.  When the 15M timeframe
    has no token the bias is LONG.  The side of a recommendation is this
    bias. *)
Theorem directional_bias (parsed : session) :
  let m15 := get_numbers "15M" parsed in
  (m15 = [] → bias parsed = Ok LONG)
  ∧ (∀ xs, m15 ≠ [] → map_float (last5 m15) = Ok xs →
       ∃ x, last xs = Some x
            ∧ Py.float (last_token m15) = Some x
            ∧ length xs = Nat.min 5 (length m15)
            ∧ Stat.is_mean xs (Stat.straight_mean xs)
            ∧ bias parsed
              = Ok (if PrimFloat.ltb (Stat.straight_mean xs) x
                    then LONG else SHORT))
  ∧ (session_ok parsed → ∃ xs, map_float (last5 m15) = Ok xs)
  ∧ (∀ r, analyze_screenshots parsed = Ok r → bias parsed = Ok (rec_side r)).
Proof.
  intros m15. split; [|split; [|split]].
  - unfold bias. fold m15. by intros ->.
  - intros xs Hne Hxs.
    destruct (last m15) as [tok|] eqn:Hlast; [|by apply last_None in Hlast].
    destruct (map_float_Ok_last (last5 m15) xs tok Hxs) as (x & Hx & Hf).
    { by rewrite last_last5. }
    assert (Htok : last_token m15 = tok) by (unfold last_token; by rewrite Hlast).
    assert (Hlen : length xs = Nat.min 5 (length m15)).
    { rewrite (map_float_Ok_length _ _ Hxs). apply length_last5. }
    exists x. rewrite Htok.
    split; [done|]. split; [done|]. split; [done|]. split.
    { exists (Stat.straight_sum xs).
      split; [apply StatFacts.straight_sum_sum|done]. }
    unfold bias. fold m15. destruct m15 as [|t m]; [done|].
    rewrite Hxs. simpl. rewrite Htok. unfold to_float. rewrite Hf.
    rewrite StatFacts.mean_straight; [done|]. lia.
  - intros Hok. apply (session_ok_map_float parsed "15M"); [done|].
    apply last5_subseteq.
  - by intros r (v & price & s & trade & _ & _ & Hb & _ & ->)%analyze_screenshots_Ok.
Qed.

Lemma directional_bias_witness :
  map_float (last5 (get_numbers "15M" (one_upload "15M" "2000.0 2001.0 2003.5")))
  = Ok [2000.0%float; 2001.0%float; 2003.5%float]
  ∧ (∃ x, last [2000.0%float; 2001.0%float; 2003.5%float] = Some x
          ∧ Py.float (last_token (get_numbers "15M"
                        (one_upload "15M" "2000.0 2001.0 2003.5"))) = Some x
          ∧ length [2000.0%float; 2001.0%float; 2003.5%float]
            = Nat.min 5 (length (get_numbers "15M"
                           (one_upload "15M" "2000.0 2001.0 2003.5")))
          ∧ Stat.is_mean [2000.0%float; 2001.0%float; 2003.5%float]
              (Stat.straight_mean [2000.0%float; 2001.0%float; 2003.5%float])
          ∧ bias (one_upload "15M" "2000.0 2001.0 2003.5")
            = Ok (if PrimFloat.ltb
                       (Stat.straight_mean
                          [2000.0%float; 2001.0%float; 2003.5%float]) x
                  then LONG else SHORT))
  ∧ Stat.straight_mean [2000.0%float; 2001.0%float; 2003.5%float]
    = 2001.5%float
  ∧ bias (one_upload "15M" "2000.0 2001.0 2003.5") = Ok LONG
  ∧ bias (one_upload "15M" "2003.5 2001.0 2000.0") = Ok SHORT.
Proof.
  assert (Hxs : map_float (last5 (get_numbers "15M"
                  (one_upload "15M" "2000.0 2001.0 2003.5")))
                = Ok [2000.0%float; 2001.0%float; 2003.5%float]).
  { vm_compute. reflexivity. }
  split; [exact Hxs|]. split; [|repeat split; vm_compute; reflexivity].
  destruct (directional_bias (one_upload "15M" "2000.0 2001.0 2003.5"))
    as (_ & Hbias & _).
  apply Hbias; [|exact Hxs].
  vm_compute. discriminate.
Defined.

(** Three 15M prices, the last above their mean: LONG; the last below:
    SHORT; a single price equals its mean: SHORT. *)
Example bias_examples :
  bias (one_upload "15M" "2000.0 2001.0 2003.5") = Ok LONG
  ∧ bias (one_upload "15M" "2003.5 2001.0 2000.0") = Ok SHORT
  ∧ bias (one_upload "15M" "2003.5") = Ok SHORT
  ∧ bias (one_upload "5M" "2003.5") = Ok LONG.
Proof. repeat split; vm_compute; reflexivity. Qed.

(** ** The mean of two equal values *)

Module B64Facts.
Import B64.

Lemma fexp_eq x : fexp prec emax x = Z.max (x - 53) (-1074).
Proof. reflexivity. Qed.

Lemma bounded_canonical m e :
  bounded prec emax m e = true → canonical m e ∧ e ≤ 971.
Proof.
  unfold bounded, canonical_mantissa, canonical.
  intros [H1 H2]%andb_true_iff. apply Z.eqb_eq in H1. apply Z.leb_le in H2.
  split; [done|]. exact H2.
Qed.

Lemma round_aux_exact s m e :
  canonical m e →
  binary_round_aux prec emax s (Zpos m) e loc_Exact
  = if e <=? 971 then S754_finite s m e else S754_infinity s.
Proof.
  unfold canonical. intros H.
  unfold binary_round_aux, shr_fexp. cbn [Zdigits2 shr_record_of_loc].
  rewrite H, Z.sub_diag. cbn [shr shr_m loc_of_shr_record round_nearest_even].
  cbn [Zdigits2 shr_record_of_loc]. rewrite H, Z.sub_diag.
  cbn [shr shr_m]. reflexivity.
Qed.

Lemma round_aux_shift s m e :
  canonical m (e + 1) →
  binary_round_aux prec emax s (Zpos m~0) e loc_Exact
  = if e + 1 <=? 971 then S754_finite s m (e + 1) else S754_infinity s.
Proof.
  unfold canonical. intros H.
  assert (H' : fexp prec emax (Zpos (digits2_pos m~0) + e) = e + 1).
  { rewrite fexp_eq in H |- *. cbn [digits2_pos]. lia. }
  unfold binary_round_aux, shr_fexp. cbn [Zdigits2 shr_record_of_loc].
  rewrite H'. replace (e + 1 - e) with 1 by lia.
  cbn [shr SpecFloat.iter_pos shr_1 shr_m orb loc_of_shr_record round_nearest_even].
  cbn [Zdigits2 shr_record_of_loc]. rewrite H, Z.sub_diag.
  cbn [shr shr_m]. reflexivity.
Qed.

Lemma round_of_canonical s m e :
  canonical m e → e ≤ 971 →
  binary_round prec emax s m e = S754_finite s m e.
Proof.
  intros H He. unfold binary_round, shl_align. rewrite H, Z.sub_diag.
  rewrite round_aux_exact by done.
  destruct (e <=? 971) eqn:E; [done|]. apply Z.leb_gt in E. lia.
Qed.

Lemma round_double s m e :
  canonical m e →
  binary_round prec emax s m~0 e
  = if Zpos (digits2_pos m) =? 53
    then if e + 1 <=? 971 then S754_finite s m (e + 1) else S754_infinity s
    else S754_finite s m~0 e.
Proof.
  unfold canonical. rewrite fexp_eq. intros H.
  pose proof (Pos2Z.is_pos (digits2_pos m)) as Hpos.
  unfold binary_round, shl_align.
  destruct (Zpos (digits2_pos m) =? 53) eqn:E.
  - apply Z.eqb_eq in E.
    assert (H1 : fexp prec emax (Zpos (digits2_pos m~0) + e) = e + 1).
    { rewrite fexp_eq. cbn [digits2_pos]. lia. }
    rewrite H1. replace (e + 1 - e) with 1 by lia.
    apply round_aux_shift. unfold canonical. rewrite fexp_eq. lia.
  - apply Z.eqb_neq in E.
    assert (H1 : fexp prec emax (Zpos (digits2_pos m~0) + e) = e).
    { rewrite fexp_eq. cbn [digits2_pos]. lia. }
    rewrite H1, Z.sub_diag. rewrite round_aux_exact by exact H1.
    destruct (e <=? 971) eqn:E'; [done|]. apply Z.leb_gt in E'. lia.
Qed.

(** [x + x] *)
Lemma add_self s m e :
  canonical m e →
  SF64add (S754_finite s m e) (S754_finite s m e)
  = if Zpos (digits2_pos m) =? 53
    then if e + 1 <=? 971 then S754_finite s m (e + 1) else S754_infinity s
    else S754_finite s m~0 e.
Proof.
  intros H. unfold SF64add, SFadd. rewrite Z.min_id.
  unfold shl_align. rewrite Z.sub_diag. cbn [fst].
  assert (Hsum : cond_Zopp s (Zpos m) + cond_Zopp s (Zpos m)
                 = cond_Zopp s (Zpos m~0)) by (destruct s; simpl; lia).
  rewrite Hsum. destruct s; simpl cond_Zopp; by apply round_double.
Qed.

Lemma div_eucl_mul a b :
  0 < b → IntDef.Z.div_eucl (a * b) b = (a, 0).
Proof.
  intros Hb. pose proof (Z.div_mul a b ltac:(lia)) as Hd.
  pose proof (Z.mod_mul a b ltac:(lia)) as Hm.
  unfold Z.div, Z.modulo in *.
  change IntDef.Z.div_eucl with Z.div_eucl.
  by destruct (Z.div_eucl (a * b) b) as [q r]; subst.
Qed.

Lemma shiftl_pos m k : 0 < k → IntDef.Z.shiftl (Zpos m) k = Zpos m * 2 ^ k.
Proof.
  intros Hk. change IntDef.Z.shiftl with Z.shiftl.
  apply Z.shiftl_mul_pow2. lia.
Qed.

(** Halving [m * 2^(e+1)] and [2m * 2^e]. *)
Lemma half_shifted s m e :
  canonical m e → Zpos (digits2_pos m) = 53 → e ≤ 971 →
  SF64div (S754_finite s m (e + 1)) TWO = S754_finite s m e.
Proof.
  unfold canonical. rewrite fexp_eq. intros H Hd He.
  unfold SF64div, SFdiv, TWO, SFdiv_core_binary.
  cbn [Zdigits2]. rewrite Hd.
  change (Zpos (digits2_pos 4503599627370496)) with 53.
  rewrite fexp_eq, xorb_false_r.
  destruct (decide (e = -1074)) as [->|Hne].
  - replace (Z.min (Z.max (53 + (-1074 + 1) - (53 + -51) - 53) (-1074))
               (-1074 + 1 - -51)) with (-1074) by lia.
    replace (-1074 + 1 - -51 - -1074) with 52 by lia.
    rewrite shiftl_pos by lia.
    change (2 ^ 52) with 4503599627370496.
    rewrite div_eucl_mul by lia.
    change (new_location 4503599627370496 0) with loc_Exact.
    rewrite round_aux_exact; [done|]. unfold canonical. rewrite fexp_eq. lia.
  - replace (Z.min (Z.max (53 + (e + 1) - (53 + -51) - 53) (-1074))
               (e + 1 - -51)) with (e - 1) by lia.
    replace (e + 1 - -51 - (e - 1)) with 53 by lia.
    rewrite shiftl_pos by lia.
    replace (Zpos m * 2 ^ 53) with (Zpos m~0 * 4503599627370496) by lia.
    rewrite div_eucl_mul by lia.
    change (new_location 4503599627370496 0) with loc_Exact.
    rewrite round_aux_shift.
    + replace (e - 1 + 1) with e by lia.
      destruct (e <=? 971) eqn:E; [done|]. apply Z.leb_gt in E. lia.
    + unfold canonical. rewrite fexp_eq. lia.
Qed.

Lemma half_doubled s m :
  Zpos (digits2_pos m) < 53 →
  SF64div (S754_finite s m~0 (-1074)) TWO = S754_finite s m (-1074).
Proof.
  intros Hd. pose proof (Pos2Z.is_pos (digits2_pos m)) as Hpos.
  unfold SF64div, SFdiv, TWO, SFdiv_core_binary.
  cbn [Zdigits2].
  change (Zpos (digits2_pos 4503599627370496)) with 53.
  change (digits2_pos m~0) with (Pos.succ (digits2_pos m)).
  rewrite Pos2Z.inj_succ.
  rewrite fexp_eq, xorb_false_r.
  replace (Z.min (Z.max (Z.succ (Zpos (digits2_pos m)) + -1074
                         - (53 + -51) - 53) (-1074)) (-1074 - -51))
    with (-1074) by lia.
  change (-1074 - -51 - -1074) with 51.
  rewrite shiftl_pos by lia.
  replace (Zpos m~0 * 2 ^ 51) with (Zpos m * 4503599627370496) by lia.
  rewrite div_eucl_mul by lia.
  change (new_location 4503599627370496 0) with loc_Exact.
  rewrite round_aux_exact; [done|]. unfold canonical. rewrite fexp_eq. lia.
Qed.

(** The mean of two equal values, as numpy computes it, is the value
    itself unless doubling it overflows. *)
Lemma mean_of_two (x : float) :
  is_finite (x + x) = true →
  x = 0%float ∨ x = (-0)%float ∨ ((0 + (-0 + x + x)) / 2 = x)%float.
Proof.
  intros Hfin.
  assert (Hfin' : match SF64add (Prim2SF x) (Prim2SF x) with
                  | S754_nan | S754_infinity _ => False
                  | _ => True
                  end).
  { unfold is_finite, is_nan, is_infinity in Hfin.
    rewrite !FloatAxioms.eqb_spec, FloatAxioms.abs_spec, FloatAxioms.add_spec in Hfin.
    destruct (SF64add (Prim2SF x) (Prim2SF x)) as [|[]| |]; done. }
  pose proof (Prim2SF_valid x) as Hv.
  destruct (Prim2SF x) as [[]|[]| |s m e] eqn:Hx; try done.
  - right. left. by rewrite <- (SF2Prim_Prim2SF x), Hx.
  - left. by rewrite <- (SF2Prim_Prim2SF x), Hx.
  - right. right. apply Prim2SF_inj.
    rewrite FloatAxioms.div_spec, !FloatAxioms.add_spec, Hx.
    change (Prim2SF 2) with TWO. change (Prim2SF 0) with (S754_zero false).
    change (Prim2SF (-0)) with (S754_zero true).
    apply bounded_canonical in Hv as [Hcan He].
    change (SF64add (S754_zero true) (S754_finite s m e))
      with (S754_finite s m e).
    rewrite add_self in Hfin' |- * by done.
    assert (Hcan' := Hcan). unfold canonical in Hcan'.
    rewrite fexp_eq in Hcan'.
    destruct (Zpos (digits2_pos m) =? 53) eqn:Ed.
    + apply Z.eqb_eq in Ed.
      destruct (e + 1 <=? 971) eqn:E1; [|done]. apply Z.leb_le in E1.
      change (SF64add (S754_zero false) (S754_finite s m (e + 1)))
        with (S754_finite s m (e + 1)).
      by apply half_shifted.
    + apply Z.eqb_neq in Ed.
      change (SF64add (S754_zero false) (S754_finite s m~0 e))
        with (S754_finite s m~0 e).
      assert (e = -1074) as -> by lia.
      apply half_doubled. lia.
Qed.

Lemma sub_self (x : float) :
  is_finite x = true → (x - x = 0)%float.
Proof.
  intros Hfin. apply Prim2SF_inj. rewrite FloatAxioms.sub_spec.
  unfold is_finite, is_nan, is_infinity in Hfin.
  rewrite !FloatAxioms.eqb_spec, FloatAxioms.abs_spec in Hfin.
  change (Prim2SF 0) with (S754_zero false).
  destruct (Prim2SF x) as [[]|[]| |s m e]; try done.
  unfold SF64sub, SFsub. rewrite Z.min_id. unfold shl_align.
  rewrite !Z.sub_diag. cbn [fst]. rewrite ?Z.sub_diag. reflexivity.
Qed.

Lemma finite_double (x : float) :
  is_finite (x + x) = true → is_finite x = true.
Proof.
  unfold is_finite, is_nan, is_infinity.
  rewrite !FloatAxioms.eqb_spec, !FloatAxioms.abs_spec, FloatAxioms.add_spec.
  destruct (Prim2SF x) as [[]|[]| |s m e]; try done.
  intros _. unfold SFeqb, SFabs, SFcompare.
  destruct s; by rewrite Z.compare_refl, Pos.compare_cont_refl.
Qed.

End B64Facts.

(** ** A volatility proxy of zero *)

Section ZeroVolatility.
Implicit Types (parsed : session) (x : float).

Lemma float_eqb_zero (v : float) :
  PrimFloat.eqb v 0%float = true → v = 0%float ∨ v = (-0)%float.
Proof.
  rewrite FloatAxioms.eqb_spec.
  change (Prim2SF 0) with (S754_zero false).
  intros H. rewrite <- (SF2Prim_Prim2SF v).
  destruct (Prim2SF v) as [[]|[]| |[] m e]; try discriminate H; auto.
Qed.

Lemma mean_two x : Np.mean [x; x] = ((0 + (-0 + x + x)) / 2)%float.
Proof. reflexivity. Qed.

(** The standard deviation of two equal values is 0, unless doubling the
    value overflows. *)
Lemma std_of_two x :
  is_finite (x + x) = true → Np.std [x; x] = 0%float.
Proof.
  intros Hfin.
  destruct (B64Facts.mean_of_two x Hfin) as [->|[->|Hmean]];
    [vm_compute; reflexivity..|].
  unfold Np.std, Np.var. rewrite mean_two, Hmean. cbn [map].
  rewrite (B64Facts.sub_self x) by by apply B64Facts.finite_double.
  vm_compute. reflexivity.
Qed.

Lemma zero_divisor (v : float) price s :
  PrimFloat.eqb v 0%float = true →
  compute_sl_tp_size price v s 10000.0%float = Raised ZeroDivisionError.
Proof.
  intros Hz. unfold compute_sl_tp_size.
  destruct (float_eqb_zero _ Hz) as [-> | ->]; reflexivity.
Qed.

Lemma zero_volatility_raises parsed :
  PrimFloat.eqb (volatility parsed) 0%float = true →
  (∃ e, analyze_screenshots parsed = Raised e)
  ∧ (∀ v price s,
       first_numbers TIMEFRAMES parsed = Some v →
       Py.float (last_token v) = Some price →
       bias parsed = Ok s →
       analyze_screenshots parsed = Raised ZeroDivisionError)
  ∧ (session_ok parsed →
     analyze_screenshots parsed = Raised ZeroDivisionError).
Proof.
  intros Hz.
  assert (Hall : ∀ v price s,
    first_numbers TIMEFRAMES parsed = Some v →
    Py.float (last_token v) = Some price →
    bias parsed = Ok s →
    analyze_screenshots parsed = Raised ZeroDivisionError).
  { intros v price s Hv Hp Hb. unfold analyze_screenshots, to_float.
    rewrite Hv, Hp. simpl. rewrite Hb. simpl. by rewrite zero_divisor. }
  split; [|split; [done|]].
  - unfold analyze_screenshots.
    destruct (first_numbers _ _); [|by eexists].
    destruct (to_float _); simpl; [|by eexists].
    destruct (bias parsed); simpl; [|by eexists].
    rewrite zero_divisor by done. by eexists.
  - intros Hok.
    destruct (session_ok_has_price parsed Hok) as [v Hv].
    { intros Hnil. unfold volatility in Hz. rewrite Hnil in Hz.
      vm_compute in Hz. discriminate. }
    destruct (session_ok_price parsed v Hok Hv) as [price Hp].
    destruct (session_ok_bias parsed Hok) as [s Hb].
    by apply (Hall v price s).
Qed.

Lemma zero_volatility_two_values parsed :
  PrimFloat.eqb (volatility parsed) 0%float = true →
  (2 ≤ length (all_nums parsed))%nat.
Proof.
  unfold volatility.
  destruct (2 <=? length (all_nums parsed))%nat eqn:E.
  - intros _. by apply Nat.leb_le.
  - intros H. vm_compute in H. discriminate.
Qed.

End ZeroVolatility.

(** C9, as stated, fails: three equal prices need not give a volatility
    proxy of 0.  The binary64 sum of three copies of 100.1 is rounded, the
    mean computed from it is one unit in the last place below 100.1, and
    the standard deviation is 1.42e-14; the division goes through and a
    recommendation is returned. *)
Lemma repeated_price_can_succeed :
  ∃ x r, all_nums (one_upload "5M" "100.1 100.1 100.1") = [x; x; x]
         ∧ volatility (one_upload "5M" "100.1 100.1 100.1") ≠ 0%float
         ∧ PrimFloat.eqb (volatility (one_upload "5M" "100.1 100.1 100.1")) 0
           = false
         ∧ analyze_screenshots (one_upload "5M" "100.1 100.1 100.1") = Ok r.
Proof.
  do 2 eexists. split; [vm_compute; reflexivity|].
  split; [apply float_neq; vm_compute; reflexivity|].
  split; vm_compute; reflexivity.
Qed.

(** C9, amended.  When exactly two values are parsed and they are equal
    (and finite, with a double that does not overflow), the volatility
    proxy is 0, the position-size computation divides by zero for every
    entry price and side, and the analysis returns an error instead of a
    recommendation: the caught division by zero in every session the
    handlers produced.  In general, a proxy that compares equal to zero
    needs at least two parsed values and always makes the analysis fail
    in this way. *)
Theorem zero_volatility_fails :
  (∀ (parsed : session) (x : float),
     all_nums parsed = [x; x] → is_finite (x + x) = true →
     volatility parsed = 0%float
     ∧ (∀ price s,
          compute_sl_tp_size price (volatility parsed) s 10000.0%float
          = Raised ZeroDivisionError)
     ∧ (∃ e, analyze_screenshots parsed = Raised e)
     ∧ (session_ok parsed →
        analyze_screenshots parsed = Raised ZeroDivisionError))
  ∧ (∀ parsed : session,
       PrimFloat.eqb (volatility parsed) 0%float = true →
       (2 ≤ length (all_nums parsed))%nat
       ∧ (∀ price s,
            compute_sl_tp_size price (volatility parsed) s 10000.0%float
            = Raised ZeroDivisionError)
       ∧ (∃ e, analyze_screenshots parsed = Raised e)
       ∧ (∀ v price s,
            first_numbers TIMEFRAMES parsed = Some v →
            Py.float (last_token v) = Some price →
            bias parsed = Ok s →
            analyze_screenshots parsed = Raised ZeroDivisionError)
       ∧ (session_ok parsed →
          analyze_screenshots parsed = Raised ZeroDivisionError)).
Proof.
  split.
  - intros parsed x Hall Hfin.
    assert (Hvol : volatility parsed = 0%float).
    { unfold volatility. rewrite Hall. simpl. by apply std_of_two. }
    assert (Hz : PrimFloat.eqb (volatility parsed) 0%float = true).
    { by rewrite Hvol. }
    destruct (zero_volatility_raises parsed Hz) as (He & _ & Hok).
    split; [done|]. split; [|done].
    intros price s. by apply zero_divisor.
  - intros parsed Hz.
    destruct (zero_volatility_raises parsed Hz) as (He & Hall & Hok).
    split; [by apply zero_volatility_two_values|].
    split; [|done]. intros price s. by apply zero_divisor.
Qed.

Lemma zero_volatility_fails_witness :
  all_nums (one_upload "5M" "100.1 100.1") = [100.1%float; 100.1%float]
  ∧ is_finite (100.1 + 100.1) = true
  ∧ volatility (one_upload "5M" "100.1 100.1") = 0%float
  ∧ (∀ price s,
       compute_sl_tp_size price (volatility (one_upload "5M" "100.1 100.1"))
         s 10000.0%float
       = Raised ZeroDivisionError)
  ∧ (∃ e, analyze_screenshots (one_upload "5M" "100.1 100.1") = Raised e)
  ∧ analyze_screenshots (one_upload "5M" "100.1 100.1")
    = Raised ZeroDivisionError.
Proof.
  assert (Hall : all_nums (one_upload "5M" "100.1 100.1")
                 = [100.1%float; 100.1%float]).
  { vm_compute. reflexivity. }
  assert (Hfin : is_finite (100.1 + 100.1) = true).
  { vm_compute. reflexivity. }
  assert (Hok : session_ok (one_upload "5M" "100.1 100.1")).
  { apply (session_ok_set "5M" "100.1 100.1" []); [|apply session_ok_nil].
    apply (bool_decide_unpack ("5M" ∈ TIMEFRAMES)). vm_compute. exact I. }
  split; [exact Hall|]. split; [exact Hfin|].
  destruct (proj1 zero_volatility_fails (one_upload "5M" "100.1 100.1")
              100.1%float Hall Hfin) as (Hvol & Hdiv & He & Hraise).
  split; [exact Hvol|]. split; [exact Hdiv|]. split; [exact He|].
  exact (Hraise Hok).
Defined.

(** Two equal prices: the proxy is 0 and the analysis reports the
    division by zero. *)
Example two_equal_prices :
  analyze_screenshots (one_upload "5M" "100.1 100.1") = Raised ZeroDivisionError.
Proof. vm_compute. reflexivity. Qed.

(** * Further properties of the code *)

(** ** The extractor on composed and degenerate texts *)

Module ExtractFacts.
Import Text Re PriceSpec.
#[local] Abbreviation digits := (PriceSpec.digits PriceSpec.decimal_digit).
#[local] Abbreviation price_shaped := (PriceSpec.price_shaped PriceSpec.decimal_digit).
#[local] Abbreviation match_at := (PriceSpec.match_at PriceSpec.decimal_digit).
#[local] Abbreviation no_match_at := (PriceSpec.no_match_at PriceSpec.decimal_digit).
#[local] Abbreviation scan := (PriceSpec.scan PriceSpec.decimal_digit).
#[local] Open Scope nat_scope.

Section Separation.
Implicit Types (s t m pre rest : str) (ms : list str).

Lemma price_shaped_chars m c :
  price_shaped m → c ∈ m → is_digit c = true ∨ c = POINT.
Proof.
  intros (ip & fp & -> & Hip & _ & Hfp & _) Hc.
  apply elem_of_app in Hc as [Hc|Hc].
  - left. by eapply Forall_forall in Hip.
  - apply elem_of_cons in Hc as [->|Hc]; [by right|].
    left. by eapply Forall_forall in Hfp.
Qed.

Lemma price_shaped_head m :
  price_shaped m → ∃ c m', m = c :: m' ∧ is_digit c = true.
Proof.
  intros (ip & fp & -> & Hip & Hlen & _).
  destruct ip as [|c ip]; [simpl in Hlen; lia|].
  exists c, (ip ++ POINT :: fp). split; [done|]. by apply Forall_cons in Hip as [? _].
Qed.

Lemma price_shaped_point m : price_shaped m → POINT ∈ m.
Proof.
  intros (ip & fp & -> & _). apply elem_of_app. right. by left.
Qed.

(** A price-shaped text cannot reach across a character that is neither
    a digit nor a point. *)
Lemma prefix_before_separator m s sep t :
  is_digit sep = false → sep ≠ POINT →
  price_shaped m → m `prefix_of` s ++ sep :: t → m `prefix_of` s.
Proof.
  intros Hd Hp Hm [k Hk].
  destruct (decide (length m ≤ length s)) as [Hle|Hgt].
  - assert (m = take (length m) s) as ->; [|apply prefix_take].
    rewrite <- (take_app_le s (sep :: t)) by done.
    by rewrite Hk, take_app_length.
  - exfalso. assert (Hsep : sep ∈ m).
    { apply list_elem_of_lookup. exists (length s).
      rewrite <- (lookup_app_l m k) by lia.
      rewrite <- Hk. by apply list_lookup_middle. }
    destruct (price_shaped_chars m sep Hm Hsep); congruence.
Qed.

Lemma no_match_at_app s sep t :
  is_digit sep = false → sep ≠ POINT →
  no_match_at s → no_match_at (s ++ sep :: t).
Proof.
  intros Hd Hp Hno m Hpre Hm. apply (Hno m); [|done].
  by eapply prefix_before_separator.
Qed.

Lemma match_at_app s m sep t :
  is_digit sep = false → sep ≠ POINT →
  match_at s m → match_at (s ++ sep :: t) m.
Proof.
  intros Hd Hp (Hpre & Hm & Hmax). split; [by apply prefix_app_r|].
  split; [done|]. intros m' Hpre' Hm'. apply Hmax; [|done].
  by eapply prefix_before_separator.
Qed.

Lemma no_match_at_separator sep t :
  is_digit sep = false → no_match_at (sep :: t).
Proof.
  intros Hd m [k Hk] (c & m' & -> & Hc)%price_shaped_head.
  injection Hk as ->. congruence.
Qed.

Lemma scan_prepend pre s ms :
  (∀ i, i < length pre → no_match_at (drop i (pre ++ s))) →
  scan s ms → scan (pre ++ s) ms.
Proof.
  induction pre as [|c pre IH]; intros Hno Hscan; [done|].
  simpl. apply ReFacts.scan_skip.
  - apply (Hno 0). simpl. lia.
  - apply IH; [|done]. intros i Hi. apply (Hno (S i)). simpl. lia.
Qed.

(** Scanning two texts joined by a separator is scanning each. *)
Lemma scan_app s ms sep t ms' :
  is_digit sep = false → sep ≠ POINT →
  scan s ms → scan t ms' → scan (s ++ sep :: t) (ms ++ ms').
Proof.
  intros Hd Hp Hs Ht.
  induction Hs as [s Hno | pre m rest ms Hpre Hm Hscan IH].
  - simpl. change (sep :: t) with ([sep] ++ t). rewrite app_assoc.
    apply scan_prepend; [|done]. intros i Hi.
    rewrite length_app in Hi. simpl in Hi. rewrite <- app_assoc. simpl.
    destruct (decide (i < length s)) as [Hlt|Hge].
    + rewrite drop_app_le by lia. by apply no_match_at_app.
    + replace i with (length s) by lia. rewrite drop_app_length.
      by apply no_match_at_separator.
  - rewrite <- !app_assoc. simpl. apply scan_match; [| |done].
    + intros i Hi. specialize (Hpre i Hi).
      replace (pre ++ m ++ rest ++ sep :: t)
        with ((pre ++ m ++ rest) ++ sep :: t) by by rewrite <- !app_assoc.
      rewrite drop_app_le by (rewrite length_app; lia).
      by apply no_match_at_app.
    + rewrite app_assoc. by apply match_at_app.
Qed.

Lemma findall_app s sep t :
  is_digit sep = false → sep ≠ POINT →
  findall PRICE (s ++ sep :: t) = findall PRICE s ++ findall PRICE t.
Proof.
  intros Hd Hp. apply (ReFacts.scan_functional (s ++ sep :: t)).
  - apply ReFacts.findall_scan.
  - apply scan_app; [done..| |]; apply ReFacts.findall_scan.
Qed.

(** A price-shaped text is its own and only match. *)
Lemma findall_price_shaped m : price_shaped m → findall PRICE m = [m].
Proof.
  intros Hm. apply (ReFacts.scan_functional m); [apply ReFacts.findall_scan|].
  pose proof (scan_match (digit := PriceSpec.decimal_digit) [] m [] [])
    as Hscan.
  simpl in Hscan. rewrite app_nil_r in Hscan. apply Hscan.
  - intros i Hi. lia.
  - split; [done|]. split; [done|]. intros m' Hm' _. by apply prefix_length.
  - apply ReFacts.scan_nil.
Qed.

Lemma findall_no_point s : POINT ∉ s → findall PRICE s = [].
Proof.
  intros Hs. apply (ReFacts.scan_functional s); [apply ReFacts.findall_scan|].
  apply scan_end. intros i m [k Hk] Hm. apply Hs.
  apply price_shaped_point in Hm.
  apply (subseteq_drop i s). rewrite Hk. apply elem_of_app. by left.
Qed.

Lemma findall_short s : length s < 5 → findall PRICE s = [].
Proof.
  intros Hs. apply (ReFacts.scan_functional s); [apply ReFacts.findall_scan|].
  apply scan_end. intros i. apply ReFacts.no_match_at_short.
  rewrite length_drop. lia.
Qed.

(** Every match takes at least five characters of the text. *)
Lemma scan_count s ms : scan s ms → 5 * length ms ≤ length s.
Proof.
  induction 1 as [s Hno | pre m rest ms Hpre Hm Hscan IH]; simpl; [lia|].
  destruct Hm as (_ & Hm%ReFacts.price_shaped_length & _).
  rewrite !length_app. lia.
Qed.

End Separation.

End ExtractFacts.

(** X1. Round trip of the extractor: every token it returns from a text
    is, taken as a text of its own, extracted as exactly that one
    token. *)
Theorem extract_token_roundtrip (text tok : str) :
  tok ∈ numbers (extract_prices_from_text text) →
  extract_prices_from_text tok = Obs [tok] tok.
Proof.
  intros Htok%extract_tokens_shaped.
  unfold extract_prices_from_text.
  by rewrite (ExtractFacts.findall_price_shaped _ Htok).
Qed.

Lemma extract_token_roundtrip_witness :
  "34567.89"%str
    ∈ numbers (extract_prices_from_text "hi 1234567.89 lo")
  ∧ extract_prices_from_text "34567.89" = Obs ["34567.89"%str] "34567.89".
Proof.
  assert (Hin : "34567.89"%str
                  ∈ numbers (extract_prices_from_text "hi 1234567.89 lo")).
  { vm_compute. left. }
  split; [exact Hin|].
  exact (extract_token_roundtrip "hi 1234567.89 lo" "34567.89" Hin).
Defined.

(** X2. Texts without a price: a text that has no point, or fewer than
    five characters, gives no number; and a text never gives more numbers
    than a fifth of its length. *)
Theorem extract_without_price (text : str) :
  (POINT ∉ text → numbers (extract_prices_from_text text) = [])
  ∧ ((length text < 5)%nat →
     numbers (extract_prices_from_text text) = [])
  ∧ (5 * length (numbers (extract_prices_from_text text))
     ≤ length text)%nat.
Proof.
  change (numbers (extract_prices_from_text text))
    with (Re.findall Re.PRICE text).
  split; [|split].
  - intros H. by rewrite ExtractFacts.findall_no_point.
  - intros H. by rewrite ExtractFacts.findall_short.
  - apply ExtractFacts.scan_count, ReFacts.findall_scan.
Qed.

Lemma extract_without_price_witness :
  numbers (extract_prices_from_text "lot 12345 at 99") = []
  ∧ numbers (extract_prices_from_text "12.3") = [].
Proof.
  split.
  - apply (proj1 (extract_without_price "lot 12345 at 99")).
    apply (bool_decide_unpack (_ ∉ _)). vm_compute. exact I.
  - apply (proj1 (proj2 (extract_without_price "12.3"))). simpl. lia.
Defined.

(** X3. The extractor works piece by piece: the numbers of two texts
    joined by a character that is neither a digit nor a point (a space,
    a line break, a letter) are the numbers of the first followed by the
    numbers of the second. *)
Theorem extract_separated (a b : str) (sep : N) :
  Text.is_digit sep = false → sep ≠ POINT →
  numbers (extract_prices_from_text (a ++ sep :: b))
  = numbers (extract_prices_from_text a)
    ++ numbers (extract_prices_from_text b).
Proof.
  intros Hd Hp. by apply ExtractFacts.findall_app.
Qed.

Lemma extract_separated_witness :
  numbers (extract_prices_from_text
             ("H 2034.55" ++ 32%N :: "2031.4 L 2029.905"))
  = numbers (extract_prices_from_text "H 2034.55")
    ++ numbers (extract_prices_from_text "2031.4 L 2029.905").
Proof.
  apply (extract_separated "H 2034.55" "2031.4 L 2029.905" 32).
  - reflexivity.
  - discriminate.
Defined.

(** X4. Every token the extractor returns is a number for [float]: it
    reads as the digits before and after the point, taken as one integer
    and scaled by the number of digits after the point, rounded to
    binary64.  So [float] never rejects an extracted token. *)
Theorem extracted_tokens_are_numbers (text tok : str) :
  tok ∈ numbers (extract_prices_from_text text) →
  ∃ ip fp,
    tok = ip ++ POINT :: fp
    ∧ (3 ≤ length ip ≤ 5)%nat ∧ (1 ≤ length fp ≤ 4)%nat
    ∧ Py.float tok
      = Some (Py.float_of_decimal false
                (digits_value (digits_value 0 ip) fp)
                (- Z.of_nat (length fp))).
Proof.
  intros (ip & fp & Heq & Hip & Hlen & Hfp & Hflen)%extract_tokens_shaped.
  exists ip, fp. split; [done|]. split; [done|]. split; [done|].
  rewrite Heq. apply FloatFacts.float_of_price; [done| |done|].
  - intros ->. simpl in Hlen. lia.
  - intros ->. simpl in Hflen. lia.
Qed.

Lemma extracted_tokens_are_numbers_witness :
  "2034.55"%str ∈ numbers (extract_prices_from_text "XAUUSD 2034.55")
  ∧ ∃ ip fp,
      "2034.55" = ip ++ POINT :: fp
      ∧ (3 ≤ length ip ≤ 5)%nat ∧ (1 ≤ length fp ≤ 4)%nat
      ∧ Py.float "2034.55"
        = Some (Py.float_of_decimal false
                  (digits_value (digits_value 0 ip) fp)
                  (- Z.of_nat (length fp))).
Proof.
  assert (Hin : "2034.55"%str
                  ∈ numbers (extract_prices_from_text "XAUUSD 2034.55")).
  { vm_compute. left. }
  split; [exact Hin|].
  exact (extracted_tokens_are_numbers "XAUUSD 2034.55" "2034.55" Hin).
Defined.

(** ** Captions *)

Module CaptionFacts.
Import Text.

Section Strip.
Implicit Types (c : N) (l pre post : str).

Lemma lstrip_spaces pre l :
  spaces pre → lstrip is_space (pre ++ l) = lstrip is_space l.
Proof. induction 1 as [|c pre Hc _ IH]; simpl; [done|]. by rewrite Hc. Qed.

Lemma lstrip_all_spaces l : spaces l → lstrip is_space l = [].
Proof.
  intros H. rewrite <- (app_nil_r l). by rewrite lstrip_spaces.
Qed.

Lemma rstrip_spaces l post :
  spaces post → rstrip is_space (l ++ post) = rstrip is_space l.
Proof.
  intros H. unfold rstrip. rewrite rev_app_distr, lstrip_spaces; [done|].
  by apply Forall_rev.
Qed.

Lemma rstrip_no_space l : no_space l → rstrip is_space l = l.
Proof.
  intros H%Forall_rev. unfold rstrip. rewrite <- (rev_involutive l) at 2.
  f_equal. destruct H as [|c l' Hc _]; simpl; [done|]. by rewrite Hc.
Qed.

Lemma strip_pad pre l post :
  spaces pre → no_space l → spaces post →
  rstrip is_space (lstrip is_space (pre ++ l ++ post)) = l.
Proof.
  intros Hpre Hl Hpost. rewrite lstrip_spaces by done.
  destruct Hl as [|c l Hc Hl].
  - simpl. by rewrite lstrip_all_spaces.
  - change (lstrip is_space ((c :: l) ++ post))
      with (if is_space c then lstrip is_space (l ++ post)
            else (c :: l) ++ post).
    rewrite Hc, rstrip_spaces by done.
    apply rstrip_no_space. by constructor.
Qed.

(** White space has no upper case of its own. *)
Lemma space_upper_char c : is_space c = true → upper_char c = [c].
Proof.
  revert c. apply (FloatFacts.spaces_all (fun c => upper_char c = [c])).
  apply (bool_decide_unpack (Forall _ WHITE)). vm_compute. exact I.
Qed.

Lemma timeframes_no_space L : L ∈ TIMEFRAMES → no_space L.
Proof.
  unfold TIMEFRAMES. rewrite !elem_of_cons, elem_of_nil.
  intros [->|[->|[->|[->|[->|[]]]]]]; repeat constructor.
Qed.

Lemma upper_no_space (s : str) L :
  upper s = L → L ∈ TIMEFRAMES → no_space s.
Proof.
  intros <- H%timeframes_no_space. apply Forall_forall. intros c Hc.
  destruct (is_space c) eqn:E; [|done].
  eapply Forall_forall in H.
  - by rewrite H in E.
  - unfold upper. apply list_elem_of_bind. exists c. split; [|done].
    rewrite space_upper_char by done. left.
Qed.

Lemma strip_spaces (s : str) : spaces s → strip s = "".
Proof.
  intros H. unfold strip. by rewrite lstrip_all_spaces.
Qed.

End Strip.
End CaptionFacts.

(** X5. Captions are read leniently: a caption that spells one of the five
    labels in any letter case, with any white space before and after it,
    is accepted as that label, and the observation is stored under the
    label in capitals. *)
Theorem caption_normalised (uid : Z) (pre cap post text : str) (st : store)
    (L : str) :
  spaces pre → spaces post →
  Text.upper cap = L → L ∈ TIMEFRAMES →
  handle_photo uid true (Some (pre ++ cap ++ post)) text st
  = (Parsed L, put uid L (extract_prices_from_text text) st).
Proof.
  intros Hpre Hpost Hcap HL. apply handle_photo_accepted; [|done].
  simpl. unfold Text.strip.
  rewrite CaptionFacts.strip_pad; [done|done| |done].
  by apply (CaptionFacts.upper_no_space cap L).
Qed.

Lemma caption_normalised_witness :
  handle_photo 7 true (Some ([10; 160; 32]%N ++ "15m" ++ [8195; 9]%N))
    "2034.55" ∅
  = (Parsed "15M", put 7 "15M" (extract_prices_from_text "2034.55") ∅).
Proof.
  apply (caption_normalised 7 [10; 160; 32]%N "15m" [8195; 9]%N
           "2034.55" ∅ "15M").
  - repeat constructor.
  - repeat constructor.
  - reflexivity.
  - unfold TIMEFRAMES. set_solver.
Defined.

(** X6. An upload without a usable caption stores nothing: when the
    caption is missing, empty or only white space, the reply asks to
    resend and the store is unchanged, whatever prices the image shows. *)
Theorem blank_caption_stores_nothing (uid : Z) (caption : option str)
    (text : str) (st : store) :
  spaces (default "" caption) →
  handle_photo uid true caption text st = (ResendWithCaption, st).
Proof.
  intros H. apply handle_photo_rejected.
  rewrite (CaptionFacts.strip_spaces _ H).
  apply (bool_decide_unpack (_ ∉ _)). vm_compute. exact I.
Qed.

Lemma blank_caption_stores_nothing_witness :
  handle_photo 7 true (Some "   "%str) "2034.55" store_one_price
  = (ResendWithCaption, store_one_price)
  ∧ handle_photo 7 true None "2034.55" store_one_price
    = (ResendWithCaption, store_one_price).
Proof.
  split.
  - apply (blank_caption_stores_nothing 7 (Some "   "%str)).
    repeat constructor.
  - apply (blank_caption_stores_nothing 7 None). constructor.
Defined.

(** ** Sequences of events *)

Section Runs.
Implicit Types (ev : event) (evs : list event) (st : store) (d : session).

Lemma run_events_cons ev evs st :
  run_events (ev :: evs) st = run_events evs (snd (step ev st)).
Proof. reflexivity. Qed.

Lemma run_events_snoc evs ev st :
  run_events (evs ++ [ev]) st = snd (step ev (run_events evs st)).
Proof. unfold run_events. by rewrite fold_left_app. Qed.

Lemma run_events_invariant (P : store → Prop) evs st :
  (∀ ev st, P st → P (snd (step ev st))) → P st → P (run_events evs st).
Proof.
  intros Hstep. revert st.
  induction evs as [|ev evs IH]; intros st H; [done|].
  rewrite run_events_cons. by apply IH, Hstep.
Qed.

Lemma step_other ev st uid :
  sender ev ≠ uid → snd (step ev st) !! uid = st !! uid.
Proof.
  destruct ev as [u photo caption text|u]; simpl; intros Hne.
  - unfold handle_photo. destruct photo; simpl; [|done].
    case_bool_decide; simpl; [|done].
    unfold put. by rewrite lookup_insert_ne.
  - unfold analyze_cmd. destruct (st !! u) as [parsed|]; [|done].
    destruct (analyze_screenshots parsed); simpl; [|done].
    unfold clear. by rewrite lookup_delete_ne.
Qed.

Lemma dict_set_not_nil {V} (k : str) (v : V) (d : dict V) :
  dict_set k v d ≠ [].
Proof. destruct d as [|[k' v'] d]; simpl; [done|]. by destruct (Text.eqb k' k). Qed.

Lemma no_empty_session_step ev st :
  no_empty_session st → no_empty_session (snd (step ev st)).
Proof.
  intros Hst uid d. destruct (decide (sender ev = uid)) as [<-|Hne].
  2: { rewrite step_other by done. apply Hst. }
  destruct ev as [u photo caption text|u]; simpl.
  - unfold handle_photo. destruct photo; simpl; [|apply Hst].
    case_bool_decide; simpl; [|apply Hst].
    unfold put. rewrite lookup_insert_eq. intros [= <-].
    apply dict_set_not_nil.
  - unfold analyze_cmd. destruct (st !! u) as [parsed|] eqn:E; [|apply Hst].
    destruct (analyze_screenshots parsed); simpl; [|apply Hst].
    unfold clear. by rewrite lookup_delete_eq.
Qed.

Lemma session_le_timeframes d :
  session_ok d → (length d ≤ 5)%nat.
Proof.
  intros [Hnd Hk].
  assert (Hsub : dict_keys d ⊆+ TIMEFRAMES).
  { apply NoDup_submseteq; [done|]. intros k Hin.
    apply list_elem_of_fmap in Hin as [[k' o] [-> Hin]].
    by apply (Hk k' o). }
  apply submseteq_length in Hsub. unfold dict_keys in Hsub.
  rewrite length_map in Hsub. exact Hsub.
Qed.

End Runs.

(** X7. Users are isolated: the events of other users never create,
    change or remove a user's session. *)
Theorem other_users_untouched (evs : list event) (st : store) (uid : Z) :
  (∀ ev, ev ∈ evs → sender ev ≠ uid) →
  run_events evs st !! uid = st !! uid.
Proof.
  revert st. induction evs as [|ev evs IH]; intros st H; [done|].
  rewrite run_events_cons, IH.
  - apply step_other, H. left.
  - intros ev' Hin. apply H. by right.
Qed.

Lemma other_users_untouched_witness :
  run_events [Photo 8 true (Some "1H"%str) "2031.40"; Analyze 8;
              Photo 9 true (Some "5m"%str) "1999.5"]
    store_one_price !! 7
  = store_one_price !! 7.
Proof.
  apply (other_users_untouched _ store_one_price 7).
  intros ev Hin. repeat (apply elem_of_cons in Hin as [->|Hin]; [discriminate|]).
  by apply elem_of_nil in Hin.
Defined.

(** X8. What a session file can hold: after any sequence of uploads and
    analyze triggers from an empty store, every stored session has
    between one and five entries, its labels are distinct and among the
    five timeframes, and each entry is the extraction of the text kept as
    its [raw]. *)
Theorem stored_sessions_shape (evs : list event) (uid : Z) (d : session) :
  run_events evs ∅ !! uid = Some d →
  NoDup (dict_keys d)
  ∧ (∀ k, k ∈ dict_keys d → k ∈ TIMEFRAMES)
  ∧ (1 ≤ length d ≤ 5)%nat
  ∧ ∀ k o, dict_get k d = Some o → o = extract_prices_from_text (raw o).
Proof.
  intros Hd.
  assert (Hne : d ≠ []).
  { revert uid d Hd. apply (run_events_invariant no_empty_session).
    - apply no_empty_session_step.
    - intros uid d. by rewrite lookup_empty. }
  assert (Hok : session_ok d) by exact (store_ok_run evs uid d Hd).
  split; [apply Hok|]. split; [|split].
  - intros k Hin. apply list_elem_of_fmap in Hin as [[k' o] [-> Hin]].
    by apply (proj2 Hok k' o).
  - split; [destruct d; [done|simpl; lia]|by apply session_le_timeframes].
  - intros k o Hget%dict_get_elem.
    destruct (proj2 Hok k o Hget) as [_ [text ->]]. reflexivity.
Qed.

Lemma stored_sessions_shape_witness :
  run_events [Photo 7 true (Some "1H"%str) "2031.40";
              Photo 7 true (Some "5M"%str) "2034.55 2035.10"] ∅ !! 7
  = Some session_1H_5M
  ∧ NoDup (dict_keys session_1H_5M)
  ∧ (∀ k, k ∈ dict_keys session_1H_5M → k ∈ TIMEFRAMES)
  ∧ (1 ≤ length session_1H_5M ≤ 5)%nat
  ∧ ∀ k o, dict_get k session_1H_5M = Some o
           → o = extract_prices_from_text (raw o).
Proof.
  assert (H : run_events [Photo 7 true (Some "1H"%str) "2031.40";
                          Photo 7 true (Some "5M"%str) "2034.55 2035.10"]
                ∅ !! 7
              = Some session_1H_5M).
  { vm_compute. reflexivity. }
  split; [exact H|].
  exact (stored_sessions_shape _ 7 session_1H_5M H).
Defined.

(** ** The analysis of stored sessions *)

Section Stored.
Implicit Types (d parsed : session) (tok : str) (l : list str).

Lemma map_float_omap l :
  Forall (fun s => is_Some (Py.float s)) l →
  map_float l = Ok (parsed_values l).
Proof.
  induction 1 as [|s l [x Hx] _ IH]; [done|].
  simpl. unfold to_float, parsed_values. simpl. rewrite Hx. simpl.
  by rewrite IH.
Qed.

Lemma parsed_values_bind {A} (ds : list A) (h : A → list str) :
  parsed_values (ds ≫= h) = ds ≫= fun o => parsed_values (h o).
Proof.
  unfold parsed_values. induction ds as [|o ds IH]; [done|].
  rewrite !bind_cons, omap_app. by rewrite IH.
Qed.

Lemma all_nums_tokens d : all_nums d = parsed_values (tokens d).
Proof. unfold tokens. by rewrite all_nums_values, parsed_values_bind. Qed.

Lemma session_ok_all_tokens d :
  session_ok d → Forall (fun s => is_Some (Py.float s)) (tokens d).
Proof.
  intros [_ Hd]. apply Forall_forall. intros tok Hin.
  apply list_elem_of_bind in Hin as (o & Htok & Hin).
  apply list_elem_of_fmap in Hin as [[k o'] [-> Hin]]. simpl in Htok.
  destruct (Hd k o' Hin) as [_ [text ->]].
  by apply (extract_tokens_float text).
Qed.

Lemma session_ok_map_tokens d :
  session_ok d → map_float (tokens d) = Ok (all_nums d).
Proof.
  intros H. rewrite all_nums_tokens. by apply map_float_omap, session_ok_all_tokens.
Qed.

Lemma session_ok_length d :
  session_ok d → length (all_nums d) = length (tokens d).
Proof. intros H%session_ok_map_tokens. by apply map_float_Ok_length. Qed.

Lemma get_numbers_tokens tf d : get_numbers tf d ⊆ tokens d.
Proof.
  unfold get_numbers. destruct (dict_get tf d) as [o|] eqn:E.
  - intros tok Hin. apply list_elem_of_bind. exists o. split; [done|].
    apply dict_get_elem in E. apply list_elem_of_fmap. by exists (tf, o).
  - intros tok []%elem_of_nil.
Qed.

Lemma first_numbers_no_tokens tfs d :
  tokens d = [] → first_numbers tfs d = None.
Proof.
  intros H. apply first_numbers_None. intros tf _.
  pose proof (get_numbers_tokens tf d) as Hsub. rewrite H in Hsub.
  destruct (get_numbers tf d) as [|t l]; [done|].
  exfalso. apply (not_elem_of_nil t), Hsub. left.
Qed.

(** On a well-formed session the analysis is decided by the tokens and
    the divisor of the position size. *)
Lemma session_ok_outcome d :
  session_ok d →
  let divisor := (ATR_SL_K * volatility d * 100)%float in
  (tokens d = [] → analyze_screenshots d = Raised NoPriceFound)
  ∧ (tokens d ≠ [] → PrimFloat.eqb divisor 0%float = true →
     analyze_screenshots d = Raised ZeroDivisionError)
  ∧ (tokens d ≠ [] → PrimFloat.eqb divisor 0%float = false →
     ∃ r, analyze_screenshots d = Ok r).
Proof.
  intros Hok divisor. split.
  { intros H. unfold analyze_screenshots. by rewrite first_numbers_no_tokens. }
  assert (Hrun : tokens d ≠ [] →
            ∃ v price s,
              first_numbers TIMEFRAMES d = Some v
              ∧ to_float (last_token v) = Ok price ∧ bias d = Ok s).
  { intros Hne.
    destruct (session_ok_has_price d Hok) as [v Hv].
    { intros Hnil. apply Hne. apply nil_length_inv.
      by rewrite <- session_ok_length, Hnil. }
    destruct (session_ok_price d v Hok Hv) as [price Hp].
    destruct (session_ok_bias d Hok) as [s Hs].
    exists v, price, s. split; [done|]. split; [|done].
    by apply to_float_Ok. }
  split; intros Hne Hz; destruct (Hrun Hne) as (v & price & s & Hv & Hp & Hs);
    unfold analyze_screenshots; rewrite Hv, Hp; simpl; rewrite Hs; simpl;
    unfold compute_sl_tp_size; fold divisor; rewrite Hz; simpl; [done|].
  by eexists.
Qed.

Lemma divisor_of_one :
  PrimFloat.eqb (ATR_SL_K * 1.0 * 100)%float 0%float = false.
Proof. vm_compute. reflexivity. Qed.

Lemma lots_of_one :
  Py.max 0.01%float
    (Py.round (10000.0 * 0.01 / (ATR_SL_K * 1.0 * 100))%float 2)
  = 0.67%float.
Proof. vm_compute. reflexivity. Qed.

Lemma compute_sl_tp_size_one price s :
  compute_sl_tp_size price 1.0%float s 10000.0%float
  = Ok (Risk (Py.round (match s with
                        | LONG => price - 1.5
                        | SHORT => price + 1.5
                        end)%float 3)
             (Py.round (match s with
                        | LONG => price + 6.0
                        | SHORT => price - 6.0
                        end)%float 3)
             0.67%float 4.0%float).
Proof.
  unfold compute_sl_tp_size. rewrite divisor_of_one, lots_of_one.
  assert (H1 : (ATR_SL_K * 1.0)%float = 1.5%float) by (vm_compute; reflexivity).
  assert (H2 : (4.0 * 1.5)%float = 6.0%float) by (vm_compute; reflexivity).
  rewrite H1, H2. by destruct s.
Qed.

Lemma volatility_short d :
  (length (all_nums d) < 2)%nat → volatility d = 1.0%float.
Proof.
  intros H. unfold volatility.
  destruct (2 <=? length (all_nums d))%nat eqn:E; [|done].
  apply Nat.leb_le in E. lia.
Qed.

Lemma reachable_session_ok evs uid d :
  run_events evs ∅ !! uid = Some d → session_ok d.
Proof. apply store_ok_run. Qed.

End Stored.

(** X9. Every token of a stored session is a number: on any session the
    handlers can leave in the store, the values gathered for the
    volatility are exactly the values of all its tokens, one for each and
    in order, so the branch that skips a token [float] rejects is never
    taken. *)
Theorem stored_tokens_all_parse (evs : list event) (uid : Z) (d : session) :
  run_events evs ∅ !! uid = Some d →
  map_float (tokens d) = Ok (all_nums d)
  ∧ length (all_nums d) = length (tokens d).
Proof.
  intros Hok%reachable_session_ok. split.
  - by apply session_ok_map_tokens.
  - by apply session_ok_length.
Qed.

Lemma stored_tokens_all_parse_witness :
  run_events [Photo 7 true (Some "1H"%str) "2031.40";
              Photo 7 true (Some "5M"%str) "2034.55 2035.10"] ∅ !! 7
  = Some session_1H_5M
  ∧ map_float (tokens session_1H_5M) = Ok (all_nums session_1H_5M)
  ∧ length (all_nums session_1H_5M) = length (tokens session_1H_5M).
Proof.
  assert (H : run_events [Photo 7 true (Some "1H"%str) "2031.40";
                          Photo 7 true (Some "5M"%str) "2034.55 2035.10"]
                ∅ !! 7
              = Some session_1H_5M).
  { vm_compute. reflexivity. }
  split; [exact H|].
  exact (stored_tokens_all_parse _ 7 session_1H_5M H).
Defined.

(** X10. The three outcomes of analysing a stored session: without any
    token the analysis reports that no price was found; with a token it
    reports a division by zero when the divisor of the position size,
    1.5 times the volatility times 100, equals zero, and gives a
    recommendation otherwise.  It never reports a token that is not a
    number. *)
Theorem stored_analysis_outcome (evs : list event) (uid : Z) (d : session) :
  run_events evs ∅ !! uid = Some d →
  let divisor := (ATR_SL_K * volatility d * 100)%float in
  (tokens d = [] → analyze_screenshots d = Raised NoPriceFound)
  ∧ (tokens d ≠ [] → PrimFloat.eqb divisor 0%float = true →
     analyze_screenshots d = Raised ZeroDivisionError)
  ∧ (tokens d ≠ [] → PrimFloat.eqb divisor 0%float = false →
     ∃ r, analyze_screenshots d = Ok r)
  ∧ ∀ tok, analyze_screenshots d ≠ Raised (ValueError tok).
Proof.
  intros Hok%reachable_session_ok divisor.
  destruct (session_ok_outcome d Hok) as (H0 & H1 & H2).
  split; [done|]. split; [done|]. split; [done|].
  intros tok Htok.
  destruct (tokens d) as [|t l] eqn:E.
  - rewrite H0 in Htok by done. discriminate.
  - destruct (PrimFloat.eqb divisor 0%float) eqn:Hz.
    + rewrite H1 in Htok by done. discriminate.
    + destruct H2 as [r Hr]; [done|done|]. rewrite Hr in Htok. discriminate.
Qed.

Lemma stored_analysis_outcome_witness :
  run_events [Photo 7 true (Some "1H"%str) "2031.40";
              Photo 7 true (Some "5M"%str) "2034.55 2035.10"] ∅ !! 7
  = Some session_1H_5M
  ∧ (tokens session_1H_5M = [] →
     analyze_screenshots session_1H_5M = Raised NoPriceFound)
  ∧ (tokens session_1H_5M ≠ [] →
     PrimFloat.eqb (ATR_SL_K * volatility session_1H_5M * 100)%float 0%float
     = true →
     analyze_screenshots session_1H_5M = Raised ZeroDivisionError)
  ∧ (tokens session_1H_5M ≠ [] →
     PrimFloat.eqb (ATR_SL_K * volatility session_1H_5M * 100)%float 0%float
     = false →
     ∃ r, analyze_screenshots session_1H_5M = Ok r)
  ∧ ∀ tok, analyze_screenshots session_1H_5M ≠ Raised (ValueError tok).
Proof.
  assert (H : run_events [Photo 7 true (Some "1H"%str) "2031.40";
                          Photo 7 true (Some "5M"%str) "2034.55 2035.10"]
                ∅ !! 7
              = Some session_1H_5M).
  { vm_compute. reflexivity. }
  split; [exact H|].
  exact (stored_analysis_outcome _ 7 session_1H_5M H).
Defined.

(** X11. A stored session with a single token always gives a
    recommendation: the entry is the value of the token, the volatility
    defaults to 1, so the stop is the entry moved by 1.5 and the target
    the entry moved by 6, each rounded to three decimals, and the size is
    0.67 lots. *)
Theorem single_price_analysis (evs : list event) (uid : Z) (d : session)
    (tok : str) :
  run_events evs ∅ !! uid = Some d →
  tokens d = [tok] →
  ∃ price s,
    Py.float tok = Some price
    ∧ analyze_screenshots d
      = Ok (Recommend s price
              (Py.round (match s with
                         | LONG => price - 1.5
                         | SHORT => price + 1.5
                         end)%float 3)
              (Py.round (match s with
                         | LONG => price + 6.0
                         | SHORT => price - 6.0
                         end)%float 3)
              0.67%float 4.0%float).
Proof.
  intros Hok%reachable_session_ok Htok.
  assert (Hvol : volatility d = 1.0%float).
  { apply volatility_short. rewrite session_ok_length, Htok by done.
    simpl. lia. }
  destruct (session_ok_has_price d Hok) as [v Hv].
  { intros Hnil. apply (f_equal length) in Hnil.
    rewrite session_ok_length, Htok in Hnil by done. discriminate. }
  destruct (session_ok_price d v Hok Hv) as [price Hp].
  destruct (session_ok_bias d Hok) as [s Hs].
  assert (Hlast : last_token v = tok).
  { assert (Hin : last_token v ∈ tokens d).
    { revert Hv. generalize TIMEFRAMES. intros tfs.
      induction tfs as [|tf tfs IH]; simpl; [done|].
      destruct (get_numbers tf d) as [|t l] eqn:E; [done|].
      intros [= <-]. apply (get_numbers_tokens tf). rewrite E.
      unfold last_token. destruct (last (t :: l)) as [x|] eqn:Hl; simpl.
      - by apply last_Some_elem_of.
      - by apply last_None in Hl. }
    rewrite Htok in Hin. by apply list_elem_of_singleton in Hin. }
  rewrite Hlast in Hp. exists price, s. split; [done|].
  apply analyze_screenshots_Ok. eexists v, price, s, _.
  split; [done|]. split; [by rewrite Hlast|]. split; [done|].
  split; [rewrite Hvol; apply compute_sl_tp_size_one|reflexivity].
Qed.

Lemma single_price_analysis_witness :
  run_events [Photo 7 true (Some "5m"%str) "XAUUSD 2034.55"] ∅ !! 7
  = Some (one_upload "5m" "XAUUSD 2034.55")
  ∧ tokens (one_upload "5m" "XAUUSD 2034.55") = ["2034.55"%str]
  ∧ ∃ price s,
      Py.float "2034.55" = Some price
      ∧ analyze_screenshots (one_upload "5m" "XAUUSD 2034.55")
        = Ok (Recommend s price
                (Py.round (match s with
                           | LONG => price - 1.5
                           | SHORT => price + 1.5
                           end)%float 3)
                (Py.round (match s with
                           | LONG => price + 6.0
                           | SHORT => price - 6.0
                           end)%float 3)
                0.67%float 4.0%float).
Proof.
  assert (H : run_events [Photo 7 true (Some "5m"%str) "XAUUSD 2034.55"] ∅
                !! 7
              = Some (one_upload "5m" "XAUUSD 2034.55")).
  { vm_compute. reflexivity. }
  assert (Ht : tokens (one_upload "5m" "XAUUSD 2034.55")
               = ["2034.55"%str]).
  { vm_compute. reflexivity. }
  split; [exact H|]. split; [exact Ht|].
  exact (single_price_analysis _ 7 _ "2034.55" H Ht).
Defined.

(** ** The position size *)

Section Lots.

Lemma ltb_leb (x y : float) :
  PrimFloat.ltb x y = true → PrimFloat.leb x y = true.
Proof.
  rewrite FloatAxioms.ltb_spec, FloatAxioms.leb_spec.
  unfold SFltb, SFleb. by destruct (SFcompare _ _) as [[]|].
Qed.

Lemma max_floor (a b : float) :
  PrimFloat.leb a a = true → PrimFloat.leb a (Py.max a b) = true.
Proof.
  intros Ha. unfold Py.max. destruct (PrimFloat.ltb a b) eqn:E; [|done].
  by apply ltb_leb.
Qed.

End Lots.

(** X12. The position size has a floor: whenever [compute_sl_tp_size]
    returns, the lots are at least 0.01, whatever the volatility
    (tiny, huge, infinite or not a number); and the lots depend on the
    volatility and the balance only, not on the entry price or the
    side. *)
Theorem position_size_floor (entry_price atr : float) (s : side)
    (balance : float) (r : risk) :
  compute_sl_tp_size entry_price atr s balance = Ok r →
  PrimFloat.leb 0.01 (risk_lots r) = true
  ∧ ∀ entry_price' s',
      ∃ r', compute_sl_tp_size entry_price' atr s' balance = Ok r'
            ∧ risk_lots r' = risk_lots r.
Proof.
  unfold compute_sl_tp_size.
  destruct (PrimFloat.eqb _ _) eqn:E; [done|]. intros [= <-]. simpl. split.
  - apply max_floor. vm_compute. reflexivity.
  - intros entry_price' s'. by eexists.
Qed.

Lemma position_size_floor_witness :
  compute_sl_tp_size 2000.0 1.0e9 LONG 10000.0
  = Ok (Risk (-1499998000) 6000002000 0.01 4.0)
  ∧ PrimFloat.leb 0.01 (risk_lots (Risk (-1499998000) 6000002000 0.01 4.0))
    = true
  ∧ ∀ entry_price' s',
      ∃ r', compute_sl_tp_size entry_price' 1.0e9 s' 10000.0 = Ok r'
            ∧ risk_lots r' = risk_lots (Risk (-1499998000) 6000002000 0.01 4.0).
Proof.
  assert (H : compute_sl_tp_size 2000.0 1.0e9 LONG 10000.0
              = Ok (Risk (-1499998000) 6000002000 0.01 4.0)).
  { vm_compute. reflexivity. }
  split; [exact H|].
  exact (position_size_floor 2000.0 1.0e9 LONG 10000.0 _ H).
Defined.

(** ** The order of uploads *)

Section Order.
Context {V : Type}.
Implicit Types (a b k : str) (x y v : V) (d : dict V).

Lemma dict_set_swap a b x y d :
  a ≠ b → dict_set a x (dict_set b y d) ≡ₚ dict_set b y (dict_set a x d).
Proof.
  intros Hab. induction d as [|[k v] d IH]; simpl.
  - destruct (str_eqb_spec b a) as [->|_]; [done|].
    destruct (str_eqb_spec a b) as [->|_]; [done|]. apply perm_swap.
  - destruct (str_eqb_spec k b) as [Hkb|Hkb],
             (str_eqb_spec k a) as [Hka|Hka]; simpl.
    + congruence.
    + rewrite (proj2 (str_eqb_eq k b) Hkb).
      by rewrite (proj2 (str_eqb_neq k a) Hka).
    + rewrite (proj2 (str_eqb_eq k a) Hka).
      by rewrite (proj2 (str_eqb_neq k b) Hkb).
    + rewrite (proj2 (str_eqb_neq k a) Hka).
      rewrite (proj2 (str_eqb_neq k b) Hkb).
      by apply perm_skip.
Qed.

Lemma dict_get_set_swap a b x y d k :
  a ≠ b →
  dict_get k (dict_set a x (dict_set b y d))
  = dict_get k (dict_set b y (dict_set a x d)).
Proof.
  intros Hab. destruct (decide (k = a)) as [->|Hka].
  { by rewrite dict_get_set_eq, dict_get_set_ne, dict_get_set_eq. }
  destruct (decide (k = b)) as [->|Hkb].
  { by rewrite dict_get_set_eq, dict_get_set_ne, dict_get_set_eq. }
  by rewrite !dict_get_set_ne.
Qed.

End Order.

Section SameLookups.
Implicit Types (d : session).

Lemma first_numbers_ext tfs d d' :
  (∀ tf, get_numbers tf d = get_numbers tf d') →
  first_numbers tfs d = first_numbers tfs d'.
Proof.
  intros H. induction tfs as [|tf tfs IH]; simpl; [done|].
  by rewrite H, IH.
Qed.

Lemma bias_ext d d' :
  (∀ tf, get_numbers tf d = get_numbers tf d') → bias d = bias d'.
Proof. intros H. unfold bias. by rewrite H. Qed.

Lemma get_numbers_ext d d' :
  (∀ k, dict_get k d = dict_get k d') →
  ∀ tf, get_numbers tf d = get_numbers tf d'.
Proof. intros H tf. unfold get_numbers. by rewrite H. Qed.

Lemma all_nums_Permutation d d' : d ≡ₚ d' → all_nums d ≡ₚ all_nums d'.
Proof.
  intros H. rewrite !all_nums_values. unfold dict_values.
  apply bind_Permutation. by apply Permutation_map.
Qed.

Lemma same_numbers_get d d' :
  same_numbers d d' → ∀ tf, get_numbers tf d = get_numbers tf d'.
Proof.
  intros H tf. unfold get_numbers.
  induction H as [|[k o] [k' o'] d d' [Hk Ho] _ IH]; [done|].
  simpl in *. subst k'. destruct (Text.eqb k tf); [done|exact IH].
Qed.

Lemma same_numbers_all_nums d d' :
  same_numbers d d' → all_nums d = all_nums d'.
Proof.
  intros H. rewrite !all_nums_values. unfold dict_values.
  induction H as [|[k o] [k' o'] d d' [Hk Ho] _ IH]; [done|].
  simpl in Hk, Ho. simpl map. rewrite !bind_cons. simpl snd. by rewrite Ho, IH.
Qed.

Lemma analyze_no_price d :
  analyze_screenshots d = Raised NoPriceFound
  ↔ first_numbers TIMEFRAMES d = None.
Proof.
  unfold analyze_screenshots.
  destruct (first_numbers TIMEFRAMES d) as [v|]; [|by split].
  split; [|intros [=]]. intros H. exfalso. revert H.
  destruct (to_float (last_token v)) as [price|e] eqn:Hp; simpl.
  2: { apply to_float_raises in Hp as [-> _]. intros [=]. }
  destruct (bias d) as [s|e] eqn:Hs; simpl.
  2: { apply bias_raises in Hs as [tok ->]. intros [=]. }
  destruct (compute_sl_tp_size price (volatility d) s 10000.0%float)
    as [t|e] eqn:Hc; simpl; [intros [=]|].
  apply compute_sl_tp_size_raises in Hc as ->. intros [=].
Qed.

End SameLookups.

(** X13. Uploads under two different labels can come in either order:
    the session has the same observation under every label, the values
    gathered for the volatility are the same up to their order, one
    order finds no price exactly when the other finds none, and when both
    analyses succeed they report the same entry price and the same
    side. *)
Theorem upload_order (uid : Z) (a b : str) (x y : observation)
    (st : store) :
  a ≠ b →
  let d1 := get uid (put uid a x (put uid b y st)) in
  let d2 := get uid (put uid b y (put uid a x st)) in
  (∀ tf, dict_get tf d1 = dict_get tf d2)
  ∧ all_nums d1 ≡ₚ all_nums d2
  ∧ (analyze_screenshots d1 = Raised NoPriceFound
     ↔ analyze_screenshots d2 = Raised NoPriceFound)
  ∧ ∀ r1 r2,
      analyze_screenshots d1 = Ok r1 → analyze_screenshots d2 = Ok r2 →
      rec_entry r1 = rec_entry r2 ∧ rec_side r1 = rec_side r2.
Proof.
  intros Hab d1 d2. subst d1 d2. rewrite !get_put_eq.
  set (d := get uid st).
  assert (Hget : ∀ tf, dict_get tf (dict_set a x (dict_set b y d))
                       = dict_get tf (dict_set b y (dict_set a x d))).
  { intros tf. by apply dict_get_set_swap. }
  pose proof (get_numbers_ext _ _ Hget) as Hnum.
  pose proof (first_numbers_ext TIMEFRAMES _ _ Hnum) as Hfirst.
  pose proof (bias_ext _ _ Hnum) as Hbias.
  split; [done|]. split; [by apply all_nums_Permutation, dict_set_swap|].
  split.
  - by rewrite !analyze_no_price, Hfirst.
  - intros r1 r2
      (v1 & p1 & s1 & t1 & Hv1 & Hp1 & Hs1 & _ & ->)%analyze_screenshots_Ok
      (v2 & p2 & s2 & t2 & Hv2 & Hp2 & Hs2 & _ & ->)%analyze_screenshots_Ok.
    simpl. rewrite Hfirst in Hv1. rewrite Hbias in Hs1.
    assert (v1 = v2) as -> by congruence.
    split; congruence.
Qed.

Lemma upload_order_witness :
  let d1 := get 7 (put 7 "5M" (extract_prices_from_text "2034.55 2035.10")
                     (put 7 "1H" (extract_prices_from_text "2031.40") ∅)) in
  let d2 := get 7 (put 7 "1H" (extract_prices_from_text "2031.40")
                     (put 7 "5M" (extract_prices_from_text "2034.55 2035.10")
                        ∅)) in
  (∀ tf, dict_get tf d1 = dict_get tf d2)
  ∧ all_nums d1 ≡ₚ all_nums d2
  ∧ (analyze_screenshots d1 = Raised NoPriceFound
     ↔ analyze_screenshots d2 = Raised NoPriceFound)
  ∧ ∀ r1 r2,
      analyze_screenshots d1 = Ok r1 → analyze_screenshots d2 = Ok r2 →
      rec_entry r1 = rec_entry r2 ∧ rec_side r1 = rec_side r2.
Proof.
  apply (upload_order 7 "5M" "1H"). discriminate.
Defined.

(** X14. The analysis reads the numbers only: two sessions with the same
    labels in the same order and the same numbers under each give the
    same result, whatever their raw texts. *)
Theorem analysis_ignores_raw (d d' : session) :
  same_numbers d d' → analyze_screenshots d = analyze_screenshots d'.
Proof.
  intros H. unfold analyze_screenshots, volatility.
  rewrite (first_numbers_ext TIMEFRAMES d d' (same_numbers_get d d' H)).
  rewrite (bias_ext d d' (same_numbers_get d d' H)).
  by rewrite (same_numbers_all_nums d d' H).
Qed.

Lemma analysis_ignores_raw_witness :
  analyze_screenshots
    [("5M", Obs ["2034.55"; "2035.10"] "XAUUSD 2034.55 2035.10")]%str
  = analyze_screenshots
      [("5M", Obs ["2034.55"; "2035.10"] "")]%str.
Proof.
  apply analysis_ignores_raw. repeat constructor.
Defined.

(** ** An upload followed by an analyze trigger *)

(** X15. After an accepted upload that shows at least one price, the
    sender's analyze trigger never answers that there is nothing parsed,
    that no price was found, or that a token is not a number: it gives a
    recommendation and clears the session, or reports a division by zero
    and keeps it. *)
Theorem upload_then_analyze (evs : list event) (uid : Z)
    (caption : option str) (text : str) (L : str) :
  Text.upper (Text.strip (default ""%str caption)) = L →
  L ∈ TIMEFRAMES →
  numbers (extract_prices_from_text text) ≠ [] →
  let st' := snd (handle_photo uid true caption text (run_events evs ∅)) in
  (∃ r, analyze_cmd uid st' = (Recommendation r, clear uid st'))
  ∨ analyze_cmd uid st' = (AnalysisError ZeroDivisionError, st').
Proof.
  intros HL Hin Hne st'.
  assert (Hrun : st' = run_events (evs ++ [Photo uid true caption text]) ∅).
  { by rewrite run_events_snoc. }
  assert (Hst : st' !! uid
                = Some (dict_set L (extract_prices_from_text text)
                          (get uid (run_events evs ∅)))).
  { subst st'. rewrite (handle_photo_accepted _ _ _ _ L) by done.
    simpl. unfold put. by rewrite lookup_insert_eq. }
  set (d := dict_set L _ _) in Hst.
  assert (Hok : session_ok d).
  { apply (reachable_session_ok (evs ++ [Photo uid true caption text]) uid).
    by rewrite <- Hrun. }
  assert (Htok : tokens d ≠ []).
  { intros Hnil. apply Hne.
    pose proof (get_numbers_tokens L d) as Hsub.
    unfold d in Hsub at 1. rewrite get_numbers_set_eq, Hnil in Hsub.
    destruct (numbers _) as [|t l]; [done|].
    exfalso. apply (not_elem_of_nil t), Hsub. left. }
  destruct (session_ok_outcome d Hok) as (_ & H1 & H2).
  unfold analyze_cmd. rewrite Hst.
  destruct (PrimFloat.eqb (ATR_SL_K * volatility d * 100)%float 0%float) eqn:E.
  - right. by rewrite H1.
  - left. destruct H2 as [r Hr]; [done|done|]. rewrite Hr. by exists r.
Qed.

Lemma upload_then_analyze_witness :
  let st' := snd (handle_photo 7 true (Some "5m"%str) "2034.55 2034.55"
                    (run_events [Photo 7 true (Some "1H"%str) "no price"]
                       ∅)) in
  (∃ r, analyze_cmd 7 st' = (Recommendation r, clear 7 st'))
  ∨ analyze_cmd 7 st' = (AnalysisError ZeroDivisionError, st').
Proof.
  apply (upload_then_analyze _ 7 (Some "5m"%str) "2034.55 2034.55" "5M").
  - reflexivity.
  - unfold TIMEFRAMES. set_solver.
  - vm_compute. discriminate.
Defined.

(** X16. A successful analysis forgets the whole session: the next
    accepted upload of the same user starts a session that holds this
    one observation and none of the earlier timeframes. *)
Theorem fresh_session_after_success (uid : Z) (st st' : store)
    (r : recommendation) (caption : option str) (text : str)
    (L : str) :
  analyze_cmd uid st = (Recommendation r, st') →
  Text.upper (Text.strip (default ""%str caption)) = L →
  L ∈ TIMEFRAMES →
  get uid (snd (handle_photo uid true caption text st'))
  = [(L, extract_prices_from_text text)].
Proof.
  intros Hcmd HL Hin.
  rewrite (handle_photo_accepted _ _ _ _ L) by done. simpl.
  rewrite get_put_eq.
  assert (Hclear : get uid st' = []); [|by rewrite Hclear].
  revert Hcmd. unfold analyze_cmd.
  destruct (st !! uid) as [parsed|]; [|done].
  destruct (analyze_screenshots parsed); [|done].
  intros [= _ <-]. apply get_clear.
Qed.

Lemma fresh_session_after_success_witness :
  analyze_cmd 7 store_one_price
  = (Recommendation (Recommend LONG 2034.55 2033.05 2040.55 0.67 4.0), ∅)
  ∧ get 7 (snd (handle_photo 7 true (Some "4h"%str) "2040.1" ∅))
    = [("4H"%str, extract_prices_from_text "2040.1")].
Proof.
  assert (Hin : "4H"%str ∈ TIMEFRAMES).
  { unfold TIMEFRAMES. set_solver. }
  assert (H : analyze_cmd 7 store_one_price
              = (Recommendation (Recommend LONG 2034.55 2033.05 2040.55
                                   0.67 4.0), ∅)).
  { vm_compute. reflexivity. }
  split; [exact H|].
  exact (fresh_session_after_success 7 store_one_price ∅ _ (Some "4h"%str)
           "2040.1" "4H" H eq_refl Hin).
Defined.

(** ** Where stored observations come from *)

(** X17. Every stored observation is the sender's own upload: after any
    sequence of events from an empty store, each entry of a user's
    session was put there by a photo message of that user whose caption
    reads as the entry's label and whose text extracts to the entry's
    observation. *)
Theorem stored_entries_provenance (evs : list event) (uid : Z) (d : session)
    (L : str) (o : observation) :
  run_events evs ∅ !! uid = Some d → (L, o) ∈ d →
  ∃ caption text,
    Photo uid true caption text ∈ evs
    ∧ Text.upper (Text.strip (default ""%str caption)) = L
    ∧ o = extract_prices_from_text text.
Proof.
  revert d. induction evs as [|ev evs IH] using rev_ind; intros d.
  { unfold run_events. simpl. rewrite lookup_empty. intros [=]. }
  rewrite run_events_snoc. set (st := run_events evs ∅) in *.
  assert (Hold : st !! uid = Some d → (L, o) ∈ d →
            ∃ caption text,
              Photo uid true caption text ∈ evs ++ [ev]
              ∧ Text.upper (Text.strip (default ""%str caption)) = L
              ∧ o = extract_prices_from_text text).
  { intros Hd Hin. destruct (IH d Hd Hin) as (caption & text & Hev & Hrest).
    exists caption, text. split; [|done]. apply elem_of_app. by left. }
  destruct (decide (sender ev = uid)) as [Hu|Hu].
  2: { by rewrite step_other. }
  destruct ev as [u photo caption text|u]; simpl in Hu; subst u; simpl.
  - unfold handle_photo. destruct photo; simpl; [|exact Hold].
    case_bool_decide as Hcap; simpl; [|exact Hold].
    unfold put. rewrite lookup_insert_eq. intros [= <-] Hin.
    apply dict_set_elem in Hin as [Hin|[-> ->]].
    + unfold get in Hin. destruct (st !! uid) as [d0|] eqn:E; simpl in Hin.
      * destruct (IH d0 eq_refl Hin) as (caption' & text' & Hev & Hrest).
        exists caption', text'. split; [|exact Hrest].
        apply elem_of_app. by left.
      * by apply elem_of_nil in Hin.
    + exists caption, text. split; [|done].
      apply elem_of_app. right. left.
  - unfold analyze_cmd. destruct (st !! uid) as [parsed|] eqn:E.
    2: { simpl. rewrite E. intros [=]. }
    destruct (analyze_screenshots parsed); simpl.
    + unfold clear. rewrite lookup_delete_eq. intros [=].
    + rewrite E. intros [= <-] Hin.
      destruct (IH parsed eq_refl Hin) as (caption & text & Hev & Hrest).
      exists caption, text. split; [|exact Hrest]. apply elem_of_app. by left.
Qed.

Lemma stored_entries_provenance_witness :
  run_events [Photo 7 true (Some "1H"%str) "2031.40";
              Photo 7 true (Some "5M"%str) "2034.55 2035.10"] ∅ !! 7
  = Some session_1H_5M
  ∧ ("5M"%str, Obs ["2034.55"; "2035.10"]%str "2034.55 2035.10")
    ∈ session_1H_5M
  ∧ ∃ caption text,
      Photo 7 true caption text
      ∈ [Photo 7 true (Some "1H"%str) "2031.40";
         Photo 7 true (Some "5M"%str) "2034.55 2035.10"]
      ∧ Text.upper (Text.strip (default ""%str caption)) = "5M"%str
      ∧ Obs ["2034.55"; "2035.10"]%str "2034.55 2035.10"
        = extract_prices_from_text text.
Proof.
  assert (H : run_events [Photo 7 true (Some "1H"%str) "2031.40";
                          Photo 7 true (Some "5M"%str) "2034.55 2035.10"]
                ∅ !! 7
              = Some session_1H_5M).
  { vm_compute. reflexivity. }
  assert (Hin : ("5M"%str,
                 Obs ["2034.55"; "2035.10"]%str "2034.55 2035.10")
                ∈ session_1H_5M).
  { vm_compute. right. left. }
  split; [exact H|]. split; [exact Hin|].
  exact (stored_entries_provenance _ 7 session_1H_5M _ _ H Hin).
Defined.

(** ** The side depends on the last five 15M tokens *)

(** X18. Only the last five 15M tokens decide the side: two sessions
    whose 15M observations end with the same five tokens (or are the same
    shorter list) get the same side, or fail on the same token. *)
Theorem bias_last_five (d d' : session) :
  last5 (get_numbers "15M" d) = last5 (get_numbers "15M" d') →
  bias d = bias d'.
Proof.
  unfold bias.
  generalize (get_numbers "15M" d) (get_numbers "15M" d').
  intros m m' H.
  assert (Hlast : last_token m = last_token m').
  { unfold last_token. by rewrite <- (last_last5 m), <- (last_last5 m'), H. }
  assert (Hlen : Nat.min 5 (length m) = Nat.min 5 (length m')).
  { by rewrite <- !length_last5, H. }
  destruct m as [|t l], m' as [|t' l']; simpl in Hlen; [done|lia|lia|].
  by rewrite H, Hlast.
Qed.

Lemma bias_last_five_witness :
  bias [("15M", Obs ["1990.5"; "2000.1"; "2001.0"; "2002.5"; "2001.7";
                     "2003.2"] "")]%str
  = bias [("15M", Obs ["2000.1"; "2001.0"; "2002.5"; "2001.7"; "2003.2"]
                    "")]%str.
Proof.
  apply bias_last_five. reflexivity.
Defined.
